(** * Zoom to Google Drive connector: a shallow embedding

    The connector is a Google Apps Script program
    ([src/template_zoom-drive-connector_github.js]).  This development
    embeds the parts of it that decide the transfer-and-dedup pipeline:
    the caption-track formatter, the folder router, topic-prefix
    stripping, the ledger lookups and the row writer, the windowed and
    paginated fetchers, and the per-recording orchestrator.

    Conventions of the embedding.
    - A JavaScript string is a [string]; each [ascii] stands for one code
      unit below 256, so the whitespace class and the case mapping are
      those of JavaScript restricted to that range.
    - Calendar dates are day numbers ([Z], days since 1970-01-01) and are
      rendered through the proleptic Gregorian calendar.
    - External services (HTTP, Drive, the spreadsheet) are oracles passed
      as arguments; effects on them are recorded as an event list. *)

From Stdlib Require Import String Ascii List ZArith Lia Bool DecimalString.
Import ListNotations.
Open Scope string_scope.
Open Scope list_scope.

(* ================================================================== *)
(** ** JavaScript string primitives *)
(* ================================================================== *)

Module JsString.

(** Code unit of a character. *)
Definition code (c : ascii) : N := N_of_ascii c.

(** White space as [String.prototype.trim] and the pattern class [\s]
    see it, for code units below 256: TAB, LF, VT, FF, CR, SPACE, NBSP. *)
Definition isWhitespace (c : ascii) : bool :=
  let n := code c in
  ((9 <=? n) && (n <=? 13) || (n =? 32) || (n =? 160))%N.

(** The pattern class [\d]. *)
Definition isDigit (c : ascii) : bool :=
  let n := code c in ((48 <=? n) && (n <=? 57))%N.

Definition isEmpty (s : string) : bool :=
  match s with EmptyString => true | String _ _ => false end.

(** JavaScript truthiness of a string: non-empty. *)
Definition truthy (s : string) : bool := negb (isEmpty s).

Fixpoint trimStart (s : string) : string :=
  match s with
  | EmptyString => EmptyString
  | String c r => if isWhitespace c then trimStart r else s
  end.

Fixpoint trimEnd (s : string) : string :=
  match s with
  | EmptyString => EmptyString
  | String c r =>
      let r' := trimEnd r in
      if isWhitespace c && isEmpty r' then EmptyString else String c r'
  end.

(** [s.trim()] *)
Definition trim (s : string) : string := trimEnd (trimStart s).

(** [s.startsWith(p)] *)
Definition startsWith (s p : string) : bool := String.prefix p s.

(** [s.includes(sub)] *)
Fixpoint includes (s sub : string) : bool :=
  if String.prefix sub s then true
  else match s with
       | EmptyString => false
       | String _ r => includes r sub
       end.

(** [s.split(sep)] for a one-character separator.  The result is never
    empty: splitting the empty string gives one empty piece. *)
Fixpoint split (sep : ascii) (s : string) : list string :=
  match s with
  | EmptyString => [EmptyString]
  | String c r =>
      if Ascii.eqb c sep then EmptyString :: split sep r
      else match split sep r with
           | h :: t => String c h :: t
           | [] => [String c EmptyString]
           end
  end.

(** [pieces.join(sep)] *)
Definition join (sep : string) (pieces : list string) : string :=
  String.concat sep pieces.

(** Lower-case mapping of one code unit below 256: A-Z, and the Latin-1
    capitals U+00C0..U+00DE except the multiplication sign U+00D7. *)
Definition lowerChar (c : ascii) : ascii :=
  let n := code c in
  if ((65 <=? n) && (n <=? 90)
      || (192 <=? n) && (n <=? 222) && negb (n =? 215))%N
  then ascii_of_N (n + 32) else c.

(** [s.toLowerCase()] *)
Fixpoint toLowerCase (s : string) : string :=
  match s with
  | EmptyString => EmptyString
  | String c r => String (lowerChar c) (toLowerCase r)
  end.

(** Drop the first [n] code units. *)
Fixpoint drop (n : nat) (s : string) : string :=
  match n, s with
  | O, _ => s
  | S _, EmptyString => EmptyString
  | S k, String _ r => drop k r
  end.

(** The text before the first occurrence of [sep] and the text after
    it, when [sep] occurs. *)
Fixpoint cutAtFirst (sep : ascii) (s : string) : option (string * string) :=
  match s with
  | EmptyString => None
  | String c r =>
      if Ascii.eqb c sep then Some (EmptyString, r)
      else match cutAtFirst sep r with
           | Some (a, b) => Some (String c a, b)
           | None => None
           end
  end.

End JsString.
Import JsString.

(* ================================================================== *)
(** ** Caption track to plain text: [convertTranscriptToText] *)
(* ================================================================== *)

Module Transcript.

(** [/^WEBVTT/] *)
Definition isHeaderLine (line : string) : bool := startsWith line "WEBVTT".

(** [/^\d{2}:\d{2}:\d{2}/] *)
Definition isTimestampLine (line : string) : bool :=
  match line with
  | String a (String b (String c (String d (String e
      (String f (String g (String h _))))))) =>
      isDigit a && isDigit b && Ascii.eqb c ":" &&
      isDigit d && isDigit e && Ascii.eqb f ":" &&
      isDigit g && isDigit h
  | _ => false
  end.

Fixpoint allDigits (s : string) : bool :=
  match s with
  | EmptyString => true
  | String c r => isDigit c && allDigits r
  end.

(** [/^\d+$/] *)
Definition isSequenceLine (line : string) : bool :=
  truthy line && allDigits line.

(** The guard of the [continue] at the head of the loop body. *)
Definition skipped (line : string) : bool :=
  isHeaderLine line || isTimestampLine line || isSequenceLine line
  || isEmpty line.

(** The three loop variables. [currentSpeaker = None] is JavaScript's
    [null]. *)
Record loopState := {
  plainText : list string;
  currentSpeaker : option string;
  currentStatement : list string
}.

Definition initialState : loopState :=
  {| plainText := []; currentSpeaker := None; currentStatement := [] |}.

(** [`${currentSpeaker}: ${currentStatement.join(" ")}`] *)
Definition entry (speaker : string) (statements : list string) : string :=
  speaker ++ ": " ++ join " " statements.

(** [if (currentSpeaker && currentStatement.length > 0) plainText.push(...)],
    giving the new [plainText]. *)
Definition flushed (st : loopState) : list string :=
  match currentSpeaker st with
  | Some sp =>
      if truthy sp && negb (Nat.eqb (List.length (currentStatement st)) 0)
      then plainText st ++ [entry sp (currentStatement st)]
      else plainText st
  | None => plainText st
  end.

Definition sameSpeaker (speaker : string) (cur : option string) : bool :=
  match cur with
  | Some sp => String.eqb speaker sp
  | None => false
  end.

(** One iteration of the [for] loop on the raw line [lines[i]]. *)
Definition step (st : loopState) (raw : string) : loopState :=
  let line := trim raw in
  if skipped line then st
  else if includes line ":" then
    match split ":" line with
    | first :: text =>
        let speaker := trim first in
        let statement := trim (join ":" text) in
        if truthy speaker && truthy statement then
          if sameSpeaker speaker (currentSpeaker st) then
            {| plainText := plainText st;
               currentSpeaker := currentSpeaker st;
               currentStatement := currentStatement st ++ [statement] |}
          else
            {| plainText := flushed st;
               currentSpeaker := Some speaker;
               currentStatement := [statement] |}
        else st
    | [] => st
    end
  else st.

(** The text handed to [folder.createFile]: [finalText]. *)
Definition convertTranscriptToText (vttContent : string) : string :=
  let lines := split "010" vttContent in
  let st := fold_left step lines initialState in
  join (String "010" (String "010" EmptyString)) (flushed st).

(** *** The conversion as the specification words it *)

(** A retained line split on its first colon into a trimmed speaker and
    a trimmed statement; lines without a colon or with an empty side are
    dropped. *)
Definition utterance (line : string) : option (string * string) :=
  match cutAtFirst ":" line with
  | Some (a, b) =>
      let speaker := trim a in
      let statement := trim b in
      if isEmpty speaker || isEmpty statement then None
      else Some (speaker, statement)
  | None => None
  end.

Fixpoint utterances (lines : list string) : list (string * string) :=
  match lines with
  | [] => []
  | raw :: rest =>
      let line := trim raw in
      if skipped line then utterances rest
      else match utterance line with
           | Some u => u :: utterances rest
           | None => utterances rest
           end
  end.

(** Consecutive utterances of one speaker form one run. *)
Fixpoint mergeRuns (us : list (string * string))
  : list (string * list string) :=
  match us with
  | [] => []
  | (sp, stmt) :: rest =>
      match mergeRuns rest with
      | (sp', stmts) :: runs =>
          if String.eqb sp sp' then (sp, stmt :: stmts) :: runs
          else (sp, [stmt]) :: (sp', stmts) :: runs
      | [] => [(sp, [stmt])]
      end
  end.

Definition renderRun (run : string * list string) : string :=
  entry (fst run) (snd run).

Definition specPlainText (vttContent : string) : string :=
  join (String "010" (String "010" EmptyString))
       (map renderRun (mergeRuns (utterances (split "010" vttContent)))).

End Transcript.

(* ================================================================== *)
(** ** Configuration and JavaScript objects used as tables *)
(* ================================================================== *)

Module JsObject.

(** The own string-keyed properties of an ordinary object, in creation
    order, each key once. *)
Definition object := list (string * string).

(** Defining a property: an existing key keeps its place and takes the
    new value, a new key goes last. *)
Fixpoint define (k v : string) (o : object) : object :=
  match o with
  | [] => [(k, v)]
  | (k', v') :: rest =>
      if String.eqb k k' then (k, v) :: rest
      else (k', v') :: define k v rest
  end.

(** The key an object literal does not define as a property: written
    with a value that is no object, as the texts here, it is passed
    over and the prototype stays as it is.  (A literal that writes it
    twice is a syntax error.) *)
Definition protoKey : string := "__proto__".

Definition definesProperty (kv : string * string) : bool :=
  negb (String.eqb (fst kv) protoKey).

(** The object an object literal evaluates to, from the literal's
    properties as written. *)
Definition ofLiteral (props : list (string * string)) : object :=
  fold_left
    (fun o kv => if definesProperty kv then define (fst kv) (snd kv) o else o)
    props [].

Fixpoint digitsValue (s : string) (acc : N) : option N :=
  match s with
  | EmptyString => Some acc
  | String c r =>
      if isDigit c then digitsValue r (acc * 10 + (code c - 48))%N
      else None
  end.

(** A key is an array index when it is the canonical decimal numeral of
    an integer from 0 to 2^32 - 2. *)
Definition arrayIndex (k : string) : option N :=
  match k with
  | EmptyString => None
  | String c r =>
      if isDigit c && (negb (code c =? 48)%N || isEmpty r) then
        match digitsValue k 0 with
        | Some n => if (n <? 4294967295)%N then Some n else None
        | None => None
        end
      else None
  end.

Definition isArrayIndex (k : string) : bool :=
  match arrayIndex k with Some _ => true | None => false end.

Fixpoint insertByIndex (e : N * (string * string))
  (l : list (N * (string * string))) : list (N * (string * string)) :=
  match l with
  | [] => [e]
  | h :: t => if (fst e <=? fst h)%N then e :: l else h :: insertByIndex e t
  end.

Fixpoint indexed (o : object) : list (N * (string * string)) :=
  match o with
  | [] => []
  | kv :: rest =>
      match arrayIndex (fst kv) with
      | Some n => insertByIndex (n, kv) (indexed rest)
      | None => indexed rest
      end
  end.

(** The properties in the order own keys are enumerated: array-index
    keys in ascending numeric order, then the other keys in creation
    order. *)
Definition ownEntries (o : object) : list (string * string) :=
  map snd (indexed o) ++ filter (fun kv => negb (isArrayIndex (fst kv))) o.

(** [Object.keys(o)] *)
Definition keys (o : object) : list string := map fst (ownEntries o).

End JsObject.

(** The fields of [CONFIG] the pipeline reads.  [FOLDER_MAPPING] holds
    the properties of the object literal as they are written. *)
Record Config := {
  DAYS_TO_FETCH : Z;
  DELETE_AFTER_TRANSFER : bool;
  FOLDER_MAPPING : list (string * string);
  DEFAULT_FOLDER_ID : string;
  TOPIC_PREFIX_TO_REMOVE : string
}.

(* ================================================================== *)
(** ** Folder routing: [getDestinationFolderId] *)
(* ================================================================== *)

Module FolderRouter.
Import JsObject.

(** The [for (const keyword of keywords)] loop; [entries] pairs each
    enumerated keyword with [CONFIG.FOLDER_MAPPING[keyword]]. *)
Fixpoint firstMatch (topicLower : string) (entries : list (string * string))
  (defaultId : string) : string :=
  match entries with
  | [] => defaultId
  | (keyword, folderId) :: rest =>
      if includes topicLower (toLowerCase keyword) then folderId
      else firstMatch topicLower rest defaultId
  end.

Definition getDestinationFolderId (cfg : Config) (meetingTopic : string)
  : string :=
  let entries := ownEntries (ofLiteral (FOLDER_MAPPING cfg)) in
  let topicLower := toLowerCase meetingTopic in
  firstMatch topicLower entries (DEFAULT_FOLDER_ID cfg).

(** *** The resolver as the specification words it *)

(** The keyword occurs in the topic as a case-insensitive substring. *)
Definition keywordOccurs (topic keyword : string) : bool :=
  includes (toLowerCase topic) (toLowerCase keyword).

(** The folder of the first configured pair, in configured order, whose
    keyword occurs in the topic; the default folder when none does. *)
Definition specResolve (pairs : list (string * string)) (defaultId : string)
  (topic : string) : string :=
  match find (fun kv => keywordOccurs topic (fst kv)) pairs with
  | Some kv => snd kv
  | None => defaultId
  end.

(** Configured keywords that an object keeps in the order written:
    pairwise distinct, none an array index, none the key that a
    literal does not define. *)
Fixpoint distinctKeys (pairs : list (string * string)) : bool :=
  match pairs with
  | [] => true
  | kv :: rest =>
      negb (existsb (fun kv' => String.eqb (fst kv) (fst kv')) rest)
      && distinctKeys rest
  end.

Definition plainKeywords (pairs : list (string * string)) : bool :=
  distinctKeys pairs
  && forallb (fun kv => negb (isArrayIndex (fst kv))) pairs
  && forallb definesProperty pairs.

End FolderRouter.

(* ================================================================== *)
(** ** Topic-prefix stripping ([processRecording],
       [processMeetingSummary]) *)
(* ================================================================== *)

Module TopicPrefix.

(** Pattern atoms: a character standing for itself, and the class [\s]. *)
Inductive atom :=
| Lit (c : ascii)
| Space.

Definition atomMatches (a : atom) (c : ascii) : bool :=
  match a with
  | Lit d => Ascii.eqb c d
  | Space => isWhitespace c
  end.

(** Match a sequence of atoms at the start of [s]; the result is what
    follows the match. *)
Fixpoint matchAtoms (p : list atom) (s : string) : option string :=
  match p with
  | [] => Some s
  | a :: p' =>
      match s with
      | EmptyString => None
      | String c r => if atomMatches a c then matchAtoms p' r else None
      end
  end.

Fixpoint lits (s : string) : list atom :=
  match s with
  | EmptyString => []
  | String c r => Lit c :: lits r
  end.

(** Characters with a meaning of their own in a pattern source. *)
Definition isPatternSyntax (c : ascii) : bool :=
  existsb (Ascii.eqb c)
    ["\"; "^"; "$"; "."; "*"; "+"; "?"; "("; ")"; "["; "]"; "{"; "}"; "|"]%char.

Fixpoint literalSource (s : string) : bool :=
  match s with
  | EmptyString => true
  | String c r => negb (isPatternSyntax c) && literalSource r
  end.

(** [new RegExp(`^${prefix}(\s\|\s|\s)`)], as its two alternatives in
    the order they are tried.  The source splices the prefix into the
    pattern text as it is; the embedding covers prefixes in which every
    character stands for itself ([literalSource]). *)
Definition prefixPattern (prefix : string) : list (list atom) :=
  [ lits prefix ++ [Space; Lit "|"; Space];
    lits prefix ++ [Space] ].

(** [topic.replace(pattern, "")] for a pattern anchored at the start:
    the first alternative that matches is removed. *)
Fixpoint replaceAnchored (alts : list (list atom)) (topic : string) : string :=
  match alts with
  | [] => topic
  | p :: rest =>
      match matchAtoms p topic with
      | Some after => after
      | None => replaceAnchored rest topic
      end
  end.

(** The [if (CONFIG.TOPIC_PREFIX_TO_REMOVE && meetingTopic.startsWith(...))]
    block. *)
Definition stripTopicPrefix (cfg : Config) (meetingTopic : string) : string :=
  let prefix := TOPIC_PREFIX_TO_REMOVE cfg in
  if truthy prefix && startsWith meetingTopic prefix
  then replaceAnchored (prefixPattern prefix) meetingTopic
  else meetingTopic.

(** *** The stripping as the specification words it: the prefix goes with its
    separator when followed by one space or by space, bar, space; any
    other topic is unchanged. *)
Definition specStrip (prefix topic : string) : string :=
  if truthy prefix && startsWith topic prefix then
    let rest := drop (String.length prefix) topic in
    if startsWith rest " | " then drop 3 rest
    else if startsWith rest " " then drop 1 rest
    else topic
  else topic.

End TopicPrefix.

(* ================================================================== *)
(** ** Dates *)
(* ================================================================== *)

Module JsDate.
Open Scope Z_scope.

(** Day number of a civil date of the proleptic Gregorian calendar,
    month from 1 to 12; day 0 is 1970-01-01. *)
Definition daysFromCivil (y m d : Z) : Z :=
  let y' := if m <=? 2 then y - 1 else y in
  let era := y' / 400 in
  let yoe := y' - era * 400 in
  let mp := if 2 <? m then m - 3 else m + 9 in
  let doy := (153 * mp + 2) / 5 + d - 1 in
  let doe := yoe * 365 + yoe / 4 - yoe / 100 + doy in
  era * 146097 + doe - 719468.

(** Year, month (1 to 12) and day of month of a day number. *)
Definition civilFromDays (z : Z) : Z * Z * Z :=
  let z' := z + 719468 in
  let era := z' / 146097 in
  let doe := z' - era * 146097 in
  let yoe := (doe - doe / 1460 + doe / 36524 - doe / 146096) / 365 in
  let doy := doe - (365 * yoe + yoe / 4 - yoe / 100) in
  let mp := (5 * doy + 2) / 153 in
  let d := doy - (153 * mp + 2) / 5 + 1 in
  let m := if mp <? 10 then mp + 3 else mp - 9 in
  let y := yoe + era * 400 in
  (if m <=? 2 then y + 1 else y, m, d).

(** [new Date(year, monthIndex, day)]: month index and day outside their
    ranges carry over; a year from 0 to 99 means 1900 + year. *)
Definition makeDate (year monthIndex day : Z) : Z :=
  let year := if (0 <=? year) && (year <=? 99) then 1900 + year else year in
  daysFromCivil (year + monthIndex / 12) (monthIndex mod 12 + 1) 1 + (day - 1).

Definition digit (n : Z) : ascii := ascii_of_N (48 + Z.to_N (n mod 10)).

Definition pad2 (n : Z) : string :=
  String (digit (n / 10)) (String (digit n) EmptyString).

Definition pad4 (n : Z) : string :=
  String (digit (n / 1000)) (String (digit (n / 100)) (pad2 n)).

(** [Utilities.formatDate(date, zone, "yyyy-MM-dd")] for a date whose
    day number in that zone is [day]; years 0 to 9999. *)
Definition formatIso (day : Z) : string :=
  let '(y, m, d) := civilFromDays day in
  (pad4 y ++ "-" ++ pad2 m ++ "-" ++ pad2 d)%string.

(** [Utilities.formatDate(date, zone, "MM-dd-yyyy")] *)
Definition formatUs (day : Z) : string :=
  let '(y, m, d) := civilFromDays day in
  (pad2 m ++ "-" ++ pad2 d ++ "-" ++ pad4 y)%string.

(** The value of a decimal numeral; other texts are not numbers in the
    embedding. *)
Definition numeral (s : string) : option Z :=
  if truthy s then
    match JsObject.digitsValue s 0 with
    | Some n => Some (Z.of_N n)
    | None => None
    end
  else None.

(** *** Texts read as numbers *)

(** The value of a digit or of a letter a-f, A-F. *)
Definition digitValue (c : ascii) : option Z :=
  let n := code c in
  if isDigit c then Some (Z.of_N (n - 48))
  else if ((97 <=? n) && (n <=? 102))%N then Some (Z.of_N (n - 87))
  else if ((65 <=? n) && (n <=? 70))%N then Some (Z.of_N (n - 55))
  else None.

Definition radixDigit (radix : Z) (c : ascii) : option Z :=
  match digitValue c with
  | Some v => if v <? radix then Some v else None
  | None => None
  end.

Definition startsWithDigit (radix : Z) (s : string) : bool :=
  match s with
  | EmptyString => false
  | String c _ =>
      match radixDigit radix c with Some _ => true | None => false end
  end.

(** The value of the longest prefix of digits, and what follows it. *)
Fixpoint digitsPrefix (radix : Z) (s : string) (acc : Z) : Z * string :=
  match s with
  | EmptyString => (acc, s)
  | String c r =>
      match radixDigit radix c with
      | Some v => digitsPrefix radix r (radix * acc + v)
      | None => (acc, s)
      end
  end.

(** A leading sign, and the text behind it. *)
Definition signed (s : string) : Z * string :=
  match s with
  | EmptyString => (1, s)
  | String c r =>
      if Ascii.eqb c "-" then (-1, r)
      else if Ascii.eqb c "+" then (1, r)
      else (1, s)
  end.

(** The radix a letter after a leading 0 selects: x for 16 and, where
    a text is coerced to a number, o for 8 and b for 2, in either
    case. *)
Definition radixOf (hexOnly : bool) (c : ascii) : option Z :=
  if Ascii.eqb c "x" || Ascii.eqb c "X" then Some 16
  else if hexOnly then None
  else if Ascii.eqb c "o" || Ascii.eqb c "O" then Some 8
  else if Ascii.eqb c "b" || Ascii.eqb c "B" then Some 2
  else None.

(** A radix prefix, and the text behind it. *)
Definition radixPrefix (hexOnly : bool) (s : string) : option (Z * string) :=
  match s with
  | String z (String c r) =>
      if Ascii.eqb z "0" then
        match radixOf hexOnly c with
        | Some radix => Some (radix, r)
        | None => None
        end
      else None
  | _ => None
  end.

(** [parseInt(s)]: leading white space is skipped, a sign is read, the
    prefix 0x or 0X selects radix 16, and the longest prefix of digits
    gives the value; [None] is NaN. *)
Definition parseInt (s : string) : option Z :=
  let '(sign, body) := signed (trimStart s) in
  let '(radix, body) :=
    match radixPrefix true body with
    | Some prefixed => prefixed
    | None => (10, body)
    end in
  if startsWithDigit radix body
  then Some (sign * fst (digitsPrefix radix body 0))
  else None.

(** A text that is digits of the radix throughout, and not empty. *)
Definition wholeDigits (radix : Z) (s : string) : option Z :=
  if startsWithDigit radix s then
    match digitsPrefix radix s 0 with
    | (n, EmptyString) => Some n
    | _ => None
    end
  else None.

(** The number a text is coerced to where a number is expected, for
    texts that denote an integer: white space around it is skipped,
    the empty text is 0, a numeral with prefix 0x, 0o or 0b (in either
    case) is read in its radix, and decimal digits may carry a sign.
    [None] is NaN.  Texts with a fraction or an exponent are not
    numbers in the embedding. *)
Definition toNumber (s : string) : option Z :=
  let t := trim s in
  if isEmpty t then Some 0
  else
    match radixPrefix false t with
    | Some (radix, body) => wholeDigits radix body
    | None =>
        let '(sign, body) := signed t in
        match wholeDigits 10 body with
        | Some n => Some (sign * n)
        | None => None
        end
    end.

End JsDate.

(* ================================================================== *)
(** ** Date windows: the chunk loop of [getZoomRecordingsForUser] and
       [getZoomSummariesForUser] *)
(* ================================================================== *)

Module Windowing.
Open Scope Z_scope.

Definition chunkSize : Z := 30.

(** [Math.ceil(CONFIG.DAYS_TO_FETCH / chunkSize)] for a whole number of
    days. *)
Definition numChunks (days : Z) : Z := - ((- days) / chunkSize).

(** The dates of iteration [i], as day numbers:
    [(chunkStartDate, chunkEndDate)].  The loop goes back days of the
    month on the script's clock and prints the dates in GMT; counted
    in days from the GMT day of the run, as here, these are the dates
    of a script whose time zone has a fixed offset from GMT
    ([ZonedWindowing] has them on any clock). *)
Definition chunk (today days i : Z) : Z * Z :=
  let fromDate := today - days in
  let chunkEndDate := today - i * chunkSize in
  let chunkStartDate := chunkEndDate - chunkSize in
  let chunkStartDate :=
    if chunkStartDate <? fromDate then fromDate else chunkStartDate in
  (chunkStartDate, chunkEndDate).

(** The values [i] takes in [for (let i = 0; i < numChunks; i++)]. *)
Definition iterations (days : Z) : list Z :=
  map Z.of_nat (seq 0 (Z.to_nat (numChunks days))).

(** The windows requested, in the order the loop requests them. *)
Definition windows (today days : Z) : list (Z * Z) :=
  map (chunk today days) (iterations days).

End Windowing.

(* ================================================================== *)
(** ** The tracking sheet: [isRecordingProcessed], [isSummaryProcessed],
       [logTransferToSheet] *)
(* ================================================================== *)

Module Ledger.
Import JsDate.

(** A value read from or written to a cell: a text, or a date given by
    its day number in the script time zone. *)
Inductive cell :=
| CStr (s : string)
| CDate (day : Z).

(** One row of [sheet.getDataRange().getValues()], columns A to F. *)
Record row := {
  topicCell : cell;
  dateCell : cell;
  filesCell : cell;
  locationCell : cell;
  transferCell : cell;
  hostCell : cell
}.

(** The rows of the data range; row 0 is the header. *)
Definition sheet := list row.

Definition headerRow : row :=
  {| topicCell := CStr "Meeting Topic"; dateCell := CStr "Meeting Date";
     filesCell := CStr "Files Transferred";
     locationCell := CStr "Location in Drive";
     transferCell := CStr "Transfer Date"; hostCell := CStr "Host Email" |}.

(** [value === text]: a date object is never strictly equal to a
    string. *)
Definition cellIs (value : cell) (text : string) : bool :=
  match value with
  | CStr s => String.eqb s text
  | CDate _ => false
  end.

(** The loop of [isRecordingProcessed] from a given row on. *)
Fixpoint scanRecording (meetingTopic meetingDate : string) (rows : list row)
  : bool :=
  match rows with
  | [] => false
  | r :: rest =>
      if cellIs (topicCell r) meetingTopic && cellIs (dateCell r) meetingDate
      then true
      else scanRecording meetingTopic meetingDate rest
  end.

(** The loop starts at [i = 1], after the header row. *)
Definition isRecordingProcessed (meetingTopic meetingDate : string)
  (sh : sheet) : bool :=
  scanRecording meetingTopic meetingDate (tl sh).

(** [if (date instanceof Date) date = Utilities.formatDate(date, ...,
    "yyyy-MM-dd")] *)
Definition normalizedDate (date : cell) : cell :=
  match date with
  | CDate day => CStr (formatIso day)
  | CStr _ => date
  end.

Definition summaryMarker : string := "AI Summary".

Fixpoint scanSummary (meetingTopic meetingDate : string) (rows : list row)
  : bool :=
  match rows with
  | [] => false
  | r :: rest =>
      let topic := topicCell r in
      let date := normalizedDate (dateCell r) in
      let filesTransferred := filesCell r in
      if cellIs topic meetingTopic && cellIs date meetingDate then
        if cellIs filesTransferred summaryMarker then true
        else scanSummary meetingTopic meetingDate rest
      else scanSummary meetingTopic meetingDate rest
  end.

Definition isSummaryProcessed (meetingTopic meetingDate : string)
  (sh : sheet) : bool :=
  scanSummary meetingTopic meetingDate (tl sh).

(** The file-type labels [logTransferToSheet] derives from the list of
    transferred files, joined by a comma and a space. *)
Definition fileTypesList (filesTransferred : string) : string :=
  let label (present : bool) (name : string) : list string :=
    if present then [name] else [] in
  join ", "
    (label (includes filesTransferred ".mp4") "Video"
     ++ label (includes filesTransferred ".m4a") "Audio"
     ++ label (includes filesTransferred "chat.txt"
               || includes filesTransferred "Chat.txt") "Chat"
     ++ label (includes filesTransferred "transcript.txt") "Transcript"
     ++ label (includes filesTransferred "AI Summary") "AI Summary").

(** The meeting date as written to column B: a date of three
    dash-separated parts is rebuilt as a date object and rendered
    "MM-dd-yyyy"; "Unknown Date", the empty text and any other shape
    are written as they are.  The year and the day are coerced to
    numbers, the month is read by [parseInt].  A part that is no number
    gives no valid date; the embedding then keeps the text, as the
    [catch] branch does. *)
Definition formattedMeetingDate (meetingDate : string) : string :=
  if truthy meetingDate && negb (String.eqb meetingDate "Unknown Date") then
    match split "-" meetingDate with
    | [y; m; d] =>
        match toNumber y, parseInt m, toNumber d with
        | Some yv, Some mv, Some dv => formatUs (makeDate yv (mv - 1) dv)
        | _, _, _ => meetingDate
        end
    | _ => meetingDate
    end
  else meetingDate.

(** [rowData] of [logTransferToSheet]. *)
Definition rowData (meetingTopic meetingDate filesTransferred folderName : string)
  (transferDate : Z) (hostEmail : string) : row :=
  {| topicCell := CStr meetingTopic;
     dateCell := CStr (formattedMeetingDate meetingDate);
     filesCell := CStr (fileTypesList filesTransferred);
     locationCell := CStr folderName;
     transferCell := CDate transferDate;
     hostCell := CStr hostEmail |}.

(** What a cell holds after a value is written to it.  The spreadsheet
    interprets a text on entry ([parseOnWrite]): it may keep it or turn
    it into a date.  A date object stays a date. *)
Definition stored (parseOnWrite : string -> cell) (value : cell) : cell :=
  match value with
  | CStr s => parseOnWrite s
  | CDate _ => value
  end.

Definition storedRow (parseOnWrite : string -> cell) (r : row) : row :=
  {| topicCell := stored parseOnWrite (topicCell r);
     dateCell := stored parseOnWrite (dateCell r);
     filesCell := stored parseOnWrite (filesCell r);
     locationCell := stored parseOnWrite (locationCell r);
     transferCell := stored parseOnWrite (transferCell r);
     hostCell := stored parseOnWrite (hostCell r) |}.

(** The sheet after [setValues([rowData])] at row [getLastRow() + 1]. *)
Definition appendRow (parseOnWrite : string -> cell) (sh : sheet) (r : row)
  : sheet :=
  sh ++ [storedRow parseOnWrite r].

(** [logTransferToSheet]: the sheet after the row is written.
    [folderName] is the name of the folder whose id the source passes;
    the rich-text link set on column D afterwards leaves the values
    unchanged. *)
Definition logTransferToSheet (parseOnWrite : string -> cell) (sh : sheet)
  (meetingId meetingTopic meetingDate filesTransferred folderName : string)
  (transferDate : Z) (hostEmail : string) : sheet :=
  appendRow parseOnWrite sh
    (rowData meetingTopic meetingDate filesTransferred folderName
             transferDate hostEmail).

(** *** The lookup as the specification words it *)

Inductive kind := RecordingKind | SummaryKind.

Definition kind_eqb (a b : kind) : bool :=
  match a, b with
  | RecordingKind, RecordingKind | SummaryKind, SummaryKind => true
  | _, _ => false
  end.

(** A row belongs to the summary kind when its file-types cell is the
    summary marker, to the recording kind otherwise. *)
Definition rowKind (r : row) : kind :=
  if cellIs (filesCell r) summaryMarker then SummaryKind else RecordingKind.

(** The row records the pair (topic, date), its date cell read in the
    common "yyyy-MM-dd" representation: a structured date is rendered
    in it, a text is taken to be in it already. *)
Definition rowMatches (meetingTopic meetingDate : string) (r : row) : bool :=
  cellIs (topicCell r) meetingTopic
  && cellIs (normalizedDate (dateCell r)) meetingDate.

(** [isProcessed(topic, date, kind)]: some data row of that kind
    records the pair. *)
Definition specIsProcessed (k : kind) (meetingTopic meetingDate : string)
  (sh : sheet) : bool :=
  existsb (fun r => rowMatches meetingTopic meetingDate r
                    && kind_eqb (rowKind r) k) (tl sh).

(** The lookup the code runs for a kind. *)
Definition isProcessed (k : kind) (meetingTopic meetingDate : string)
  (sh : sheet) : bool :=
  match k with
  | RecordingKind => isRecordingProcessed meetingTopic meetingDate sh
  | SummaryKind => isSummaryProcessed meetingTopic meetingDate sh
  end.

(** Every date cell of the data rows holds a text. *)
Definition textDates (sh : sheet) : bool :=
  forallb (fun r => match dateCell r with CStr _ => true | CDate _ => false end)
          (tl sh).

End Ledger.

(* ================================================================== *)
(** ** The per-recording orchestrator: [processRecording] *)
(* ================================================================== *)

Module Orchestrator.
Import Ledger.

(** Outcome of [UrlFetchApp.fetch] with [muteHttpExceptions]: a
    response with its status code and text, or an exception (the
    request itself failed). *)
Inductive httpResult :=
| Response (code : Z) (body : string)
| FetchThrows.

(** The services the orchestrator calls. *)
Record Env := {
  (** GET of a download URL *)
  httpGet : string -> httpResult;
  (** DELETE of a recording URL *)
  httpDelete : string -> httpResult;
  (** [DriveApp.getFolderById(parentId)] then find-or-create of the
      named folder: the folder's id, [None] when the parent cannot be
      opened *)
  ensureFolder : string -> string -> option string;
  (** [folder.createFile] of a named file in a folder: the file's id,
      [None] when Drive throws *)
  createFile : string -> string -> option string;
  (** how the spreadsheet interprets a text written into a cell *)
  parseOnWrite : string -> cell;
  (** [new Date()] as a day number *)
  today : Z
}.

Record RecordingFile := {
  file_type : option string;
  file_extension : option string;
  download_url : option string
}.

Record Recording := {
  uuid : string;
  topic : option string;
  start_time : option string;
  host_email : option string;
  recording_files : option (list RecordingFile)
}.

(** Calls on external services, in the order they are issued: a folder
    found or created, a file created, the deletion request for a
    recording, a row appended to the tracking sheet, an error written
    by [trackError]. *)
Inductive event :=
| EnsureFolder (name parentId : string)
| CreateFile (name folderId : string)
| DeleteRecording (meetingId : string)
| AppendRow (values : row)
| TrackError (message : string).

(** [value || fallback] on a possibly missing text. *)
Definition orElse (value : option string) (fallback : string) : string :=
  match value with
  | Some s => if truthy s then s else fallback
  | None => fallback
  end.

(** A possibly missing text inside a template literal. *)
Definition shown (value : option string) : string :=
  match value with
  | Some s => s
  | None => "undefined"
  end.

(** [s.replace(pat, rep)] for a text pattern: the first occurrence. *)
Fixpoint replaceFirst (s pat rep : string) : string :=
  if String.prefix pat s then (rep ++ drop (String.length pat) s)%string
  else match s with
       | EmptyString => EmptyString
       | String c r => String c (replaceFirst r pat rep)
       end.

(** [createDriveFolder]: [None] when it throws. *)
Definition createDriveFolder (env : Env) (folderName parentFolderId : string)
  : option string :=
  if truthy parentFolderId then ensureFolder env folderName parentFolderId
  else None.

(** A text between double quotes. *)
Definition quoted (s : string) : string :=
  String "034" (s ++ String "034" EmptyString).

(** The message of the error [createDriveFolder] throws: the parent id
    is missing, or the parent cannot be opened. *)
Definition createDriveFolderError (folderName parentFolderId : string)
  : string :=
  if truthy parentFolderId
  then ("createDriveFolder: unable to open parentFolderId "
        ++ quoted parentFolderId)%string
  else ("createDriveFolder: missing parentFolderId for "
        ++ quoted folderName)%string.

Definition optionEqb (value : option string) (text : string) : bool :=
  match value with
  | Some s => String.eqb s text
  | None => false
  end.

(** The name given to a recording file. *)
Definition fileNameOf (meetingDate meetingTopic : string)
  (fileType fileExtension : option string) : string :=
  let base := (meetingDate ++ "_" ++ meetingTopic)%string in
  if optionEqb fileExtension "mp4" then
    (base ++ "_video." ++ shown fileExtension)%string
  else if optionEqb fileExtension "m4a" then
    (base ++ "_audio." ++ shown fileExtension)%string
  else if optionEqb fileType "transcript" then
    (base ++ "_transcript." ++ shown fileExtension)%string
  else (base ++ "_" ++ shown fileType ++ "." ++ shown fileExtension)%string.

(** The body of the [try] for one file with a download URL: the entry
    pushed on [filesTransferred] with the name of the file created, or
    [None] when nothing is pushed (a response other than 200, or an
    exception caught by the per-file [catch]). *)
Definition transferFile (env : Env) (authDownloadUrl fileName folderId : string)
  (fileExtension : option string) : option (string * string) :=
  if optionEqb fileExtension "vtt" || optionEqb fileExtension "VTT" then
    match httpGet env authDownloadUrl with
    | Response code vttContent =>
        if (code =? 200)%Z then
          let textFileName :=
            replaceFirst (replaceFirst fileName ".vtt" ".txt") ".VTT" ".txt" in
          match createFile env textFileName folderId with
          | Some fileId =>
              Some ((textFileName ++ " (" ++ fileId ++ ")")%string,
                    textFileName)
          | None => None
          end
        else None
    | FetchThrows => None
    end
  else
    match fileExtension with
    | None => None (* getMimeType(undefined) throws *)
    | Some _ =>
        match httpGet env authDownloadUrl with
        | Response code _ =>
            if (code =? 200)%Z then
              match createFile env fileName folderId with
              | Some fileId =>
                  Some ((fileName ++ " (" ++ fileId ++ ")")%string, fileName)
              | None => None
              end
            else None
        | FetchThrows => None
        end
    end.

(** The [for (const file of recording.recording_files)] loop:
    [filesTransferred] and the files created, in order. *)
Fixpoint transferFiles (env : Env)
  (accessToken meetingDate meetingTopic folderId : string)
  (files : list RecordingFile) : list string * list event :=
  match files with
  | [] => ([], [])
  | file :: rest =>
      let fileType := option_map toLowerCase (file_type file) in
      let fileExtension := option_map toLowerCase (file_extension file) in
      let others :=
        transferFiles env accessToken meetingDate meetingTopic folderId rest in
      if optionEqb fileExtension "json" then others
      else
        let fileName :=
          fileNameOf meetingDate meetingTopic fileType fileExtension in
        match download_url file with
        | Some downloadUrl =>
            if truthy downloadUrl then
              let authDownloadUrl :=
                (downloadUrl ++ (if includes downloadUrl "?" then "&" else "?")
                 ++ "access_token=" ++ accessToken)%string in
              match transferFile env authDownloadUrl fileName folderId
                      fileExtension with
              | Some (pushed, created) =>
                  (pushed :: fst others,
                   CreateFile created folderId :: snd others)
              | None => others
              end
            else others
        | None => others
        end
  end.

(** [deleteZoomRecording]: the request is issued whatever its outcome. *)
Definition deleteZoomRecording (env : Env) (meetingId : string) : bool :=
  match httpDelete env
          ("https://api.zoom.us/v2/meetings/" ++ meetingId ++ "/recordings")
  with
  | Response code _ => (code =? 200)%Z || (code =? 204)%Z
  | FetchThrows => false
  end.

Definition meetingTopicOf (cfg : Config) (recording : Recording) : string :=
  TopicPrefix.stripTopicPrefix cfg (orElse (topic recording) "Unnamed Meeting").

(** [recording.start_time ? recording.start_time.split("T")[0]
     : "Unknown Date"] *)
Definition meetingDateOf (recording : Recording) : string :=
  match start_time recording with
  | Some t => if truthy t then hd EmptyString (split "T" t) else "Unknown Date"
  | None => "Unknown Date"
  end.

(** [filesTransferred] of a recording that is processed into the folder
    [folderId]. *)
Definition filesTransferredOf (cfg : Config) (env : Env) (accessToken : string)
  (recording : Recording) (folderId : string) : list string * list event :=
  match recording_files recording with
  | Some files =>
      transferFiles env accessToken (meetingDateOf recording)
        (meetingTopicOf cfg recording) folderId files
  | None => ([], [])
  end.

(** [processRecording]: the sheet afterwards and the calls issued.
    [logTransferToSheet] opens the folder just obtained by its id; the
    embedding takes that and the sheet writes to succeed. *)
Definition processRecording (cfg : Config) (env : Env) (accessToken : string)
  (recording : Recording) (trackingSheet : sheet) : sheet * list event :=
  let meetingId := uuid recording in
  let meetingTopic := meetingTopicOf cfg recording in
  let meetingDate := meetingDateOf recording in
  let hostEmail := orElse (host_email recording) "Unknown Host" in
  if isRecordingProcessed meetingTopic meetingDate trackingSheet then
    (trackingSheet, [])
  else
    let folderName := (meetingDate ++ "_" ++ meetingTopic)%string in
    let destinationFolderId :=
      FolderRouter.getDestinationFolderId cfg meetingTopic in
    match createDriveFolder env folderName destinationFolderId with
    | None =>
        (trackingSheet,
         [TrackError (createDriveFolderError folderName destinationFolderId)])
    | Some folderId =>
        let '(filesTransferred, uploads) :=
          filesTransferredOf cfg env accessToken recording folderId in
        let deletion :=
          if DELETE_AFTER_TRANSFER cfg
             && negb (Nat.eqb (List.length filesTransferred) 0)
          then (let _ := deleteZoomRecording env meetingId in
                [DeleteRecording meetingId])
          else [] in
        let values :=
          rowData meetingTopic meetingDate (join ", " filesTransferred)
                  folderName (today env) hostEmail in
        (logTransferToSheet (parseOnWrite env) trackingSheet meetingId
           meetingTopic meetingDate (join ", " filesTransferred) folderName
           (today env) hostEmail,
         EnsureFolder folderName destinationFolderId :: uploads
           ++ deletion ++ [AppendRow values])
    end.

End Orchestrator.

(* ================================================================== *)
(** ** Windowed, paginated fetch: [fetchRecordingsForDateRange],
       [fetchSummariesForDateRange], [getZoomRecordingsForUser],
       [getZoomSummariesForUser] *)
(* ================================================================== *)

Module Fetch.
Import JsDate Windowing Orchestrator.

(** A GET request: its URL and the bearer token of its
    [Authorization] header. *)
Record request := {
  url : string;
  bearer : string
}.

Record Summary := {
  meeting_uuid : string;
  meeting_topic : option string;
  meeting_host_email : option string;
  summary_created_time : option string
}.

Record User := {
  id : string;
  email : string
}.

(** The text of a response as [JSON.parse] reads it.  A missing field
    is [None]; [Unparsable] makes [JSON.parse] throw. *)
Inductive content :=
| RecordingsPage (meetings : option (list Recording)) (page_count : option Z)
| SummariesPage (summaries : option (list Summary))
                (next_page_token : option string)
| UserInfo (userEmail : option string)
| Unparsable.

(** Outcome of [UrlFetchApp.fetch(url, options)] with
    [muteHttpExceptions: true]: any HTTP response is returned; a
    request that fails (address unavailable, timeout) throws. *)
Inductive reply :=
| Reply (code : Z) (text : content)
| RequestFails.

(** The platform, answering each request. *)
Definition server := request -> reply.

(** How a call ends: it returns, it throws, or the pagination budget of
    the embedding is used up before the loop ends. *)
Inductive outcome (A : Type) :=
| Returned (value : A)
| Thrown
| OutOfFuel.
Arguments Returned {A} value.
Arguments Thrown {A}.
Arguments OutOfFuel {A}.

Definition showZ (n : Z) : string :=
  DecimalString.NilZero.string_of_int (Z.to_int n).

Definition hexDigit (n : N) : ascii :=
  if (n <? 10)%N then ascii_of_N (48 + n) else ascii_of_N (55 + n).

Definition percentByte (n : N) : string :=
  String "%" (String (hexDigit (n / 16)) (String (hexDigit (n mod 16))
    EmptyString)).

(** Characters [encodeURIComponent] leaves as they are. *)
Definition isUnreserved (c : ascii) : bool :=
  let n := code c in
  ((48 <=? n) && (n <=? 57) || (65 <=? n) && (n <=? 90)
   || (97 <=? n) && (n <=? 122))%N
  || existsb (Ascii.eqb c) ["-"; "_"; "."; "!"; "~"; "*"; "'"; "("; ")"]%char.

(** [encodeURIComponent(s)]: other code units are percent-encoded in
    UTF-8. *)
Fixpoint encodeURIComponent (s : string) : string :=
  match s with
  | EmptyString => EmptyString
  | String c r =>
      let n := code c in
      ((if isUnreserved c then String c EmptyString
        else if (n <? 128)%N then percentByte n
        else percentByte (192 + n / 64) ++ percentByte (128 + n mod 64))
       ++ encodeURIComponent r)%string
  end.

(** [getUserEmailById]: the e-mail and the request sent. *)
Definition getUserEmailById (srv : server) (userId accessToken : string)
  : string * request :=
  let req := {| url := ("https://api.zoom.us/v2/users/" ++ userId)%string;
                bearer := accessToken |} in
  (match srv req with
   | Reply code text =>
       if (code =? 200)%Z then
         match text with
         | UserInfo userEmail => orElse userEmail "Unknown Email"
         | Unparsable => "Unknown Email"
         | _ => "Unknown Email"
         end
       else "Unknown Email"
   | RequestFails => "Unknown Email"
   end, req).

(** The [forEach] that fills a missing [host_email]. *)
Fixpoint withHostEmails (srv : server) (userId accessToken : string)
  (meetings : list Recording) : list Recording * list request :=
  match meetings with
  | [] => ([], [])
  | meeting :: rest =>
      let '(rest', reqs) := withHostEmails srv userId accessToken rest in
      match host_email meeting with
      | Some e =>
          if truthy e then (meeting :: rest', reqs)
          else
            let '(found, req) := getUserEmailById srv userId accessToken in
            ({| uuid := uuid meeting; topic := topic meeting;
                start_time := start_time meeting; host_email := Some found;
                recording_files := recording_files meeting |} :: rest',
             req :: reqs)
      | None =>
          let '(found, req) := getUserEmailById srv userId accessToken in
          ({| uuid := uuid meeting; topic := topic meeting;
              start_time := start_time meeting; host_email := Some found;
              recording_files := recording_files meeting |} :: rest',
           req :: reqs)
      end
  end.

(** [responseData.page_count > page]; a missing count compares false. *)
Definition morePages (page_count : option Z) (page : Z) : bool :=
  match page_count with
  | Some n => (page <? n)%Z
  | None => false
  end.

(** The [while (hasMorePages)] loop of [fetchRecordingsForDateRange],
    entered with the current [page] and [recordings].  The fetch and
    [JSON.parse] are not inside any [try]: their exceptions leave the
    function.  Result and requests sent, in order. *)
Fixpoint recordingsLoop (fuel : nat) (srv : server)
  (accessToken userId fromDate toDate : string) (page : Z)
  (recordings : list Recording) : outcome (list Recording) * list request :=
  match fuel with
  | O => (OutOfFuel, [])
  | S fuel' =>
      let req :=
        {| url := ("https://api.zoom.us/v2/users/" ++ userId ++ "/recordings"
                   ++ "?from=" ++ fromDate ++ "&to=" ++ toDate
                   ++ "&page_size=100&page_number=" ++ showZ page)%string;
           bearer := accessToken |} in
      match srv req with
      | RequestFails => (Thrown, [req])
      | Reply code text =>
          if (code =? 200)%Z then
            match text with
            | Unparsable => (Thrown, [req])
            | RecordingsPage meetings page_count =>
                let '(added, emailReqs) :=
                  match meetings with
                  | Some (m :: ms) =>
                      withHostEmails srv userId accessToken (m :: ms)
                  | _ => ([], [])
                  end in
                let recordings' := recordings ++ added in
                if morePages page_count page then
                  let '(res, reqs) :=
                    recordingsLoop fuel' srv accessToken userId fromDate
                      toDate (page + 1) recordings' in
                  (res, req :: emailReqs ++ reqs)
                else (Returned recordings', req :: emailReqs)
            | _ => (Returned recordings, [req])
            end
          else (Returned recordings, [req])
      end
  end.

Definition fetchRecordingsForDateRange (fuel : nat) (srv : server)
  (accessToken userId fromDate toDate : string)
  : outcome (list Recording) * list request :=
  recordingsLoop fuel srv accessToken userId fromDate toDate 1 [].

(** The [while (hasMorePages)] loop of [fetchSummariesForDateRange],
    entered with the current [nextPageToken] and [summaries].  The
    whole request is inside a [try] whose [catch] ends the loop. *)
Fixpoint summariesLoop (fuel : nat) (srv : server)
  (accessToken fromDate toDate : string) (nextPageToken : string)
  (summaries : list Summary) : outcome (list Summary) * list request :=
  match fuel with
  | O => (OutOfFuel, [])
  | S fuel' =>
      let base :=
        ("https://api.zoom.us/v2/meetings/meeting_summaries"
         ++ "?from=" ++ encodeURIComponent fromDate
         ++ "&to=" ++ encodeURIComponent toDate ++ "&page_size=100")%string in
      let req :=
        {| url := if truthy nextPageToken
                  then (base ++ "&next_page_token=" ++ nextPageToken)%string
                  else base;
           bearer := accessToken |} in
      match srv req with
      | RequestFails => (Returned summaries, [req])
      | Reply code text =>
          if (code =? 200)%Z then
            match text with
            | Unparsable => (Returned summaries, [req])
            | SummariesPage found token =>
                let summaries' :=
                  match found with
                  | Some (s :: ss) => summaries ++ s :: ss
                  | _ => summaries
                  end in
                match token with
                | Some t =>
                    if truthy t then
                      let '(res, reqs) :=
                        summariesLoop fuel' srv accessToken fromDate toDate t
                          summaries' in
                      (res, req :: reqs)
                    else (Returned summaries', [req])
                | None => (Returned summaries', [req])
                end
            | _ => (Returned summaries, [req])
            end
          else (Returned summaries, [req])
      end
  end.

Definition fetchSummariesForDateRange (fuel : nat) (srv : server)
  (accessToken fromDate toDate : string)
  : outcome (list Summary) * list request :=
  summariesLoop fuel srv accessToken fromDate toDate EmptyString [].

(** What a per-member fetch leaves behind: its result, the requests it
    sent and the lines it logged that name the member. *)
Record run (A : Type) := {
  result : outcome A;
  sent : list request;
  logged : list string
}.
Arguments result {A} r.
Arguments sent {A} r.
Arguments logged {A} r.

(** The [for] loop over the chunks, entered with the windows still to
    fetch, the iteration number and the items gathered so far. *)
Fixpoint chunkLoop {A : Type}
  (fetch : string -> string -> outcome (list A) * list request)
  (startText endText : Z -> string) (userId : string) (numChunksText : string)
  (ws : list (Z * Z)) (i : Z) (all : list A)
  : outcome (list A) * list request * list string :=
  match ws with
  | [] => (Returned all, [], [])
  | (chunkStartDate, chunkEndDate) :: rest =>
      let chunkStartStr := startText chunkStartDate in
      let chunkEndStr := endText chunkEndDate in
      let line :=
        ("Fetching chunk " ++ showZ (i + 1) ++ "/" ++ numChunksText
         ++ " for user " ++ userId ++ ": " ++ chunkStartStr ++ " to "
         ++ chunkEndStr)%string in
      match fetch chunkStartStr chunkEndStr with
      | (Returned chunkItems, reqs) =>
          let '(res, reqs', lines) :=
            chunkLoop fetch startText endText userId numChunksText rest
              (i + 1) (all ++ chunkItems) in
          (res, reqs ++ reqs', line :: lines)
      | (Thrown, reqs) => (Thrown, reqs, [line])
      | (OutOfFuel, reqs) => (OutOfFuel, reqs, [line])
      end
  end.

Definition fetchingLine (what userId : string) (today days : Z) : string :=
  ("Fetching " ++ what ++ " for user " ++ userId ++ " from "
   ++ formatIso (today - days) ++ " to " ++ formatIso today ++ " ("
   ++ showZ days ++ " days)")%string.

Definition totalLine {A : Type} (userId : string) (all : list A) : string :=
  ("Total recordings found for user " ++ userId ++ ": "
   ++ showZ (Z.of_nat (List.length all)))%string.

(** The [try] of a per-member fetch and its [catch], which returns the
    empty list. *)
Definition perMember {A : Type}
  (fetch : string -> string -> outcome (list A) * list request)
  (startText endText : Z -> string) (what userId : string) (cfg : Config)
  (today : Z) : run (list A) :=
  let days := DAYS_TO_FETCH cfg in
  let first := fetchingLine what userId today days in
  let '(res, reqs, lines) :=
    chunkLoop fetch startText endText userId (showZ (numChunks days))
      (windows today days) 0 [] in
  match res with
  | Returned all =>
      {| result := Returned all; sent := reqs;
         logged := first :: lines ++ [totalLine userId all] |}
  | Thrown =>
      {| result := Returned []; sent := reqs; logged := first :: lines |}
  | OutOfFuel =>
      {| result := OutOfFuel; sent := reqs; logged := first :: lines |}
  end.

(** [getZoomRecordingsForUser(accessToken, userId)], run on the day
    [today] (GMT). *)
Definition getZoomRecordingsForUser (fuel : nat) (cfg : Config) (srv : server)
  (today : Z) (accessToken userId : string) : run (list Recording) :=
  perMember (fetchRecordingsForDateRange fuel srv accessToken userId)
    formatIso formatIso "recordings" userId cfg today.

(** [getZoomSummariesForUser(accessToken, userId)] *)
Definition getZoomSummariesForUser (fuel : nat) (cfg : Config) (srv : server)
  (today : Z) (accessToken userId : string) : run (list Summary) :=
  perMember (fetchSummariesForDateRange fuel srv accessToken)
    (fun d => (formatIso d ++ "T00:00:00Z")%string)
    (fun d => (formatIso d ++ "T23:59:59Z")%string)
    "summaries" userId cfg today.

(** The second loop of [runZoomToDriveConnector]: the summaries handed
    to [processMeetingSummary], member after member. *)
Fixpoint summariesPresented (fuel : nat) (cfg : Config) (srv : server)
  (today : Z) (accessToken : string) (users : list User)
  : outcome (list Summary) :=
  match users with
  | [] => Returned []
  | user :: rest =>
      match result (getZoomSummariesForUser fuel cfg srv today accessToken
                      (id user)) with
      | Returned found =>
          match summariesPresented fuel cfg srv today accessToken rest with
          | Returned others => Returned (found ++ others)
          | Thrown => Thrown
          | OutOfFuel => OutOfFuel
          end
      | Thrown => Thrown
      | OutOfFuel => OutOfFuel
      end
  end.

End Fetch.

(* ================================================================== *)
(** ** Meeting summaries: [getMeetingSummaryDetail],
       [processMeetingSummary] *)
(* ================================================================== *)

Module Summaries.
Import Ledger Orchestrator Fetch.

(** One element of [summary_details]. *)
Record detailSection := {
  label : option string;
  summary : option string
}.

(** The field [summary_details] as the script tests it. *)
Inductive details :=
| NoDetails                               (** missing, [null], or falsy *)
| NotAnArray                              (** truthy, but no array *)
| Sections (sections : list detailSection).

(** [summary_details] is truthy. *)
Definition truthyDetails (d : details) : bool :=
  match d with
  | NoDetails => false
  | _ => true
  end.

(** The fields of the detail response the script uses. *)
Record summaryBody := {
  summary_overview : option string;
  summary_details : details
}.

(** Outcome of the detail request with [muteHttpExceptions]: a response
    with its status code and its text as [JSON.parse] reads it ([None]
    when the text does not parse to an object), or a failed request. *)
Inductive detailReply :=
| DetailReply (code : Z) (parsed : option summaryBody)
| DetailFails.

Definition detailServer := request -> detailReply.

(** What [getMeetingSummaryDetail] returns when it does not return
    [null]. *)
Record summaryData := {
  overviewSummary : option string;
  detailedSummary : details
}.

(** [getMeetingSummaryDetail(meetingId, accessToken)]: the result
    ([None] is [null]) and the request sent.  Everything is inside one
    [try]. *)
Definition getMeetingSummaryDetail (dsrv : detailServer)
  (meetingId accessToken : string) : option summaryData * request :=
  let req :=
    {| url := ("https://api.zoom.us/v2/meetings/" ++ meetingId
               ++ "/meeting_summary")%string;
       bearer := accessToken |} in
  (match dsrv req with
   | DetailReply code parsed =>
       if (code =? 200)%Z then
         match parsed with
         | Some data =>
             Some {| overviewSummary := summary_overview data;
                     detailedSummary := summary_details data |}
         | None => None
         end
       else None
   | DetailFails => None
   end, req).

Definition newlineText : string := String "010" EmptyString.

(** One step of the [forEach] over the sections: the two lines
    appended to [summaryContent].  [section.label.toUpperCase()]
    throws on a missing label: [None]. *)
Definition appendSection (toUpperCase : string -> string)
  (content : option string) (section : detailSection) : option string :=
  match content, label section with
  | Some text, Some l =>
      Some (text ++ "-- " ++ toUpperCase l ++ " --" ++ newlineText
            ++ shown (summary section) ++ newlineText ++ newlineText)%string
  | _, _ => None
  end.

Definition disclaimer : string :=
  ("=== DISCLAIMER ===" ++ newlineText
   ++ "AI-generated content may be inaccurate or misleading. Always check for accuracy."
   ++ newlineText)%string.

(** [summaryContent] as the script builds it, [None] when a section
    makes it throw.  [toUpperCase] is the string method of that
    name. *)
Definition summaryContent (toUpperCase : string -> string)
  (meetingTopic meetingDate : string) (data : summaryData) : option string :=
  let content :=
    ("#####  *AI Generated* Meeting Summary for " ++ meetingTopic
     ++ "  #####" ++ newlineText)%string in
  let content := (content ++ meetingDate ++ newlineText ++ newlineText)%string in
  let content :=
    match overviewSummary data with
    | Some overview =>
        if truthy overview
        then (content ++ "== SUMMARY OVERVIEW ==" ++ newlineText ++ overview
              ++ newlineText ++ newlineText)%string
        else content
    | None => content
    end in
  let content :=
    (content ++ "== FULL SUMMARY ==" ++ newlineText ++ newlineText)%string in
  let content :=
    match detailedSummary data with
    | Sections sections =>
        fold_left (appendSection toUpperCase) sections (Some content)
    | _ => Some content
    end in
  match content with
  | Some text => Some (text ++ disclaimer)%string
  | None => None
  end.

Definition summaryTopicOf (cfg : Config) (meeting : Summary) : string :=
  TopicPrefix.stripTopicPrefix cfg
    (orElse (meeting_topic meeting) "Unnamed Meeting").

(** [meeting.summary_created_time ? ....split("T")[0] : "Unknown Date"] *)
Definition summaryDateOf (meeting : Summary) : string :=
  match summary_created_time meeting with
  | Some t => if truthy t then hd EmptyString (split "T" t) else "Unknown Date"
  | None => "Unknown Date"
  end.

(** What one call of [processMeetingSummary] leaves behind. *)
Record summaryRun := {
  sheetAfter : sheet;
  calls : list event;
  detailRequests : list request;
  fileWritten : option (string * string)   (** name and content *)
}.

Definition untouched (sh : sheet) (reqs : list request) (evs : list event)
  : summaryRun :=
  {| sheetAfter := sh; calls := evs; detailRequests := reqs;
     fileWritten := None |}.

(** [processMeetingSummary(meeting, accessToken, trackingSheet)].  The
    lookup of the destination folder, first by name and then through
    [createDriveFolder], comes to one find-or-create; as in
    [processRecording], [logTransferToSheet] is taken to succeed.  The
    error of a section without label is the runtime's and that of a
    failed file creation is Drive's: their messages are not in the
    source, and the recorded error names the step that failed. *)
Definition processMeetingSummary (toUpperCase : string -> string)
  (cfg : Config) (env : Env) (dsrv : detailServer) (accessToken : string)
  (meeting : Summary) (trackingSheet : sheet) : summaryRun :=
  let meetingId := meeting_uuid meeting in
  let meetingTopic := summaryTopicOf cfg meeting in
  let meetingDate := summaryDateOf meeting in
  let hostEmail := orElse (meeting_host_email meeting) "Unknown Host" in
  if isSummaryProcessed meetingTopic meetingDate trackingSheet then
    untouched trackingSheet [] []
  else
    let '(found, req) := getMeetingSummaryDetail dsrv meetingId accessToken in
    match found with
    | None => untouched trackingSheet [req] []
    | Some data =>
        if negb (truthyDetails (detailedSummary data)) then
          untouched trackingSheet [req] []
        else
            let folderName := (meetingDate ++ "_" ++ meetingTopic)%string in
            let destinationFolderId :=
              FolderRouter.getDestinationFolderId cfg meetingTopic in
            match createDriveFolder env folderName destinationFolderId with
            | None =>
                untouched trackingSheet [req]
                  [TrackError
                     (createDriveFolderError folderName destinationFolderId)]
            | Some folderId =>
                let summaryFileName :=
                  (meetingDate ++ "_" ++ meetingTopic ++ "_aiSummary.txt")%string
                in
                let ensured := EnsureFolder folderName destinationFolderId in
                match summaryContent toUpperCase meetingTopic meetingDate data
                with
                | None =>
                    untouched trackingSheet [req]
                      [ensured; TrackError "section without label"]
                | Some content =>
                    match createFile env summaryFileName folderId with
                    | None =>
                        untouched trackingSheet [req]
                          [ensured;
                           TrackError ("createFile: " ++ summaryFileName)%string]
                    | Some fileId =>
                        let values :=
                          rowData meetingTopic meetingDate "AI Summary"
                                  folderName (today env) hostEmail in
                        {| sheetAfter :=
                             logTransferToSheet (parseOnWrite env)
                               trackingSheet meetingId meetingTopic
                               meetingDate "AI Summary" folderName (today env)
                               hostEmail;
                           calls := [ensured;
                                     CreateFile summaryFileName folderId;
                                     AppendRow values];
                           detailRequests := [req];
                           fileWritten := Some (summaryFileName, content) |}
                    end
                end
            end
    end.

End Summaries.

(* ================================================================== *)
(** ** The run: [getZoomAccessToken], [getAllZoomUsers],
       [runZoomToDriveConnector] *)
(* ================================================================== *)

Module Connector.
Import Ledger Orchestrator Fetch Summaries.

(** Outcome of the token request: a response with its status code and
    the [access_token] field of its text ([TokenUnparsable] when the
    text is not JSON), or a failed request. *)
Inductive tokenReply :=
| TokenReply (code : Z) (access_token : option string)
| TokenUnparsable (code : Z)
| TokenFails.

(** [getZoomAccessToken()]: the token, [None] for [null].  The request
    is built from the credentials of [CONFIG] alone, so the platform's
    answer to it is the argument. *)
Definition getZoomAccessToken (answer : tokenReply) : option string :=
  match answer with
  | TokenReply code access_token =>
      match access_token with
      | Some t => if (code =? 200)%Z && truthy t then Some t else None
      | None => None
      end
  | TokenUnparsable _ => None
  | TokenFails => None
  end.

(** One page of the member list as [JSON.parse] reads it. *)
Record usersPage := {
  users : option (list User);
  users_page_count : option Z
}.

Inductive usersReply :=
| UsersReply (code : Z) (parsed : option usersPage)
| UsersRequestFails.

Definition usersServer := request -> usersReply.

(** The [while (hasMorePages)] loop of [getAllZoomUsers], entered with
    the current [pageNumber] and [allUsers]. *)
Fixpoint usersLoop (fuel : nat) (usrv : usersServer) (accessToken : string)
  (pageNumber : Z) (allUsers : list User) : outcome (list User) * list request :=
  match fuel with
  | O => (OutOfFuel, [])
  | S fuel' =>
      let req :=
        {| url := ("https://api.zoom.us/v2/users" ++ "?page_size=300&page_number="
                   ++ showZ pageNumber ++ "&status=active")%string;
           bearer := accessToken |} in
      match usrv req with
      | UsersRequestFails => (Thrown, [req])
      | UsersReply code parsed =>
          if (code =? 200)%Z then
            match parsed with
            | None => (Thrown, [req])
            | Some data =>
                match users data with
                | Some (u :: us) =>
                    let allUsers' := allUsers ++ u :: us in
                    if morePages (users_page_count data) pageNumber then
                      let '(res, reqs) :=
                        usersLoop fuel' usrv accessToken (pageNumber + 1)
                          allUsers' in
                      (res, req :: reqs)
                    else (Returned allUsers', [req])
                | _ => (Returned allUsers, [req])
                end
            end
          else (Returned allUsers, [req])
      end
  end.

(** [getAllZoomUsers(accessToken)]: the whole function is one [try]
    whose [catch] returns the empty list. *)
Definition getAllZoomUsers (fuel : nat) (usrv : usersServer)
  (accessToken : string) : outcome (list User) * list request :=
  match usersLoop fuel usrv accessToken 1 [] with
  | (Thrown, reqs) => (Returned [], reqs)
  | other => other
  end.

(** [for (const recording of recordings) processRecording(...)] *)
Fixpoint processRecordings (cfg : Config) (env : Env) (accessToken : string)
  (recordings : list Recording) (trackingSheet : sheet) : sheet * list event :=
  match recordings with
  | [] => (trackingSheet, [])
  | recording :: rest =>
      let '(sh, evs) :=
        processRecording cfg env accessToken recording trackingSheet in
      let '(sh', evs') := processRecordings cfg env accessToken rest sh in
      (sh', evs ++ evs')
  end.

(** [for (const meeting of summaries) processMeetingSummary(...)] *)
Fixpoint processSummaries (toUpperCase : string -> string) (cfg : Config)
  (env : Env) (dsrv : detailServer) (accessToken : string)
  (summaries : list Summary) (trackingSheet : sheet) : sheet * list event :=
  match summaries with
  | [] => (trackingSheet, [])
  | meeting :: rest =>
      let run :=
        processMeetingSummary toUpperCase cfg env dsrv accessToken meeting
          trackingSheet in
      let '(sh', evs') :=
        processSummaries toUpperCase cfg env dsrv accessToken rest
          (sheetAfter run) in
      (sh', calls run ++ evs')
  end.

(** The services and settings of one run. *)
Record Platform := {
  tokenAnswer : tokenReply;
  members : usersServer;
  listings : server;
  summaryDetails : detailServer;
  drive : Env;
  todayGmt : Z;
  upperCase : string -> string
}.

(** The first loop of [runZoomToDriveConnector]: member after member,
    fetch the recordings, then process each. *)
Fixpoint recordingsPhase (fuel : nat) (cfg : Config) (p : Platform)
  (accessToken : string) (us : list User) (trackingSheet : sheet)
  : outcome (sheet * list event) :=
  match us with
  | [] => Returned (trackingSheet, [])
  | user :: rest =>
      match result (getZoomRecordingsForUser fuel cfg (listings p)
                      (todayGmt p) accessToken (id user)) with
      | Returned recordings =>
          let '(sh, evs) :=
            processRecordings cfg (drive p) accessToken recordings
              trackingSheet in
          match recordingsPhase fuel cfg p accessToken rest sh with
          | Returned (sh', evs') => Returned (sh', evs ++ evs')
          | other => other
          end
      | Thrown => Thrown
      | OutOfFuel => OutOfFuel
      end
  end.

(** The second loop: member after member, fetch the summaries, then
    process each. *)
Fixpoint summariesPhase (fuel : nat) (cfg : Config) (p : Platform)
  (accessToken : string) (us : list User) (trackingSheet : sheet)
  : outcome (sheet * list event) :=
  match us with
  | [] => Returned (trackingSheet, [])
  | user :: rest =>
      match result (getZoomSummariesForUser fuel cfg (listings p)
                      (todayGmt p) accessToken (id user)) with
      | Returned summaries =>
          let '(sh, evs) :=
            processSummaries (upperCase p) cfg (drive p) (summaryDetails p)
              accessToken summaries trackingSheet in
          match summariesPhase fuel cfg p accessToken rest sh with
          | Returned (sh', evs') => Returned (sh', evs ++ evs')
          | other => other
          end
      | Thrown => Thrown
      | OutOfFuel => OutOfFuel
      end
  end.

(** [runZoomToDriveConnector()], from the sheet [initTrackingSheet]
    returns: the sheet afterwards and the calls on Drive, the
    recording-deletion endpoint and the sheets.  An exception leaving
    the [try] ends in [trackError]. *)
Definition runZoomToDriveConnector (fuel : nat) (cfg : Config) (p : Platform)
  (trackingSheet : sheet) : outcome (sheet * list event) :=
  match getZoomAccessToken (tokenAnswer p) with
  | None =>
      Returned (trackingSheet, [TrackError "Failed to get Zoom access token"])
  | Some zoomToken =>
      match fst (getAllZoomUsers fuel (members p) zoomToken) with
      | Returned us =>
          match recordingsPhase fuel cfg p zoomToken us trackingSheet with
          | Returned (sh, evs) =>
              match summariesPhase fuel cfg p zoomToken us sh with
              | Returned (sh', evs') => Returned (sh', evs ++ evs')
              | Thrown => Returned (sh, evs ++ [TrackError "run"])
              | OutOfFuel => OutOfFuel
              end
          | Thrown => Returned (trackingSheet, [TrackError "run"])
          | OutOfFuel => OutOfFuel
          end
      | Thrown => Returned (trackingSheet, [TrackError "run"])
      | OutOfFuel => OutOfFuel
      end
  end.

End Connector.

(* ================================================================== *)
(** ** Date windows on the script's clock: local calendar days,
       printed in GMT *)
(* ================================================================== *)

Module ZonedWindowing.
Import JsDate Windowing.
Open Scope Z_scope.

Definition msPerDay : Z := 86400000.

(** The time zone the script runs in, as the language uses it: the
    local time value of a time value, and the time value of a local
    one, in milliseconds. *)
Record Zone := {
  localTime : Z -> Z;
  utc : Z -> Z
}.

(** [date.getDate()]: the day of the month in local time. *)
Definition getDate (zone : Zone) (t : Z) : Z :=
  snd (civilFromDays (localTime zone t / msPerDay)).

(** [date.setDate(dt)]: the time value the date holds afterwards.  The
    day is counted from the first of the local month, so a value below
    1 reaches into the months before; the local time of day is kept. *)
Definition setDate (zone : Zone) (t dt : Z) : Z :=
  let lt := localTime zone t in
  let '(y, m, _) := civilFromDays (lt / msPerDay) in
  utc zone ((daysFromCivil y m 1 + dt - 1) * msPerDay + lt mod msPerDay).

(** The day [Utilities.formatDate(date, "GMT", "yyyy-MM-dd")] prints. *)
Definition gmtDay (t : Z) : Z := t / msPerDay.

(** The dates of iteration [i] as time values:
    [(chunkStartDate, chunkEndDate)], with [today] the time value of
    [new Date()]. *)
Definition chunk (zone : Zone) (today days i : Z) : Z * Z :=
  let fromDate := setDate zone today (getDate zone today - days) in
  let chunkEndDate :=
    setDate zone today (getDate zone today - i * chunkSize) in
  let chunkStartDate :=
    setDate zone chunkEndDate (getDate zone chunkEndDate - chunkSize) in
  let chunkStartDate :=
    if chunkStartDate <? fromDate then fromDate else chunkStartDate in
  (chunkStartDate, chunkEndDate).

(** The windows requested, in the order the loop requests them, as
    the GMT days of [chunkStartStr] and [chunkEndStr]. *)
Definition windows (zone : Zone) (today days : Z) : list (Z * Z) :=
  map (fun i => let w := chunk zone today days i in
                (gmtDay (fst w), gmtDay (snd w)))
      (iterations days).

End ZonedWindowing.

(* ================================================================== *)
(** * Properties *)
(* ================================================================== *)

(* ================================================================== *)
(** ** Facts about the string primitives *)
(* ================================================================== *)

Section StringFacts.

Lemma isEmpty_true (s : string) : isEmpty s = true <-> s = EmptyString.
Proof. destruct s; simpl; split; intro H; congruence. Qed.

Lemma truthy_isEmpty (s : string) : truthy s = negb (isEmpty s).
Proof. reflexivity. Qed.

Lemma prefix_one (c : ascii) (s : string) :
  String.prefix (String c EmptyString) s =
  match s with
  | EmptyString => false
  | String d _ => Ascii.eqb d c
  end.
Proof.
  destruct s as [|d r]; simpl; [reflexivity|].
  destruct (ascii_dec c d) as [->|Hne].
  - rewrite Ascii.eqb_refl. now destruct r.
  - symmetry. apply Ascii.eqb_neq. congruence.
Qed.

(** [includes] of a one-character needle agrees with [cutAtFirst]. *)
Lemma includes_cut (c : ascii) (s : string) :
  includes s (String c EmptyString) =
  match cutAtFirst c s with Some _ => true | None => false end.
Proof.
  induction s as [|d r IH].
  - reflexivity.
  - cbn [includes cutAtFirst]. rewrite prefix_one.
    destruct (Ascii.eqb d c); [reflexivity|].
    rewrite IH. now destruct (cutAtFirst c r) as [[a b]|].
Qed.

Lemma split_nonempty (c : ascii) (s : string) : split c s <> [].
Proof.
  induction s as [|d r IH]; simpl; [discriminate|].
  destruct (Ascii.eqb d c); [discriminate|].
  destruct (split c r); discriminate.
Qed.

(** Splitting cuts at the first separator and goes on in the rest. *)
Lemma split_cut (c : ascii) (s a b : string) :
  cutAtFirst c s = Some (a, b) -> split c s = a :: split c b.
Proof.
  revert a b. induction s as [|d r IH]; intros a b H; simpl in *.
  - discriminate.
  - destruct (Ascii.eqb d c).
    + now inversion H.
    + destruct (cutAtFirst c r) as [[a' b']|]; [|discriminate].
      inversion H; subst. now rewrite (IH a' b eq_refl).
Qed.

Lemma split_no_cut (c : ascii) (s : string) :
  cutAtFirst c s = None -> split c s = [s].
Proof.
  induction s as [|d r IH]; intros H; simpl in *; [reflexivity|].
  destruct (Ascii.eqb d c); [discriminate|].
  destruct (cutAtFirst c r) as [[a b]|]; [discriminate|].
  now rewrite IH.
Qed.

(** Joining the pieces of a split with the separator gives the text
    back. *)
Lemma join_cons2 (sep x y : string) (l : list string) :
  join sep (x :: y :: l) = (x ++ sep ++ join sep (y :: l))%string.
Proof. reflexivity. Qed.

Lemma join_split (c : ascii) (s : string) :
  join (String c EmptyString) (split c s) = s.
Proof.
  induction s as [|d r IH]; [reflexivity|].
  cbn [split].
  pose proof (split_nonempty c r) as Hne.
  destruct (split c r) as [|h t]; [congruence|].
  destruct (Ascii.eqb d c) eqn:E.
  - apply Ascii.eqb_eq in E. subst d.
    rewrite join_cons2, IH. reflexivity.
  - destruct t as [|y l].
    + cbn in IH |- *. now rewrite IH.
    + rewrite join_cons2 in IH |- *. rewrite <- IH. reflexivity.
Qed.

End StringFacts.

(* ================================================================== *)
(** ** The caption formatter refines its specification *)
(* ================================================================== *)

Module TranscriptProofs.
Import Transcript.

(** The branch of the loop body reached with a well-formed utterance. *)
Definition stepU (st : loopState) (u : string * string) : loopState :=
  if sameSpeaker (fst u) (currentSpeaker st) then
    {| plainText := plainText st;
       currentSpeaker := currentSpeaker st;
       currentStatement := currentStatement st ++ [snd u] |}
  else
    {| plainText := flushed st;
       currentSpeaker := Some (fst u);
       currentStatement := [snd u] |}.

Lemma utterance_truthy (line sp stmt : string) :
  utterance line = Some (sp, stmt) -> truthy sp = true /\ truthy stmt = true.
Proof.
  unfold utterance. destruct (cutAtFirst ":" line) as [[a b]|]; [|discriminate].
  unfold truthy.
  destruct (isEmpty (trim a)) eqn:Ea; simpl; [discriminate|].
  destruct (isEmpty (trim b)) eqn:Eb; simpl; [discriminate|].
  intros H. inversion H; subst. now rewrite Ea, Eb.
Qed.

(** The loop body looks at a line only through [skipped] and
    [utterance]. *)
Lemma step_utterance (st : loopState) (raw : string) :
  step st raw =
  if skipped (trim raw) then st
  else match utterance (trim raw) with
       | Some u => stepU st u
       | None => st
       end.
Proof.
  unfold step, utterance.
  destruct (skipped (trim raw)); [reflexivity|].
  rewrite includes_cut.
  destruct (cutAtFirst ":" (trim raw)) as [[a b]|] eqn:Hcut; [|reflexivity].
  rewrite (split_cut _ _ _ _ Hcut), join_split.
  unfold truthy.
  destruct (isEmpty (trim a)); simpl; [reflexivity|].
  destruct (isEmpty (trim b)); reflexivity.
Qed.

Lemma fold_step_utterances (lines : list string) (st : loopState) :
  fold_left step lines st = fold_left stepU (utterances lines) st.
Proof.
  revert st. induction lines as [|raw rest IH]; intros st; [reflexivity|].
  cbn [fold_left utterances]. rewrite step_utterance.
  destruct (skipped (trim raw)); [apply IH|].
  destruct (utterance (trim raw)) as [u|]; [|apply IH].
  cbn [fold_left]. apply IH.
Qed.

Lemma utterances_truthy (lines : list string) :
  Forall (fun u => truthy (fst u) = true) (utterances lines).
Proof.
  induction lines as [|raw rest IH]; simpl; [constructor|].
  destruct (skipped (trim raw)); [assumption|].
  destruct (utterance (trim raw)) as [[sp stmt]|] eqn:E; [|assumption].
  constructor; [|assumption]. simpl. now apply utterance_truthy in E.
Qed.

(** The open run [(sp, acc)] put in front of the runs of what follows. *)
Definition prependRun (sp : string) (acc : list string)
  (runs : list (string * list string)) : list (string * list string) :=
  match runs with
  | (sp', stmts) :: rest =>
      if String.eqb sp sp' then (sp, acc ++ stmts) :: rest
      else (sp, acc) :: runs
  | [] => [(sp, acc)]
  end.

Lemma mergeRuns_cons (sp stmt : string) (us : list (string * string)) :
  mergeRuns ((sp, stmt) :: us) = prependRun sp [stmt] (mergeRuns us).
Proof.
  cbn [mergeRuns]. unfold prependRun.
  destruct (mergeRuns us) as [|[sp' stmts] runs]; reflexivity.
Qed.

Lemma mergeRuns_head (sp stmt : string) (us : list (string * string)) :
  exists stmts runs, mergeRuns ((sp, stmt) :: us) = (sp, stmts) :: runs.
Proof.
  cbn [mergeRuns].
  destruct (mergeRuns us) as [|[sp' stmts] runs]; [now eexists _, _|].
  destruct (String.eqb sp sp'); now eexists _, _.
Qed.

Lemma prependRun_snoc (sp stmt : string) (acc : list string)
  (us : list (string * string)) :
  prependRun sp (acc ++ [stmt]) (mergeRuns us) =
  prependRun sp acc (mergeRuns ((sp, stmt) :: us)).
Proof.
  cbn [mergeRuns]. unfold prependRun.
  destruct (mergeRuns us) as [|[sp' stmts] runs].
  - now rewrite String.eqb_refl.
  - destruct (String.eqb sp sp') eqn:E; rewrite String.eqb_refl.
    + now rewrite <- app_assoc.
    + reflexivity.
Qed.

Lemma flushed_open (pt : list string) (sp : string) (acc : list string) :
  truthy sp = true -> acc <> [] ->
  flushed {| plainText := pt; currentSpeaker := Some sp;
             currentStatement := acc |} = pt ++ [entry sp acc].
Proof.
  intros Hsp Hacc. unfold flushed. simpl. rewrite Hsp.
  destruct acc; [congruence|reflexivity].
Qed.

(** Loop invariant: with an open run [(sp, acc)], the rest of the loop
    followed by the last flush emits the runs of the remaining
    utterances, the first of them merged into the open run when it has
    the same speaker. *)
Lemma loop_open_run (us : list (string * string)) :
  Forall (fun u => truthy (fst u) = true) us ->
  forall pt sp acc, truthy sp = true -> acc <> [] ->
  flushed (fold_left stepU us
             {| plainText := pt; currentSpeaker := Some sp;
                currentStatement := acc |})
  = pt ++ map renderRun (prependRun sp acc (mergeRuns us)).
Proof.
  induction 1 as [|[sp1 s1] rest Hu Hrest IH]; intros pt sp acc Hsp Hacc.
  - cbn [fold_left mergeRuns prependRun map]. now apply flushed_open.
  - cbn [fold_left]. unfold stepU at 2. cbn [fst snd currentSpeaker sameSpeaker].
    destruct (String.eqb sp1 sp) eqn:E.
    + apply String.eqb_eq in E. subst sp1.
      cbn [plainText currentStatement].
      rewrite IH; [|assumption|now destruct acc].
      now rewrite prependRun_snoc.
    + rewrite flushed_open by assumption.
      rewrite IH; [|exact Hu|discriminate].
      rewrite <- mergeRuns_cons.
      destruct (mergeRuns_head sp1 s1 rest) as (stmts & runs & Hm).
      rewrite Hm. unfold prependRun.
      rewrite String.eqb_sym, E. cbn [map]. unfold renderRun at 2. cbn [fst snd].
      now rewrite <- app_assoc.
Qed.

Lemma loop_from_start (us : list (string * string)) :
  Forall (fun u => truthy (fst u) = true) us ->
  flushed (fold_left stepU us initialState) = map renderRun (mergeRuns us).
Proof.
  intros H. destruct H as [|[sp1 s1] rest Hu Hrest]; [reflexivity|].
  cbn [fold_left]. unfold stepU at 2. cbn.
  rewrite loop_open_run; [|assumption|exact Hu|discriminate].
  now rewrite <- mergeRuns_cons.
Qed.

(** No two neighbouring runs have the same speaker: runs are maximal. *)
Fixpoint speakersAlternate (runs : list (string * list string)) : Prop :=
  match runs with
  | r1 :: ((r2 :: _) as rest) => fst r1 <> fst r2 /\ speakersAlternate rest
  | _ => True
  end.

Lemma mergeRuns_alternate (us : list (string * string)) :
  speakersAlternate (mergeRuns us).
Proof.
  induction us as [|[sp stmt] rest IH]; [exact I|].
  cbn [mergeRuns].
  destruct (mergeRuns rest) as [|[sp' stmts] runs]; [exact I|].
  destruct (String.eqb sp sp') eqn:E.
  - apply String.eqb_eq in E. subst sp'.
    destruct runs as [|r2 runs']; [exact I|]. exact IH.
  - split; [|exact IH]. now apply String.eqb_neq.
Qed.

Definition captionExample : string :=
  "00:00:01.000 --> 00:00:02.000" ++ String "010" "1" ++
  String "010" "Alice: Hello there" ++ String "010" "Alice: how are you" ++
  String "010" "Bob: I'm fine".

Definition captionExampleText : string :=
  "Alice: Hello there how are you" ++ String "010" (String "010" "Bob: I'm fine").

(** C5. For every caption document the text produced by
    [convertTranscriptToText] is the one the specification describes:
    header, timestamp, sequence-number and blank lines are dropped, each
    remaining line is cut at its first colon into a trimmed speaker and
    statement (lines without a colon or with an empty side are
    dropped), consecutive statements of one speaker are joined by single
    spaces, runs of neighbouring entries never share a speaker, and the
    entries are joined by a blank line.  The specification's example
    document yields its example text. *)
Theorem convertTranscriptToText_merges_runs :
  (forall vttContent,
     convertTranscriptToText vttContent = specPlainText vttContent)
  /\ (forall vttContent,
        speakersAlternate (mergeRuns (utterances (split "010" vttContent))))
  /\ convertTranscriptToText captionExample = captionExampleText.
Proof.
  split; [|split].
  - intros vtt. unfold convertTranscriptToText, specPlainText.
    rewrite fold_step_utterances, loop_from_start; [reflexivity|].
    apply utterances_truthy.
  - intros vtt. apply mergeRuns_alternate.
  - vm_compute. reflexivity.
Qed.

End TranscriptProofs.

Module FolderRouterProofs.
Import JsObject FolderRouter.

Definition keyIn (k : string) (o : list (string * string)) : bool :=
  existsb (fun kv' => String.eqb k (fst kv')) o.

Lemma define_fresh (k v : string) (o : object) :
  keyIn k o = false -> define k v o = o ++ [(k, v)].
Proof.
  induction o as [|[k' v'] rest IH]; simpl; intros H; [reflexivity|].
  apply orb_false_iff in H as [H1 H2]. rewrite H1. now rewrite IH.
Qed.

Lemma keyIn_app (k : string) (o1 o2 : list (string * string)) :
  keyIn k (o1 ++ o2) = keyIn k o1 || keyIn k o2.
Proof. unfold keyIn. apply existsb_app. Qed.

Lemma fold_define_distinct (props acc : list (string * string)) :
  distinctKeys props = true ->
  forallb definesProperty props = true ->
  (forall kv, In kv props -> keyIn (fst kv) acc = false) ->
  fold_left
    (fun o kv => if definesProperty kv then define (fst kv) (snd kv) o else o)
    props acc
  = acc ++ props.
Proof.
  revert acc. induction props as [|[k v] rest IH]; intros acc Hd Hdef Hacc.
  - now rewrite app_nil_r.
  - cbn [fold_left]. cbn [distinctKeys] in Hd. cbn [forallb] in Hdef.
    apply andb_true_iff in Hd as [Hk Hrest].
    apply andb_true_iff in Hdef as [Hkv Hdef].
    rewrite Hkv. cbn [fst snd].
    apply negb_true_iff in Hk. fold (keyIn (fst (k, v)) rest) in Hk.
    rewrite define_fresh by (apply (Hacc (k, v)); now left).
    rewrite IH; [now rewrite <- app_assoc|assumption|assumption|].
    intros [k2 v2] Hin. rewrite keyIn_app, (Hacc (k2, v2)) by now right.
    cbn [keyIn existsb fst orb]. rewrite orb_false_r.
    destruct (String.eqb k2 k) eqn:E; [|reflexivity].
    apply String.eqb_eq in E. subst k2.
    cbn [fst] in Hk. unfold keyIn in Hk.
    assert (existsb (fun kv' => String.eqb k (fst kv')) rest = true) as Hex.
    { apply existsb_exists. exists (k, v2). split; [assumption|].
      apply String.eqb_refl. }
    congruence.
Qed.

(** A literal with distinct keys, each of which defines a property,
    evaluates to its properties as written. *)
Lemma ofLiteral_distinct (props : list (string * string)) :
  distinctKeys props = true -> forallb definesProperty props = true ->
  ofLiteral props = props.
Proof.
  intros H Hdef. unfold ofLiteral. now rewrite fold_define_distinct.
Qed.

(** Without array-index keys, enumeration order is creation order. *)
Lemma ownEntries_plain (o : object) :
  forallb (fun kv => negb (isArrayIndex (fst kv))) o = true ->
  ownEntries o = o.
Proof.
  intros H. unfold ownEntries.
  assert (indexed o = []) as ->.
  { induction o as [|kv rest IH]; [reflexivity|].
    cbn [forallb] in H. apply andb_true_iff in H as [H1 H2].
    cbn [indexed]. unfold isArrayIndex in H1.
    destruct (arrayIndex (fst kv)); [discriminate|]. now apply IH. }
  cbn [map app]. induction o as [|kv rest IH]; [reflexivity|].
  cbn [forallb] in H. apply andb_true_iff in H as [H1 H2].
  cbn [filter]. rewrite H1. now rewrite IH.
Qed.

(** The loop returns the folder of the first entry, in enumeration
    order, whose keyword occurs in the topic. *)
Lemma firstMatch_find (topic defaultId : string)
  (entries : list (string * string)) :
  firstMatch (toLowerCase topic) entries defaultId =
  specResolve entries defaultId topic.
Proof.
  unfold specResolve. induction entries as [|[k v] rest IH]; [reflexivity|].
  cbn [firstMatch find fst]. unfold keywordOccurs at 1.
  destruct (includes (toLowerCase topic) (toLowerCase k)); [reflexivity|].
  exact IH.
Qed.

Lemma getDestinationFolderId_enumeration (cfg : Config) (topic : string) :
  getDestinationFolderId cfg topic =
  specResolve (ownEntries (ofLiteral (FOLDER_MAPPING cfg)))
              (DEFAULT_FOLDER_ID cfg) topic.
Proof. apply firstMatch_find. Qed.

(** C7, amended.  The resolver is a total function of the configuration
    and the topic.  When the configured keywords are pairwise distinct,
    none of them is an array-index numeral and none is the key
    [__proto__], which a literal does not define as a property, it
    returns the folder id of the first configured pair, in configured
    order, whose keyword occurs in the topic as a case-insensitive
    substring, also when several keywords match, and the default folder
    id when none matches. *)
Theorem getDestinationFolderId_first_match (cfg : Config) (topic : string) :
  plainKeywords (FOLDER_MAPPING cfg) = true ->
  getDestinationFolderId cfg topic =
  specResolve (FOLDER_MAPPING cfg) (DEFAULT_FOLDER_ID cfg) topic.
Proof.
  intros H. unfold plainKeywords in H.
  apply andb_true_iff in H as [H Hdef]. apply andb_true_iff in H as [Hd Hp].
  rewrite getDestinationFolderId_enumeration.
  rewrite (ofLiteral_distinct _ Hd Hdef), (ownEntries_plain _ Hp).
  reflexivity.
Qed.

Definition operationsConfig : Config :=
  {| DAYS_TO_FETCH := 2; DELETE_AFTER_TRANSFER := true;
     FOLDER_MAPPING := [("operations", "F1"); ("sync", "F2")];
     DEFAULT_FOLDER_ID := "F0"; TOPIC_PREFIX_TO_REMOVE := "" |}.

Lemma getDestinationFolderId_first_match_witness :
  plainKeywords (FOLDER_MAPPING operationsConfig) = true /\
  getDestinationFolderId operationsConfig "Weekly Operations Sync" = "F1".
Proof.
  split; [reflexivity|].
  rewrite (getDestinationFolderId_first_match operationsConfig
             "Weekly Operations Sync" eq_refl).
  reflexivity.
Defined.

(** A mapping written with the keyword "2024" before the keyword "7". *)
Definition numeralConfig : Config :=
  {| DAYS_TO_FETCH := 2; DELETE_AFTER_TRANSFER := true;
     FOLDER_MAPPING := [("2024", "F-2024"); ("7", "F-7")];
     DEFAULT_FOLDER_ID := "F0"; TOPIC_PREFIX_TO_REMOVE := "" |}.

(** C7 as stated fails: both keywords occur in the topic, "2024" is
    configured first, and the resolver returns the folder of "7",
    which own-key enumeration puts first. *)
Lemma getDestinationFolderId_not_configured_order :
  getDestinationFolderId numeralConfig "Sprint 7 review 2024" = "F-7" /\
  specResolve (FOLDER_MAPPING numeralConfig) (DEFAULT_FOLDER_ID numeralConfig)
    "Sprint 7 review 2024" = "F-2024" /\
  getDestinationFolderId numeralConfig "Sprint 7 review 2024" <>
  specResolve (FOLDER_MAPPING numeralConfig) (DEFAULT_FOLDER_ID numeralConfig)
    "Sprint 7 review 2024".
Proof.
  split; [reflexivity|]. split; [reflexivity|]. vm_compute. discriminate.
Qed.

(** A mapping that writes the key [__proto__]: the object has no such
    property, so a topic that holds the key is not routed by it. *)
Definition protoConfig : Config :=
  {| DAYS_TO_FETCH := 2; DELETE_AFTER_TRANSFER := true;
     FOLDER_MAPPING := [("operations", "F1"); ("__proto__", "F9")];
     DEFAULT_FOLDER_ID := "F0"; TOPIC_PREFIX_TO_REMOVE := "" |}.

Example getDestinationFolderId_undefined_key :
  keys (ofLiteral (FOLDER_MAPPING protoConfig)) = ["operations"]
  /\ getDestinationFolderId protoConfig "Review of __proto__ handling" = "F0"
  /\ plainKeywords (FOLDER_MAPPING protoConfig) = false.
Proof. repeat split. Qed.

End FolderRouterProofs.

Module TopicPrefixProofs.
Import TopicPrefix.

Lemma startsWith_append (p rest : string) :
  startsWith (p ++ rest)%string p = true.
Proof.
  unfold startsWith. induction p as [|c p IH]; simpl.
  - now destruct rest.
  - destruct (ascii_dec c c); [exact IH|congruence].
Qed.

Lemma matchAtoms_lits (p : string) (q : list atom) (rest : string) :
  matchAtoms (lits p ++ q) (p ++ rest)%string = matchAtoms q rest.
Proof.
  induction p as [|c p IH]; simpl; [reflexivity|].
  now rewrite Ascii.eqb_refl.
Qed.

(** What the code does to a topic that starts with the prefix, by what
    follows the prefix. *)
Lemma stripTopicPrefix_rest (cfg : Config) (rest : string) :
  truthy (TOPIC_PREFIX_TO_REMOVE cfg) = true ->
  stripTopicPrefix cfg (TOPIC_PREFIX_TO_REMOVE cfg ++ rest)%string =
  match matchAtoms [Space; Lit "|"; Space] rest with
  | Some after => after
  | None =>
      match matchAtoms [Space] rest with
      | Some after => after
      | None => (TOPIC_PREFIX_TO_REMOVE cfg ++ rest)%string
      end
  end.
Proof.
  intros Hp. unfold stripTopicPrefix.
  rewrite Hp, startsWith_append. cbn [andb prefixPattern replaceAnchored].
  now rewrite !matchAtoms_lits.
Qed.

Lemma append_empty (s : string) : (s ++ "")%string = s.
Proof. induction s as [|c s IH]; simpl; congruence. Qed.

(** C9, amended.  For a non-empty prefix whose characters all stand for
    themselves in a pattern, and a topic that starts with it: a topic
    equal to the prefix, or one where the prefix is followed by a
    character that is not white space, is passed through unchanged;
    when the prefix is followed by white space, bar, white space, the
    prefix and these three characters are removed; when it is followed
    by one white-space character that does not start such a separator,
    the prefix and that character are removed.  One space and " | " are
    instances. *)
Theorem stripTopicPrefix_separator (cfg : Config) :
  truthy (TOPIC_PREFIX_TO_REMOVE cfg) = true ->
  literalSource (TOPIC_PREFIX_TO_REMOVE cfg) = true ->
  let prefix := TOPIC_PREFIX_TO_REMOVE cfg in
  stripTopicPrefix cfg prefix = prefix
  /\ (forall c rest, isWhitespace c = false ->
        stripTopicPrefix cfg (prefix ++ String c rest)%string
        = (prefix ++ String c rest)%string)
  /\ (forall a b rest, isWhitespace a = true -> isWhitespace b = true ->
        stripTopicPrefix cfg
          (prefix ++ String a (String "|" (String b rest)))%string = rest)
  /\ (forall a rest, isWhitespace a = true ->
        matchAtoms [Lit "|"; Space] rest = None ->
        stripTopicPrefix cfg (prefix ++ String a rest)%string = rest).
Proof.
  intros Hp _ prefix. subst prefix.
  repeat split.
  - pose proof (stripTopicPrefix_rest cfg EmptyString Hp) as H.
    cbn in H. now rewrite append_empty in H.
  - intros c r Hc. rewrite stripTopicPrefix_rest by assumption.
    cbn. now rewrite Hc.
  - intros a b r Ha Hb. rewrite stripTopicPrefix_rest by assumption.
    cbn. now rewrite Ha, Hb.
  - intros a r Ha Hr. rewrite stripTopicPrefix_rest by assumption.
    cbn [matchAtoms atomMatches]. rewrite Ha.
    cbn [matchAtoms atomMatches] in Hr.
    destruct r as [|c r']; [reflexivity|].
    destruct (Ascii.eqb c "|"); [|reflexivity].
    destruct r' as [|d r'']; [reflexivity|].
    destruct (isWhitespace d); [discriminate|reflexivity].
Qed.

Definition orgConfig : Config :=
  {| DAYS_TO_FETCH := 2; DELETE_AFTER_TRANSFER := true;
     FOLDER_MAPPING := [("operations", "F1")];
     DEFAULT_FOLDER_ID := "F0"; TOPIC_PREFIX_TO_REMOVE := "Org" |}.

Lemma stripTopicPrefix_separator_witness :
  stripTopicPrefix orgConfig "Org" = "Org"
  /\ stripTopicPrefix orgConfig "Org: Sync" = "Org: Sync"
  /\ stripTopicPrefix orgConfig "Organic" = "Organic"
  /\ stripTopicPrefix orgConfig "Org | Sync" = "Sync"
  /\ stripTopicPrefix orgConfig "Org Sync" = "Sync".
Proof.
  pose proof (stripTopicPrefix_separator orgConfig eq_refl eq_refl)
    as (H1 & H2 & H3 & H4).
  split; [exact H1|].
  split; [exact (H2 ":"%char " Sync" eq_refl)|].
  split; [exact (H2 "a"%char "nic" eq_refl)|].
  split; [exact (H3 " "%char " "%char "Sync" eq_refl eq_refl)|].
  exact (H4 " "%char "Sync" eq_refl eq_refl).
Defined.

(** C9 as stated fails: a tab after the prefix is neither one space nor
    " | ", yet the prefix and the tab are removed. *)
Lemma stripTopicPrefix_tab_removed :
  stripTopicPrefix orgConfig ("Org" ++ String "009" "Sync") = "Sync"
  /\ specStrip "Org" ("Org" ++ String "009" "Sync")
     = ("Org" ++ String "009" "Sync")%string
  /\ stripTopicPrefix orgConfig ("Org" ++ String "009" "Sync")
     <> specStrip "Org" ("Org" ++ String "009" "Sync").
Proof.
  split; [reflexivity|]. split; [reflexivity|]. vm_compute. discriminate.
Qed.

End TopicPrefixProofs.

Module WindowingProofs.
Import Windowing.
Open Scope Z_scope.

Lemma numChunks_bounds (days : Z) :
  chunkSize * (numChunks days - 1) < days <= chunkSize * numChunks days.
Proof.
  unfold numChunks, chunkSize.
  pose proof (Z.div_mod (- days) 30 ltac:(lia)).
  pose proof (Z.mod_pos_bound (- days) 30 ltac:(lia)).
  lia.
Qed.

Lemma numChunks_unique (days n : Z) :
  chunkSize * (n - 1) < days <= chunkSize * n -> numChunks days = n.
Proof.
  pose proof (numChunks_bounds days). unfold chunkSize in *. lia.
Qed.

Lemma windows_length (today days : Z) :
  length (windows today days) = Z.to_nat (numChunks days).
Proof.
  unfold windows, iterations. now rewrite !length_map, length_seq.
Qed.

Lemma windows_nth (today days : Z) (i : nat) :
  (i < Z.to_nat (numChunks days))%nat ->
  nth i (windows today days) (0, 0) = chunk today days (Z.of_nat i).
Proof.
  intros Hi. unfold windows, iterations.
  rewrite (nth_indep _ (0, 0) (chunk today days 0))
    by now rewrite !length_map, length_seq.
  rewrite map_nth.
  rewrite (nth_indep _ 0 (Z.of_nat 0))
    by now rewrite length_map, length_seq.
  rewrite map_nth, seq_nth by assumption. reflexivity.
Qed.

Lemma last_as_nth {A : Type} (l : list A) (d : A) :
  last l d = nth (length l - 1) l d.
Proof.
  induction l as [|a l IH]; [reflexivity|].
  destruct l as [|b l']; [reflexivity|].
  change (last (a :: b :: l') d) with (last (b :: l') d).
  rewrite IH. cbn [length]. rewrite !Nat.sub_succ, !Nat.sub_0_r.
  reflexivity.
Qed.

(** C6, amended.  For a lookback of at least one day the chunk loop
    requests ceil(days/30) windows: exactly one for 1 to 30 days,
    exactly two for 31 to 60 days.  Window [i] ends 30*i days before
    today, so the walk goes backward from today; it starts 30 days
    before its end, or at the requested from-date when that is later;
    no window starts before the from-date, and the earliest window
    starts on it. *)
Theorem windows_count_and_clamp (today days : Z) :
  1 <= days ->
  let ws := windows today days in
  let fromDate := today - days in
  length ws = Z.to_nat (numChunks days)
  /\ 30 * (numChunks days - 1) < days <= 30 * numChunks days
  /\ (days <= 30 -> length ws = 1%nat)
  /\ (31 <= days <= 60 -> length ws = 2%nat)
  /\ (forall i, (i < length ws)%nat ->
        nth i ws (0, 0) =
          (Z.max (today - 30 * Z.of_nat i - 30) fromDate,
           today - 30 * Z.of_nat i)
        /\ fromDate <= fst (nth i ws (0, 0)) < snd (nth i ws (0, 0)))
  /\ fst (last ws (0, 0)) = fromDate.
Proof.
  intros Hdays ws fromDate.
  pose proof (numChunks_bounds days) as Hb. unfold chunkSize in Hb.
  pose proof (windows_length today days) as Hlen. fold ws in Hlen.
  assert (Hnth : forall i, (i < length ws)%nat ->
            nth i ws (0, 0) =
              (Z.max (today - 30 * Z.of_nat i - 30) fromDate,
               today - 30 * Z.of_nat i)).
  { intros i Hi. subst ws. rewrite windows_nth by lia.
    unfold chunk, chunkSize. fold fromDate.
    destruct (Z.ltb_spec (today - Z.of_nat i * 30 - 30) fromDate);
      f_equal; lia. }
  split; [exact Hlen|]. split; [exact Hb|].
  split; [intros H; rewrite Hlen, (numChunks_unique days 1); [reflexivity|unfold chunkSize; lia]|].
  split; [intros H; rewrite Hlen, (numChunks_unique days 2); [reflexivity|unfold chunkSize; lia]|].
  split.
  - intros i Hi. split; [now apply Hnth|].
    rewrite (Hnth i Hi). cbn [fst snd]. subst fromDate. lia.
  - assert (ws <> []) as Hne.
    { intros E. rewrite E in Hlen. simpl in Hlen. lia. }
    rewrite last_as_nth.
    assert (length ws <> 0%nat) as Hpos by (destruct ws; [congruence|discriminate]).
    rewrite Hnth by lia. cbn [fst]. subst fromDate. lia.
Qed.

Lemma windows_count_and_clamp_witness :
  1 <= 45 /\
  length (windows 100 45) = 2%nat /\
  fst (last (windows 100 45) (0, 0)) = 100 - 45.
Proof.
  split; [lia|].
  pose proof (windows_count_and_clamp 100 45 ltac:(lia)) as (_ & _ & _ & H2 & _ & H4).
  split; [apply H2; lia|exact H4].
Defined.

(** C6 as stated fails: a lookback of 0 days is a range of at most 30
    days, and the loop requests no window for it. *)
Lemma windows_zero_days :
  0 <= 30 /\ windows 100 0 = [] /\ length (windows 100 0) <> 1%nat.
Proof.
  split; [lia|]. split; [reflexivity|]. vm_compute. discriminate.
Qed.

End WindowingProofs.

Module LedgerProofs.
Import JsDate Ledger.

(** The summary lookup finds exactly the summary rows that record the
    pair. *)
Lemma scanSummary_exists (t d : string) (rows : list row) :
  scanSummary t d rows =
  existsb (fun r => rowMatches t d r && kind_eqb (rowKind r) SummaryKind) rows.
Proof.
  induction rows as [|r rest IH]; [reflexivity|].
  cbn [scanSummary existsb]. unfold rowMatches at 1, rowKind at 1.
  destruct (cellIs (topicCell r) t && cellIs (normalizedDate (dateCell r)) d);
    cbn [andb orb]; [|exact IH].
  destruct (cellIs (filesCell r) summaryMarker); cbn [kind_eqb orb];
    [reflexivity|exact IH].
Qed.

(** The recording lookup compares the date cell as it is. *)
Lemma scanRecording_exists (t d : string) (rows : list row) :
  scanRecording t d rows =
  existsb (fun r => cellIs (topicCell r) t && cellIs (dateCell r) d) rows.
Proof.
  induction rows as [|r rest IH]; [reflexivity|].
  cbn [scanRecording existsb].
  destruct (cellIs (topicCell r) t && cellIs (dateCell r) d);
    [reflexivity|exact IH].
Qed.

Lemma normalizedDate_text (r : row) :
  match dateCell r with CStr _ => true | CDate _ => false end = true ->
  normalizedDate (dateCell r) = dateCell r.
Proof. destruct (dateCell r); [reflexivity|discriminate]. Qed.

Lemma existsb_ext_in {A : Type} (f g : A -> bool) (l : list A) :
  (forall x, In x l -> f x = g x) -> existsb f l = existsb g l.
Proof.
  induction l as [|a l IH]; intros H; [reflexivity|].
  cbn [existsb]. rewrite (H a) by now left.
  rewrite IH; [reflexivity|]. intros x Hx. apply H. now right.
Qed.

(** C4, amended.  For every ledger and every (topic, date): the
    summary-kind lookup returns true exactly when some data row has the
    topic, the date (a structured date read as "yyyy-MM-dd", a text as
    it is) and the file-types cell "AI Summary"; so it returns false
    when the pair is present only in recording rows.  The
    recording-kind lookup does not look at the file-types cell: on a
    ledger whose date cells hold texts it returns true exactly when
    some data row of either kind has the topic and the date. *)
Theorem lookup_per_kind (sh : sheet) (meetingTopic meetingDate : string) :
  isSummaryProcessed meetingTopic meetingDate sh
    = specIsProcessed SummaryKind meetingTopic meetingDate sh
  /\ ((forall r, In r (tl sh) -> rowMatches meetingTopic meetingDate r = true ->
                 rowKind r = RecordingKind) ->
      isSummaryProcessed meetingTopic meetingDate sh = false)
  /\ (textDates sh = true ->
      isRecordingProcessed meetingTopic meetingDate sh
        = existsb (rowMatches meetingTopic meetingDate) (tl sh)).
Proof.
  split; [|split].
  - apply scanSummary_exists.
  - intros Hrec. unfold isSummaryProcessed. rewrite scanSummary_exists.
    apply not_true_is_false. intros Hex.
    apply existsb_exists in Hex as (r & Hin & Hr).
    apply andb_true_iff in Hr as [Hm Hk].
    rewrite (Hrec r Hin Hm) in Hk. discriminate.
  - intros Htext. unfold isRecordingProcessed, textDates in *.
    rewrite scanRecording_exists. apply existsb_ext_in.
    intros r Hin. unfold rowMatches.
    rewrite forallb_forall in Htext.
    now rewrite (normalizedDate_text r (Htext r Hin)).
Qed.

Definition recordingRow (t d files : string) : row :=
  {| topicCell := CStr t; dateCell := CStr d; filesCell := CStr files;
     locationCell := CStr "folder"; transferCell := CDate 19740;
     hostCell := CStr "host@example.org" |}.

(** A ledger holding the pair ("Standup", "Unknown Date") as a
    recording row only. *)
Definition recordingOnlySheet : sheet :=
  [headerRow; recordingRow "Standup" "Unknown Date" "Video, Audio"].

Lemma lookup_per_kind_witness :
  textDates recordingOnlySheet = true
  /\ isSummaryProcessed "Standup" "Unknown Date" recordingOnlySheet = false
  /\ isRecordingProcessed "Standup" "Unknown Date" recordingOnlySheet = true.
Proof.
  pose proof (lookup_per_kind recordingOnlySheet "Standup" "Unknown Date")
    as (_ & Hsum & Hrec).
  split; [reflexivity|]. split.
  - apply Hsum. intros r [<-|[]] _. reflexivity.
  - rewrite (Hrec eq_refl). reflexivity.
Defined.

(** A ledger holding the pair ("Budget", "Unknown Date") as a summary
    row only. *)
Definition summaryOnlySheet : sheet :=
  [headerRow; recordingRow "Budget" "Unknown Date" "AI Summary"].

(** C4 as stated fails: the pair is present only as a summary row, no
    row of the recording kind records it, and the recording-kind lookup
    returns true. *)
Lemma recording_lookup_matches_summary_row :
  specIsProcessed RecordingKind "Budget" "Unknown Date" summaryOnlySheet = false
  /\ isProcessed RecordingKind "Budget" "Unknown Date" summaryOnlySheet = true
  /\ isProcessed RecordingKind "Budget" "Unknown Date" summaryOnlySheet
     <> specIsProcessed RecordingKind "Budget" "Unknown Date" summaryOnlySheet.
Proof.
  split; [reflexivity|]. split; [reflexivity|]. vm_compute. discriminate.
Qed.

(** A data row whose date cell holds the date 2024-01-15. *)
Definition datedRow (files : string) : row :=
  {| topicCell := CStr "Standup"; dateCell := CDate 19737;
     filesCell := CStr files; locationCell := CStr "folder";
     transferCell := CDate 19740; hostCell := CStr "host@example.org" |}.

(** C3 at its failing input.  The date cell holds a structured date
    whose "yyyy-MM-dd" form is the queried date.  The summary lookup
    normalizes it and finds the row; the recording lookup compares the
    cell as it is and does not. *)
Theorem recording_lookup_skips_normalization :
  normalizedDate (CDate 19737) = CStr "2024-01-15"
  /\ isSummaryProcessed "Standup" "2024-01-15"
       [headerRow; datedRow "AI Summary"] = true
  /\ isRecordingProcessed "Standup" "2024-01-15"
       [headerRow; datedRow "Video"] = false
  /\ specIsProcessed RecordingKind "Standup" "2024-01-15"
       [headerRow; datedRow "Video"] = true.
Proof. repeat split; reflexivity. Qed.

End LedgerProofs.

Module OrchestratorProofs.
Import JsDate Ledger Orchestrator.

Definition isDeletion (e : event) : bool :=
  match e with
  | DeleteRecording _ => true
  | _ => false
  end.

(** The file loop creates one file per entry it pushes. *)
Lemma transferFiles_creates (env : Env) (tok date t folderId : string)
  (files : list RecordingFile) :
  length (fst (transferFiles env tok date t folderId files))
  = length (snd (transferFiles env tok date t folderId files)).
Proof.
  induction files as [|file rest IH]; cbn [transferFiles]; [reflexivity|].
  destruct (optionEqb (option_map toLowerCase (file_extension file)) "json");
    [exact IH|].
  destruct (download_url file) as [u|]; [|exact IH].
  destruct (truthy u); [|exact IH].
  destruct (transferFile _ _ _ _ _) as [[p c]|]; [|exact IH].
  cbn [fst snd length]. now rewrite IH.
Qed.

Lemma transferFiles_no_deletion (env : Env) (tok date t folderId : string)
  (files : list RecordingFile) (meetingId : string) :
  ~ In (DeleteRecording meetingId)
       (snd (transferFiles env tok date t folderId files)).
Proof.
  induction files as [|file rest IH]; cbn [transferFiles]; [intros []|].
  destruct (optionEqb (option_map toLowerCase (file_extension file)) "json");
    [exact IH|].
  destruct (download_url file) as [u|]; [|exact IH].
  destruct (truthy u); [|exact IH].
  destruct (transferFile _ _ _ _ _) as [[p c]|]; [|exact IH].
  cbn [snd]. intros [H|H]; [discriminate|now apply IH].
Qed.

Lemma transferFiles_none_pushed (env : Env) (tok date t folderId : string)
  (files : list RecordingFile) :
  fst (transferFiles env tok date t folderId files) = [] ->
  snd (transferFiles env tok date t folderId files) = [].
Proof.
  pose proof (transferFiles_creates env tok date t folderId files) as H.
  intros Hnone. rewrite Hnone in H.
  destruct (snd (transferFiles env tok date t folderId files));
    [reflexivity|discriminate].
Qed.

Lemma filesTransferredOf_no_deletion (cfg : Config) (env : Env)
  (tok : string) (recording : Recording) (folderId meetingId : string) :
  ~ In (DeleteRecording meetingId)
       (snd (filesTransferredOf cfg env tok recording folderId)).
Proof.
  unfold filesTransferredOf.
  destruct (recording_files recording); [|intros []].
  apply transferFiles_no_deletion.
Qed.

Lemma filesTransferredOf_none (cfg : Config) (env : Env)
  (tok : string) (recording : Recording) (folderId : string) :
  fst (filesTransferredOf cfg env tok recording folderId) = [] ->
  snd (filesTransferredOf cfg env tok recording folderId) = [].
Proof.
  unfold filesTransferredOf.
  destruct (recording_files recording); [|reflexivity].
  apply transferFiles_none_pushed.
Qed.

(** The calls of a recording that is processed into [folderId], as the
    function issues them: the folder, the uploads, the deletion when
    its condition holds, the row. *)
Lemma processRecording_processed (cfg : Config) (env : Env) (tok : string)
  (recording : Recording) (sh : sheet) (folderId : string) :
  isRecordingProcessed (meetingTopicOf cfg recording) (meetingDateOf recording)
    sh = false ->
  createDriveFolder env
    (meetingDateOf recording ++ "_" ++ meetingTopicOf cfg recording)%string
    (FolderRouter.getDestinationFolderId cfg (meetingTopicOf cfg recording))
    = Some folderId ->
  let files := filesTransferredOf cfg env tok recording folderId in
  let values :=
    rowData (meetingTopicOf cfg recording) (meetingDateOf recording)
      (join ", " (fst files))
      (meetingDateOf recording ++ "_" ++ meetingTopicOf cfg recording)%string
      (today env) (orElse (host_email recording) "Unknown Host") in
  processRecording cfg env tok recording sh =
  (appendRow (parseOnWrite env) sh values,
   EnsureFolder
     (meetingDateOf recording ++ "_" ++ meetingTopicOf cfg recording)%string
     (FolderRouter.getDestinationFolderId cfg (meetingTopicOf cfg recording))
   :: snd files
   ++ (if DELETE_AFTER_TRANSFER cfg && negb (Nat.eqb (length (fst files)) 0)
       then [DeleteRecording (uuid recording)] else [])
   ++ [AppendRow values]).
Proof.
  intros Hnew Hfolder files values. unfold processRecording.
  rewrite Hnew, Hfolder. subst values files.
  destruct (filesTransferredOf cfg env tok recording folderId) as [ft ups].
  reflexivity.
Qed.

(** C2.  For every recording handed to [processRecording], under a
    prefix the embedding covers: a deletion request appears among the
    calls only when delete-after-transfer is enabled and at least one
    file was transferred, it is the item's own, and it comes after the
    uploads and before the row is logged; when the item is not skipped
    as already logged and its folder is available but no file is
    transferred, no deletion is requested, whatever the flag, and the
    item is still logged, as the only call after the folder lookup,
    with an empty file-types summary. *)
Theorem processRecording_deletion_gate (cfg : Config) (env : Env)
  (accessToken : string) (recording : Recording) (sh : sheet) :
  TopicPrefix.literalSource (TOPIC_PREFIX_TO_REMOVE cfg) = true ->
  let meetingTopic := meetingTopicOf cfg recording in
  let meetingDate := meetingDateOf recording in
  let folderName := (meetingDate ++ "_" ++ meetingTopic)%string in
  let parentId := FolderRouter.getDestinationFolderId cfg meetingTopic in
  let out := processRecording cfg env accessToken recording sh in
  (forall meetingId, In (DeleteRecording meetingId) (snd out) ->
     DELETE_AFTER_TRANSFER cfg = true
     /\ meetingId = uuid recording
     /\ exists folderId uploads values,
          createDriveFolder env folderName parentId = Some folderId
          /\ fst (filesTransferredOf cfg env accessToken recording folderId)
             <> []
          /\ uploads
             = snd (filesTransferredOf cfg env accessToken recording folderId)
          /\ snd out = EnsureFolder folderName parentId :: uploads
                       ++ [DeleteRecording meetingId; AppendRow values])
  /\ (forall folderId,
        isRecordingProcessed meetingTopic meetingDate sh = false ->
        createDriveFolder env folderName parentId = Some folderId ->
        fst (filesTransferredOf cfg env accessToken recording folderId) = [] ->
        (forall meetingId, ~ In (DeleteRecording meetingId) (snd out))
        /\ exists values,
             snd out = [EnsureFolder folderName parentId; AppendRow values]
             /\ filesCell values = CStr EmptyString
             /\ topicCell values = CStr meetingTopic
             /\ fst out = appendRow (parseOnWrite env) sh values).
Proof.
  intros _ meetingTopic meetingDate folderName parentId out. split.
  - intros meetingId Hin. subst out.
    destruct (isRecordingProcessed meetingTopic meetingDate sh) eqn:Hnew.
    { unfold processRecording in Hin. fold meetingTopic meetingDate in Hin.
      rewrite Hnew in Hin. destruct Hin. }
    destruct (createDriveFolder env folderName parentId) as [folderId|] eqn:Hf.
    2:{ unfold processRecording in Hin.
        fold meetingTopic meetingDate folderName parentId in Hin.
        rewrite Hnew, Hf in Hin. destruct Hin as [H|[]]. discriminate. }
    rewrite (processRecording_processed cfg env accessToken recording sh
               folderId Hnew Hf) in Hin |- *.
    cbn [snd] in Hin |- *.
    destruct Hin as [H|Hin]; [discriminate|].
    apply in_app_or in Hin as [Hin|Hin];
      [now apply filesTransferredOf_no_deletion in Hin|].
    apply in_app_or in Hin as [Hin|[H|[]]]; [|discriminate].
    destruct (DELETE_AFTER_TRANSFER cfg); [|destruct Hin].
    destruct (fst (filesTransferredOf cfg env accessToken recording folderId))
      as [|f fs] eqn:Hfiles; [destruct Hin|].
    cbn [andb length Nat.eqb negb] in Hin |- *.
    destruct Hin as [H|[]]. inversion H; subst meetingId.
    split; [reflexivity|]. split; [reflexivity|].
    eexists folderId, _, _. split; [reflexivity|].
    split; [rewrite Hfiles; discriminate|]. split; reflexivity.
  - intros folderId Hnew Hf Hnone. subst out.
    rewrite (processRecording_processed cfg env accessToken recording sh
               folderId Hnew Hf).
    rewrite Hnone, (filesTransferredOf_none _ _ _ _ _ Hnone).
    cbn [length Nat.eqb negb andb app fst snd]. rewrite andb_false_r.
    cbn [app]. split.
    + intros meetingId [H|[H|[]]]; discriminate.
    + eexists. split; [reflexivity|]. split; [reflexivity|].
      split; reflexivity.
Qed.

(** When a row just logged is found again: the sheet must have kept
    the topic as the text written and the date cell as the text of the
    queried date. *)
Lemma logged_item_lookup (parse : string -> cell) (sh : sheet)
  (t d files folderName host : string) (day : Z) :
  sh <> [] ->
  isRecordingProcessed t d
    (appendRow parse sh (rowData t d files folderName day host))
  = isRecordingProcessed t d sh
    || cellIs (parse t) t && cellIs (parse (formattedMeetingDate d)) d.
Proof.
  intros Hne. destruct sh as [|header rows]; [congruence|]. clear Hne.
  unfold isRecordingProcessed, appendRow. cbn [app tl].
  induction rows as [|r rest IH].
  - cbn [app scanRecording storedRow rowData topicCell dateCell stored orb].
    now destruct (cellIs (parse t) t && cellIs (parse (formattedMeetingDate d)) d).
  - cbn [app scanRecording].
    destruct (cellIs (topicCell r) t && cellIs (dateCell r) d);
      [reflexivity|exact IH].
Qed.

(** The script's own settings. *)
Definition standupConfig (deleteAfter : bool) : Config :=
  {| DAYS_TO_FETCH := 2; DELETE_AFTER_TRANSFER := deleteAfter;
     FOLDER_MAPPING := [("operations", "F1"); ("council", "F2")];
     DEFAULT_FOLDER_ID := "F0"; TOPIC_PREFIX_TO_REMOVE := "Org" |}.

(** A deployment in which every download answers [status]. *)
Definition driveEnv (status : Z) (parse : string -> cell) : Env :=
  {| httpGet := fun _ => Response status "media";
     httpDelete := fun _ => Response 204 EmptyString;
     ensureFolder := fun name _ => Some ("folder:" ++ name)%string;
     createFile := fun name _ => Some ("file:" ++ name)%string;
     parseOnWrite := parse;
     today := 19740 |}.

Definition standupRecording : Recording :=
  {| uuid := "uuid-1"; topic := Some "Org | Standup";
     start_time := Some "2024-01-15T10:00:00Z";
     host_email := Some "host@example.org";
     recording_files :=
       Some [ {| file_type := Some "MP4"; file_extension := Some "MP4";
                 download_url := Some "https://zoom.example/d/1" |} ] |}.

Lemma processRecording_deletion_gate_witness :
  TopicPrefix.literalSource (TOPIC_PREFIX_TO_REMOVE (standupConfig true)) = true
  /\ (forall meetingId,
        ~ In (DeleteRecording meetingId)
             (snd (processRecording (standupConfig true) (driveEnv 404 CStr)
                     "token" standupRecording [headerRow])))
  /\ exists values,
       snd (processRecording (standupConfig true) (driveEnv 404 CStr)
              "token" standupRecording [headerRow])
       = [EnsureFolder "2024-01-15_Standup" "F0"; AppendRow values]
       /\ filesCell values = CStr EmptyString.
Proof.
  split; [reflexivity|].
  destruct (processRecording_deletion_gate (standupConfig true)
              (driveEnv 404 CStr) "token" standupRecording [headerRow]
              eq_refl) as [_ H].
  destruct (H "folder:2024-01-15_Standup"%string eq_refl eq_refl eq_refl)
    as (Hno & values & Hev & Hfiles & _ & _).
  split; [exact Hno|]. exists values. split; [exact Hev|exact Hfiles].
Defined.

(** How a spreadsheet in a locale that reads "MM-dd-yyyy" as a date
    interprets a text typed into a cell. *)
Definition parseUsDates (s : string) : cell :=
  match split "-" s with
  | [m; d; y] =>
      match numeral m, numeral d, numeral y with
      | Some mv, Some dv, Some yv =>
          if ((1 <=? mv) && (mv <=? 12) && (1 <=? dv) && (dv <=? 31))%Z
          then CDate (daysFromCivil yv mv dv) else CStr s
      | _, _, _ => CStr s
      end
  | _ => CStr s
  end.

(** The calls of one run over [standupRecording] with the recording
    kept at the source. *)
Definition standupCalls (dateCellWritten : cell) : list event :=
  [EnsureFolder "2024-01-15_Standup" "F0";
   CreateFile "2024-01-15_Standup_video.mp4" "folder:2024-01-15_Standup";
   AppendRow
     {| topicCell := CStr "Standup"; dateCell := dateCellWritten;
        filesCell := CStr "Video"; locationCell := CStr "2024-01-15_Standup";
        transferCell := CDate 19740; hostCell := CStr "host@example.org" |}].

(** Two runs of [processRecording] over the same item, the second on
    the sheet the first leaves. *)
Definition twoRuns (cfg : Config) (env : Env) (recording : Recording)
  : (sheet * list event) * (sheet * list event) :=
  let first := processRecording cfg env "token" recording [headerRow] in
  (first, processRecording cfg env "token" recording (fst first)).

(** C1 at its failing input.  The first run logs the item with the date
    written as "01-15-2024"; whether the sheet keeps that text or reads
    it as a date, the lookup of the second run compares the cell with
    "2024-01-15", finds nothing, and the item is uploaded and logged a
    second time. *)
Theorem processRecording_second_run_repeats :
  (let '(first, second) :=
     twoRuns (standupConfig false) (driveEnv 200 CStr) standupRecording in
   snd first = standupCalls (CStr "01-15-2024")
   /\ isRecordingProcessed "Standup" "2024-01-15" (fst first) = false
   /\ snd second = standupCalls (CStr "01-15-2024")
   /\ length (fst first) = 2%nat /\ length (fst second) = 3%nat)
  /\
  (let '(first, second) :=
     twoRuns (standupConfig false) (driveEnv 200 parseUsDates)
       standupRecording in
   map dateCell (tl (fst first)) = [CDate 19737]
   /\ isRecordingProcessed "Standup" "2024-01-15" (fst first) = false
   /\ snd second = standupCalls (CStr "01-15-2024")
   /\ length (fst first) = 2%nat /\ length (fst second) = 3%nat).
Proof. split; vm_compute; repeat split; reflexivity. Qed.

(** Where the written date keeps its form, the second run is a no-op:
    an item without start time is logged under "Unknown Date". *)
Lemma processRecording_skips_logged (cfg : Config) (env : Env)
  (tok : string) (recording : Recording) (sh : sheet) :
  isRecordingProcessed (meetingTopicOf cfg recording) (meetingDateOf recording)
    sh = true ->
  processRecording cfg env tok recording sh = (sh, []).
Proof. intros H. unfold processRecording. now rewrite H. Qed.

End OrchestratorProofs.

Module FetchProofs.
Import JsDate Windowing Orchestrator Fetch.

(** *** The member id and the summary requests *)

(** The chunk loop uses the member id in its log lines only. *)
Lemma chunkLoop_member {A : Type}
  (fetch : string -> string -> outcome (list A) * list request)
  (startText endText : Z -> string) (u1 u2 numChunksText : string)
  (ws : list (Z * Z)) :
  forall (i : Z) (all : list A),
  fst (chunkLoop fetch startText endText u1 numChunksText ws i all)
  = fst (chunkLoop fetch startText endText u2 numChunksText ws i all).
Proof.
  induction ws as [|[s e] rest IH]; intros i all; [reflexivity|].
  cbn [chunkLoop].
  destruct (fetch (startText s) (endText e)) as [[items| |] reqs];
    [|reflexivity|reflexivity].
  specialize (IH (i + 1)%Z (all ++ items)).
  destruct (chunkLoop fetch startText endText u1 numChunksText rest
              (i + 1)%Z (all ++ items)) as [[r1 q1] l1].
  destruct (chunkLoop fetch startText endText u2 numChunksText rest
              (i + 1)%Z (all ++ items)) as [[r2 q2] l2].
  cbn [fst] in IH |- *. now inversion IH.
Qed.

Lemma perMember_member {A : Type}
  (fetch : string -> string -> outcome (list A) * list request)
  (startText endText : Z -> string) (what u1 u2 : string) (cfg : Config)
  (today : Z) :
  result (perMember fetch startText endText what u1 cfg today)
  = result (perMember fetch startText endText what u2 cfg today)
  /\ sent (perMember fetch startText endText what u1 cfg today)
     = sent (perMember fetch startText endText what u2 cfg today).
Proof.
  unfold perMember.
  pose proof (chunkLoop_member fetch startText endText u1 u2
                (showZ (numChunks (DAYS_TO_FETCH cfg)))
                (windows today (DAYS_TO_FETCH cfg)) 0%Z []) as H.
  destruct (chunkLoop fetch startText endText u1 _ _ _ _) as [[r1 q1] l1].
  destruct (chunkLoop fetch startText endText u2 _ _ _ _) as [[r2 q2] l2].
  cbn [fst] in H. inversion H; subst.
  destruct r2; split; reflexivity.
Qed.

(** Once the summary loop returns, a larger budget changes nothing. *)
Lemma summariesLoop_more_fuel (srv : server) (tok fromDate toDate : string)
  (fuel extra : nat) :
  forall (token : string) (acc found : list Summary),
  fst (summariesLoop fuel srv tok fromDate toDate token acc) = Returned found ->
  summariesLoop (fuel + extra) srv tok fromDate toDate token acc
  = summariesLoop fuel srv tok fromDate toDate token acc.
Proof.
  induction fuel as [|fuel IH]; intros token acc found H; [discriminate|].
  cbn [Nat.add summariesLoop] in H |- *.
  destruct (srv _) as [code text|]; [|reflexivity].
  destruct (code =? 200)%Z; [|reflexivity].
  destruct text as [? ?|sm [t|]| |]; try reflexivity.
  destruct (truthy t); [|reflexivity].
  match goal with
  | |- context [summariesLoop (fuel + extra) _ _ _ _ ?a ?b] =>
      specialize (IH a b)
  end.
  destruct (summariesLoop fuel srv tok fromDate toDate t _) as [res reqs].
  cbn [fst] in H, IH.
  destruct res as [l| |]; try discriminate.
  now rewrite (IH l eq_refl).
Qed.

Lemma summariesPresented_repeat (fuel : nat) (cfg : Config) (srv : server)
  (today : Z) (tok : string) (u : string) (found : list Summary)
  (users : list User) :
  result (getZoomSummariesForUser fuel cfg srv today tok u) = Returned found ->
  summariesPresented fuel cfg srv today tok users
  = Returned (concat (map (fun _ => found) users)).
Proof.
  intros H. induction users as [|user rest IH]; [reflexivity|].
  cbn [summariesPresented map concat].
  unfold getZoomSummariesForUser in *.
  destruct (perMember_member (fetchSummariesForDateRange fuel srv tok)
              (fun d => (formatIso d ++ "T00:00:00Z")%string)
              (fun d => (formatIso d ++ "T23:59:59Z")%string)
              "summaries" (id user) u cfg today) as [Hres _].
  rewrite Hres, H, IH. reflexivity.
Qed.

Lemma concat_repeat_length {A : Type} {B : Type} (found : list A)
  (users : list B) :
  length (concat (map (fun _ => found) users))
  = (length users * length found)%nat.
Proof.
  induction users as [|u rest IH]; [reflexivity|].
  cbn [map concat length]. rewrite length_app, IH. reflexivity.
Qed.

(** C10.  The per-member summary fetch sends the same requests and
    ends the same way for any two member ids: the id appears in no
    request.  So when it returns a list for one member it returns that
    list for every member, and the run hands the orchestrator that list
    once per enumerated member, each summary as many times as there are
    members. *)
Theorem getZoomSummariesForUser_ignores_member (fuel : nat) (cfg : Config)
  (srv : server) (today : Z) (accessToken : string) :
  (forall u1 u2,
     result (getZoomSummariesForUser fuel cfg srv today accessToken u1)
     = result (getZoomSummariesForUser fuel cfg srv today accessToken u2)
     /\ sent (getZoomSummariesForUser fuel cfg srv today accessToken u1)
        = sent (getZoomSummariesForUser fuel cfg srv today accessToken u2))
  /\ (forall u found users,
        result (getZoomSummariesForUser fuel cfg srv today accessToken u)
        = Returned found ->
        summariesPresented fuel cfg srv today accessToken users
        = Returned (concat (map (fun _ => found) users))
        /\ length (concat (map (fun _ => found) users))
           = (length users * length found)%nat
        /\ forall user, In user users ->
             result (getZoomSummariesForUser fuel cfg srv today accessToken
                       (id user)) = Returned found).
Proof.
  split.
  - intros u1 u2. apply perMember_member.
  - intros u found users H. split; [|split].
    + now apply summariesPresented_repeat with (u := u).
    + apply concat_repeat_length.
    + intros user _. rewrite <- H. apply perMember_member.
Qed.

Definition twoDayConfig : Config :=
  {| DAYS_TO_FETCH := 2; DELETE_AFTER_TRANSFER := false;
     FOLDER_MAPPING := [("operations", "F1")];
     DEFAULT_FOLDER_ID := "F0"; TOPIC_PREFIX_TO_REMOVE := EmptyString |}.

Definition summaryOf (key : string) : Summary :=
  {| meeting_uuid := key; meeting_topic := Some "Standup";
     meeting_host_email := Some "host@example.org";
     summary_created_time := Some "2024-01-15T11:00:00Z" |}.

(** A platform with two summaries on one page. *)
Definition summaryServer : server :=
  fun req =>
    if includes (url req) "/meetings/meeting_summaries"
    then Reply 200 (SummariesPage (Some [summaryOf "s1"; summaryOf "s2"]) None)
    else Reply 404 Unparsable.

Definition alice : User := {| id := "alice"; email := "alice@example.org" |}.
Definition bob : User := {| id := "bob"; email := "bob@example.org" |}.

Lemma getZoomSummariesForUser_ignores_member_witness :
  result (getZoomSummariesForUser 3 twoDayConfig summaryServer 19740 "token"
            "alice") = Returned [summaryOf "s1"; summaryOf "s2"]
  /\ summariesPresented 3 twoDayConfig summaryServer 19740 "token" [alice; bob]
     = Returned [summaryOf "s1"; summaryOf "s2"; summaryOf "s1"; summaryOf "s2"]
  /\ logged (getZoomSummariesForUser 3 twoDayConfig summaryServer 19740 "token"
               "alice")
     <> logged (getZoomSummariesForUser 3 twoDayConfig summaryServer 19740
                  "token" "bob").
Proof.
  assert (result (getZoomSummariesForUser 3 twoDayConfig summaryServer 19740
                    "token" "alice") = Returned [summaryOf "s1"; summaryOf "s2"])
    as H by reflexivity.
  split; [exact H|]. split.
  - destruct (getZoomSummariesForUser_ignores_member 3 twoDayConfig
                summaryServer 19740 "token") as [_ Hall].
    destruct (Hall "alice" _ [alice; bob] H) as [Hp _]. exact Hp.
  - vm_compute. discriminate.
Defined.

(** *** Failures while fetching *)

Definition meetingOf (key : string) : Recording :=
  {| uuid := key; topic := Some "Standup";
     start_time := Some "2024-01-15T10:00:00Z";
     host_email := Some "host@example.org"; recording_files := None |}.

(** A platform whose first recordings page holds one meeting and
    announces a second page, the request for which fails; its summary
    listing behaves alike. *)
Definition secondPageFails : server :=
  fun req =>
    if includes (url req) "/recordings?" then
      if includes (url req) "page_number=1"
      then Reply 200 (RecordingsPage (Some [meetingOf "m1"]) (Some 2))
      else RequestFails
    else if includes (url req) "/meetings/meeting_summaries" then
      if includes (url req) "next_page_token"
      then RequestFails
      else Reply 200 (SummariesPage (Some [summaryOf "s1"]) (Some "page2"))
    else Reply 404 Unparsable.

(** The same platform answering the second page with status 500. *)
Definition secondPageError : server :=
  fun req =>
    if includes (url req) "/recordings?" then
      if includes (url req) "page_number=1"
      then Reply 200 (RecordingsPage (Some [meetingOf "m1"]) (Some 2))
      else Reply 500 Unparsable
    else Reply 404 Unparsable.

Definition longConfig : Config :=
  {| DAYS_TO_FETCH := 45; DELETE_AFTER_TRANSFER := false;
     FOLDER_MAPPING := [("operations", "F1")];
     DEFAULT_FOLDER_ID := "F0"; TOPIC_PREFIX_TO_REMOVE := EmptyString |}.

(** A platform answering the latest window (it ends on 2024-01-18) with
    one meeting, and failing the request for the window before it. *)
Definition earlierWindowFails : server :=
  fun req =>
    if includes (url req) "/recordings?" then
      if includes (url req) "to=2024-01-18"
      then Reply 200 (RecordingsPage (Some [meetingOf "m1"]) (Some 1))
      else RequestFails
    else Reply 404 Unparsable.

(** C8 at its failing inputs.  A failed request on the second page of a
    recordings window leaves [fetchRecordingsForDateRange] as an
    exception, and the per-member fetch returns the empty list: the
    meeting of the first page is lost, and so is the meeting of an
    earlier window.  A non-success response keeps it, and the summary
    fetch keeps its first page under the same failure. *)
Theorem recordings_request_failure_loses_items :
  fst (fetchRecordingsForDateRange 5 secondPageFails "token" "alice"
         "2024-01-16" "2024-01-18") = Thrown
  /\ result (getZoomRecordingsForUser 5 twoDayConfig secondPageFails 19740
               "token" "alice") = Returned []
  /\ result (getZoomRecordingsForUser 5 longConfig earlierWindowFails 19740
               "token" "alice") = Returned []
  /\ result (getZoomRecordingsForUser 5 twoDayConfig secondPageError 19740
               "token" "alice") = Returned [meetingOf "m1"]
  /\ result (getZoomSummariesForUser 5 twoDayConfig secondPageFails 19740
               "token" "alice") = Returned [summaryOf "s1"].
Proof. repeat split; vm_compute; reflexivity. Qed.

(** The summary loop never throws, and what it returns starts with what
    it had gathered: every failure ends it with the items collected so
    far. *)
Lemma summariesLoop_keeps_gathered (fuel : nat) (srv : server)
  (tok fromDate toDate : string) :
  forall (token : string) (acc : list Summary),
  fst (summariesLoop fuel srv tok fromDate toDate token acc) <> Thrown
  /\ forall found,
       fst (summariesLoop fuel srv tok fromDate toDate token acc)
       = Returned found -> exists more, found = acc ++ more.
Proof.
  induction fuel as [|fuel IH]; intros token acc;
    [split; [discriminate|intros ? H; discriminate]|].
  cbn [summariesLoop].
  assert (Hstop : forall reqs : list request,
            fst (Returned acc, reqs) <> Thrown
            /\ forall found, fst (Returned acc, reqs) = Returned found ->
                 exists more, found = acc ++ more).
  { intros reqs. split; [discriminate|]. cbn [fst]. intros found H.
    inversion H. exists []. now rewrite app_nil_r. }
  destruct (srv _) as [code text|]; [|apply Hstop].
  destruct (code =? 200)%Z; [|apply Hstop].
  destruct text as [? ?|sm tk| |]; try apply Hstop.
  set (acc' := match sm with Some (s :: ss) => acc ++ s :: ss | _ => acc end).
  assert (Hacc : exists more, acc' = acc ++ more).
  { subst acc'. destruct sm as [[|s ss]|];
      [exists []; now rewrite app_nil_r|now exists (s :: ss)
      |exists []; now rewrite app_nil_r]. }
  destruct Hacc as [more0 Hacc].
  assert (Hstop' : forall reqs : list request,
            fst (Returned acc', reqs) <> Thrown
            /\ forall found, fst (Returned acc', reqs) = Returned found ->
                 exists more, found = acc ++ more).
  { intros reqs. split; [discriminate|]. cbn [fst]. intros found H.
    inversion H. now exists more0. }
  destruct tk as [t|]; [|apply Hstop'].
  destruct (truthy t); [|apply Hstop'].
  specialize (IH t acc').
  destruct (summariesLoop fuel srv tok fromDate toDate t acc') as [res reqs].
  cbn [fst] in IH |- *. destruct IH as [Hnt Hpre]. split; [exact Hnt|].
  intros found H. destruct (Hpre found H) as [more Hm].
  exists (more0 ++ more). now rewrite Hm, Hacc, app_assoc.
Qed.

(** In the recordings loop a non-success response ends the pagination
    with the items gathered so far. *)
Lemma recordingsLoop_error_response (fuel : nat) (srv : server)
  (tok userId fromDate toDate : string) (page : Z) (acc : list Recording)
  (code : Z) (text : content) :
  srv {| url := ("https://api.zoom.us/v2/users/" ++ userId ++ "/recordings"
                 ++ "?from=" ++ fromDate ++ "&to=" ++ toDate
                 ++ "&page_size=100&page_number=" ++ showZ page)%string;
         bearer := tok |} = Reply code text ->
  code <> 200%Z ->
  fst (recordingsLoop (S fuel) srv tok userId fromDate toDate page acc)
  = Returned acc.
Proof.
  intros Hsrv Hcode. cbn [recordingsLoop]. rewrite Hsrv.
  apply Z.eqb_neq in Hcode. now rewrite Hcode.
Qed.

(** A request that fails leaves the recordings loop as an exception,
    whatever was gathered. *)
Lemma recordingsLoop_request_fails (fuel : nat) (srv : server)
  (tok userId fromDate toDate : string) (page : Z) (acc : list Recording) :
  srv {| url := ("https://api.zoom.us/v2/users/" ++ userId ++ "/recordings"
                 ++ "?from=" ++ fromDate ++ "&to=" ++ toDate
                 ++ "&page_size=100&page_number=" ++ showZ page)%string;
         bearer := tok |} = RequestFails ->
  fst (recordingsLoop (S fuel) srv tok userId fromDate toDate page acc)
  = Thrown.
Proof. intros Hsrv. cbn [recordingsLoop]. now rewrite Hsrv. Qed.

End FetchProofs.

(* ================================================================== *)
(** ** Further properties of the caption formatter *)
(* ================================================================== *)

Module TranscriptExtras.
Import Transcript TranscriptProofs.

Definition blankLine : string := String "010" (String "010" EmptyString).

(** The text produced is the rendering of the merged runs of the
    utterances of the document. *)
Lemma conversion_runs (vttContent : string) :
  convertTranscriptToText vttContent =
  join blankLine
    (map renderRun (mergeRuns (utterances (split "010" vttContent)))).
Proof.
  unfold convertTranscriptToText.
  rewrite fold_step_utterances, loop_from_start; [reflexivity|].
  apply utterances_truthy.
Qed.

(** *** Nothing said is lost *)

(** The utterances a list of runs stands for. *)
Definition unmerge (runs : list (string * list string))
  : list (string * string) :=
  flat_map (fun run => map (pair (fst run)) (snd run)) runs.

Lemma unmerge_mergeRuns (us : list (string * string)) :
  unmerge (mergeRuns us) = us.
Proof.
  induction us as [|[sp stmt] rest IH]; [reflexivity|].
  cbn [mergeRuns].
  destruct (mergeRuns rest) as [|[sp' stmts] runs].
  - cbn in IH |- *. now rewrite <- IH.
  - destruct (String.eqb sp sp') eqn:E.
    + apply String.eqb_eq in E. subst sp'.
      cbn in IH |- *. now rewrite IH.
    + cbn in IH |- *. now rewrite IH.
Qed.

Lemma mergeRuns_nonempty_runs (us : list (string * string)) :
  Forall (fun run => snd run <> []) (mergeRuns us).
Proof.
  induction us as [|[sp stmt] rest IH]; [constructor|].
  cbn [mergeRuns].
  destruct (mergeRuns rest) as [|[sp' stmts] runs].
  - constructor; [discriminate|constructor].
  - inversion IH; subst.
    destruct (String.eqb sp sp'); constructor;
      try discriminate; try assumption.
Qed.

(** X1.  The entries of the output, taken apart again, are the speaker lines
    of the document, each once and in order: merging loses, repeats and
    reorders nothing, no entry is without a statement, and neighbouring
    entries have different speakers. *)
Theorem convertTranscriptToText_keeps_statements (vttContent : string) :
  exists runs,
    convertTranscriptToText vttContent = join blankLine (map renderRun runs)
    /\ unmerge runs = utterances (split "010" vttContent)
    /\ Forall (fun run => snd run <> []) runs
    /\ speakersAlternate runs.
Proof.
  exists (mergeRuns (utterances (split "010" vttContent))).
  split; [apply conversion_runs|]. split; [apply unmerge_mergeRuns|].
  split; [apply mergeRuns_nonempty_runs|apply mergeRuns_alternate].
Qed.

(** *** Empty output *)

Lemma join_cons_nonempty (sep e : string) (rest : list string) :
  e <> EmptyString -> join sep (e :: rest) <> EmptyString.
Proof.
  intros He. destruct rest as [|y l]; [exact He|].
  rewrite join_cons2. destruct e; [congruence|discriminate].
Qed.

(** X2.  The output is empty exactly when the document has no speaker line:
    headers, timestamps, cue numbers, blank lines and lines without a
    usable colon give no text at all. *)
Theorem convertTranscriptToText_empty (vttContent : string) :
  convertTranscriptToText vttContent = EmptyString
  <-> utterances (split "010" vttContent) = [].
Proof.
  rewrite conversion_runs. split.
  - destruct (utterances (split "010" vttContent)) as [|[sp stmt] rest];
      [reflexivity|].
    intros H. exfalso.
    destruct (mergeRuns_head sp stmt rest) as (stmts & runs & Hm).
    rewrite Hm in H. cbn [map] in H.
    apply (join_cons_nonempty blankLine (renderRun (sp, stmts))
             (map renderRun runs)); [|exact H].
    unfold renderRun, entry. cbn [fst snd].
    destruct sp; discriminate.
  - intros ->. reflexivity.
Qed.

(** A document of a header, a cue number, a timestamp and a line
    without colon has no speaker line. *)
Definition captionsWithoutSpeech : string :=
  "WEBVTT" ++ String "010" (String "010" "1") ++
  String "010" "00:00:01.000 --> 00:00:02.000" ++
  String "010" "[music]" ++ String "010" "".

Lemma convertTranscriptToText_empty_witness :
  utterances (split "010" captionsWithoutSpeech) = []
  /\ convertTranscriptToText captionsWithoutSpeech = EmptyString.
Proof.
  split; [reflexivity|].
  apply (proj2 (convertTranscriptToText_empty captionsWithoutSpeech)).
  reflexivity.
Defined.

End TranscriptExtras.

Module TranscriptIdempotence.
Import Transcript TranscriptProofs TranscriptExtras.

(** [lacks c s]: the character [c] does not occur in [s]. *)
Fixpoint lacks (c : ascii) (s : string) : bool :=
  match s with
  | EmptyString => true
  | String d r => negb (Ascii.eqb d c) && lacks c r
  end.

Lemma append_assoc3 (x y z : string) :
  ((x ++ y) ++ z = x ++ (y ++ z))%string.
Proof. induction x as [|c x IH]; simpl; congruence. Qed.

Lemma lacks_app (c : ascii) (x y : string) :
  lacks c (x ++ y)%string = lacks c x && lacks c y.
Proof.
  induction x as [|d x IH]; [reflexivity|].
  simpl. rewrite IH. now rewrite andb_assoc.
Qed.

Lemma cut_parts (c : ascii) (s a b : string) :
  cutAtFirst c s = Some (a, b) ->
  lacks c a = true /\ s = (a ++ String c b)%string.
Proof.
  revert a b. induction s as [|d r IH]; intros a b H; simpl in H;
    [discriminate|].
  destruct (Ascii.eqb d c) eqn:E.
  - inversion H; subst. apply Ascii.eqb_eq in E. subst. now split.
  - destruct (cutAtFirst c r) as [[a' b']|]; [|discriminate].
    inversion H; subst. destruct (IH a' b eq_refl) as [Hl Hs].
    split; [simpl; now rewrite E, Hl|simpl; now rewrite <- Hs].
Qed.

Lemma cut_app (c : ascii) (x r : string) :
  lacks c x = true -> cutAtFirst c (x ++ String c r)%string = Some (x, r).
Proof.
  induction x as [|d x IH]; intros H; simpl in *.
  - now rewrite Ascii.eqb_refl.
  - apply andb_true_iff in H as [Hd Hx]. apply negb_true_iff in Hd.
    now rewrite Hd, (IH Hx).
Qed.

Lemma lacks_no_cut (c : ascii) (s : string) :
  lacks c s = true -> cutAtFirst c s = None.
Proof.
  induction s as [|d r IH]; intros H; simpl in *; [reflexivity|].
  apply andb_true_iff in H as [Hd Hr]. apply negb_true_iff in Hd.
  now rewrite Hd, (IH Hr).
Qed.

Lemma lacks_trimStart (c : ascii) (s : string) :
  lacks c s = true -> lacks c (trimStart s) = true.
Proof.
  induction s as [|d r IH]; intros H; [reflexivity|].
  cbn [trimStart]. destruct (isWhitespace d); [|exact H].
  simpl in H. apply andb_true_iff in H as [_ Hr]. now apply IH.
Qed.

Lemma lacks_trimEnd (c : ascii) (s : string) :
  lacks c s = true -> lacks c (trimEnd s) = true.
Proof.
  induction s as [|d r IH]; intros H; [reflexivity|].
  cbn [trimEnd]. simpl in H. apply andb_true_iff in H as [Hd Hr].
  destruct (isWhitespace d && isEmpty (trimEnd r)); [reflexivity|].
  simpl. now rewrite Hd, (IH Hr).
Qed.

Lemma lacks_trim (c : ascii) (s : string) :
  lacks c s = true -> lacks c (trim s) = true.
Proof. intros H. unfold trim. now apply lacks_trimEnd, lacks_trimStart. Qed.

Lemma split_lacks (c : ascii) (s : string) :
  Forall (fun piece => lacks c piece = true) (split c s).
Proof.
  induction s as [|d r IH]; [repeat constructor|].
  cbn [split]. destruct (Ascii.eqb d c) eqn:E.
  - constructor; [reflexivity|exact IH].
  - destruct (split c r) as [|h t]; [repeat constructor; simpl; now rewrite E|].
    inversion IH; subst. constructor; [|assumption].
    simpl. rewrite E. assumption.
Qed.

Lemma split_lacking (c : ascii) (e : string) :
  lacks c e = true -> split c e = [e].
Proof. intros H. apply split_no_cut. now apply lacks_no_cut. Qed.

Lemma split_app_sep (c : ascii) (e rest : string) :
  lacks c e = true ->
  split c (e ++ String c rest)%string = e :: split c rest.
Proof. intros H. apply split_cut. now apply cut_app. Qed.

(** *** Trimmed texts *)

Definition startsClean (s : string) : bool :=
  match s with
  | EmptyString => true
  | String c _ => negb (isWhitespace c)
  end.

Lemma trimStart_startsClean (s : string) : startsClean (trimStart s) = true.
Proof.
  induction s as [|c r IH]; [reflexivity|].
  cbn [trimStart]. destruct (isWhitespace c) eqn:E; [exact IH|].
  simpl. now rewrite E.
Qed.

Lemma startsClean_trimStart (s : string) :
  startsClean s = true -> trimStart s = s.
Proof.
  destruct s as [|c r]; [reflexivity|]. simpl. intros H.
  apply negb_true_iff in H. now rewrite H.
Qed.

Lemma trimEnd_startsClean (s : string) :
  startsClean s = true -> startsClean (trimEnd s) = true.
Proof.
  destruct s as [|c r]; [reflexivity|]. simpl. intros H.
  apply negb_true_iff in H. rewrite H. simpl. now rewrite H.
Qed.

Lemma trimEnd_idem (s : string) : trimEnd (trimEnd s) = trimEnd s.
Proof.
  induction s as [|c r IH]; [reflexivity|].
  cbn [trimEnd].
  destruct (isWhitespace c && isEmpty (trimEnd r)) eqn:E; [reflexivity|].
  cbn [trimEnd]. rewrite IH, E. reflexivity.
Qed.

Lemma trimEnd_app (x z : string) :
  trimEnd z <> EmptyString -> trimEnd (x ++ z)%string = (x ++ trimEnd z)%string.
Proof.
  intros Hz. induction x as [|c x IH]; [reflexivity|].
  cbn [append trimEnd]. rewrite IH.
  destruct (x ++ trimEnd z)%string eqn:E.
  - destruct x; [simpl in E; congruence|discriminate].
  - cbn [isEmpty]. now rewrite andb_false_r.
Qed.

Lemma trimEnd_prefix (a : string) :
  exists tail, a = (trimEnd a ++ tail)%string.
Proof.
  induction a as [|c r [tail IH]]; [now exists EmptyString|].
  cbn [trimEnd].
  destruct (isWhitespace c && isEmpty (trimEnd r)).
  - now exists (String c r).
  - exists tail. simpl. now rewrite <- IH.
Qed.

(** A text that is not empty and that [trim] leaves as it is. *)
Definition tidy (s : string) : Prop :=
  truthy s = true /\ startsClean s = true /\ trimEnd s = s.

Lemma tidy_trim (s : string) : tidy s -> trim s = s.
Proof.
  intros (_ & Hs & He). unfold trim. now rewrite (startsClean_trimStart s Hs).
Qed.

Lemma trim_tidy (s : string) : truthy (trim s) = true -> tidy (trim s).
Proof.
  intros H. split; [exact H|]. unfold trim. split.
  - apply trimEnd_startsClean, trimStart_startsClean.
  - apply trimEnd_idem.
Qed.

Lemma tidy_nonempty (s : string) : tidy s -> s <> EmptyString.
Proof. intros (H & _) ->. discriminate. Qed.

Lemma tidy_app (x mid y : string) :
  tidy x -> tidy y -> tidy (x ++ mid ++ y)%string.
Proof.
  intros (Hx & Hxs & _) Hy.
  pose proof (tidy_nonempty y Hy) as Hne. destruct Hy as (_ & _ & Hye).
  split; [|split].
  - destruct x; [discriminate|reflexivity].
  - destruct x; [discriminate|exact Hxs].
  - rewrite <- append_assoc3, trimEnd_app; rewrite Hye; [reflexivity|exact Hne].
Qed.

Lemma tidy_join (stmts : list string) :
  stmts <> [] -> Forall tidy stmts -> tidy (join " " stmts).
Proof.
  induction stmts as [|s rest IH]; [congruence|].
  intros _ H. inversion H as [|? ? Hs Hrest]; subst.
  destruct rest as [|s2 rest']; [exact Hs|].
  rewrite join_cons2. apply tidy_app; [exact Hs|].
  apply IH; [discriminate|exact Hrest].
Qed.

Lemma lacks_join (c : ascii) (stmts : list string) :
  lacks c " " = true -> Forall (fun s => lacks c s = true) stmts ->
  lacks c (join " " stmts) = true.
Proof.
  intros Hsp. induction stmts as [|s rest IH]; intros H; [reflexivity|].
  inversion H as [|? ? Hs Hrest]; subst.
  destruct rest as [|s2 rest']; [exact Hs|].
  rewrite join_cons2, !lacks_app, Hs, Hsp, (IH Hrest). reflexivity.
Qed.

(** *** What the utterances and the runs of a document look like *)

Definition newline : ascii := "010"%char.

Definition speakerOk (sp : string) : Prop :=
  tidy sp /\ lacks ":" sp = true /\ lacks newline sp = true
  /\ isHeaderLine sp = false.

Definition stmtOk (s : string) : Prop := tidy s /\ lacks newline s = true.

Definition runOk (run : string * list string) : Prop :=
  speakerOk (fst run) /\ snd run <> [] /\ Forall stmtOk (snd run).

Lemma prefix_app (p x y : string) :
  String.prefix p x = true -> String.prefix p (x ++ y)%string = true.
Proof.
  revert x. induction p as [|c p IH]; intros x H;
    [now destruct (x ++ y)%string|].
  destruct x as [|d x]; [discriminate|].
  simpl in *. destruct (ascii_dec c d); [now apply IH|discriminate].
Qed.

Lemma utterance_ok (line sp stmt : string) :
  lacks newline line = true -> startsClean line = true ->
  skipped line = false -> utterance line = Some (sp, stmt) ->
  speakerOk sp /\ stmtOk stmt.
Proof.
  intros Hnl Hclean Hskip Hu. unfold utterance in Hu.
  destruct (cutAtFirst ":" line) as [[a b]|] eqn:Hcut; [|discriminate].
  destruct (cut_parts _ _ _ _ Hcut) as [Hca Hline].
  destruct (isEmpty (trim a)) eqn:Ea; [discriminate|].
  destruct (isEmpty (trim b)) eqn:Eb; [discriminate|].
  cbn [orb] in Hu. inversion Hu; subst sp stmt. clear Hu.
  rewrite Hline, lacks_app in Hnl. apply andb_true_iff in Hnl as [Hna Hnb].
  simpl in Hnb.
  assert (Ha : startsClean a = true).
  { destruct a as [|c a']; [reflexivity|]. rewrite Hline in Hclean.
    exact Hclean. }
  split; [split; [|split; [|split]]|split].
  - apply trim_tidy. unfold truthy. now rewrite Ea.
  - now apply lacks_trim.
  - now apply lacks_trim.
  - apply not_true_is_false. intros Hh.
    unfold isHeaderLine, startsWith, trim in Hh.
    rewrite (startsClean_trimStart a Ha) in Hh.
    destruct (trimEnd_prefix a) as [tail Htail].
    apply (prefix_app _ _ tail) in Hh. rewrite <- Htail in Hh.
    apply (prefix_app _ _ (String ":" b)) in Hh. rewrite <- Hline in Hh.
    unfold skipped, isHeaderLine, startsWith in Hskip. rewrite Hh in Hskip.
    discriminate.
  - apply trim_tidy. unfold truthy. now rewrite Eb.
  - now apply lacks_trim.
Qed.

Lemma utterances_ok (lines : list string) :
  Forall (fun l => lacks newline l = true) lines ->
  Forall (fun u => speakerOk (fst u) /\ stmtOk (snd u)) (utterances lines).
Proof.
  induction 1 as [|raw rest Hraw Hrest IH]; [constructor|].
  cbn [utterances].
  destruct (skipped (trim raw)) eqn:Hs; [exact IH|].
  destruct (utterance (trim raw)) as [[sp stmt]|] eqn:Hu; [|exact IH].
  constructor; [|exact IH]. cbn [fst snd].
  apply (utterance_ok (trim raw)); try assumption.
  - now apply lacks_trim.
  - unfold trim. apply trimEnd_startsClean, trimStart_startsClean.
Qed.

Lemma mergeRuns_ok (us : list (string * string)) :
  Forall (fun u => speakerOk (fst u) /\ stmtOk (snd u)) us ->
  Forall runOk (mergeRuns us).
Proof.
  induction 1 as [|[sp stmt] rest [Hsp Hst] Hrest IH]; [constructor|].
  cbn [mergeRuns fst snd] in *.
  destruct (mergeRuns rest) as [|[sp' stmts] runs].
  - constructor; [|constructor].
    split; [exact Hsp|]. split; [discriminate|]. now constructor.
  - inversion IH as [|? ? (Hsp' & Hne & Hall) Hruns]; subst.
    cbn [fst snd] in *.
    destruct (String.eqb sp sp').
    + constructor; [|exact Hruns].
      split; [exact Hsp|]. split; [discriminate|]. now constructor.
    + constructor; [|exact IH].
      split; [exact Hsp|]. split; [discriminate|]. now constructor.
Qed.

(** *** An entry read back as a line *)

Definition collapsed (run : string * list string) : string * string :=
  (fst run, join " " (snd run)).

Lemma allDigits_app (x y : string) :
  allDigits (x ++ y)%string = allDigits x && allDigits y.
Proof.
  induction x as [|c x IH]; [reflexivity|].
  simpl. rewrite IH. now rewrite andb_assoc.
Qed.

Lemma prefix_before (p s r : string) (c : ascii) :
  lacks c p = true ->
  String.prefix p (s ++ String c r)%string = true -> String.prefix p s = true.
Proof.
  revert s. induction p as [|d p IH]; intros s Hp H; [now destruct s|].
  simpl in Hp. apply andb_true_iff in Hp as [Hd Hp'].
  apply negb_true_iff in Hd.
  destruct s as [|e s].
  - simpl in H. destruct (ascii_dec d c) as [->|Hne]; [|discriminate].
    rewrite Ascii.eqb_refl in Hd. discriminate.
  - simpl in H |- *. destruct (ascii_dec d e); [|discriminate].
    now apply (IH s).
Qed.

Lemma entry_not_timestamp (sp rest : string) :
  lacks ":" sp = true ->
  isTimestampLine (sp ++ ": " ++ rest)%string = false.
Proof.
  intros Hsp.
  destruct sp as [|c0 [|c1 [|c2 sp3]]].
  - cbn [append isTimestampLine].
    destruct rest as [|? [|? [|? [|? [|? [|? ?]]]]]]; reflexivity.
  - cbn [append isTimestampLine].
    destruct rest as [|? [|? [|? [|? [|? ?]]]]]; try reflexivity.
    destruct (isDigit c0); reflexivity.
  - cbn [append isTimestampLine].
    destruct rest as [|? [|? [|? [|? ?]]]]; try reflexivity.
    destruct (isDigit c0), (isDigit c1); reflexivity.
  - simpl in Hsp. apply andb_true_iff in Hsp as [_ Hsp].
    apply andb_true_iff in Hsp as [_ Hsp].
    apply andb_true_iff in Hsp as [H2 _]. apply negb_true_iff in H2.
    cbn [append isTimestampLine]. rewrite H2.
    generalize (sp3 ++ String ":" (String " " rest))%string. intros tail.
    destruct tail as [|? [|? [|? [|? [|? ?]]]]]; try reflexivity.
    destruct (isDigit c0), (isDigit c1); reflexivity.
Qed.

Lemma entry_line (run : string * list string) :
  runOk run ->
  let line := renderRun run in
  lacks newline line = true /\ trim line = line
  /\ skipped line = false /\ utterance line = Some (collapsed run).
Proof.
  destruct run as [sp stmts]. intros ((Hsp & Hcolon & Hnl & Hhead) & Hne & Hall).
  cbn [fst snd] in *. unfold renderRun, entry. cbn [fst snd].
  assert (HJ : tidy (join " " stmts)).
  { apply tidy_join; [exact Hne|].
    eapply Forall_impl; [|exact Hall]. now intros s [Hs _]. }
  assert (HJn : lacks newline (join " " stmts) = true).
  { apply lacks_join; [reflexivity|].
    eapply Forall_impl; [|exact Hall]. now intros s [_ Hs]. }
  assert (Hline : tidy (sp ++ ": " ++ join " " stmts)%string)
    by now apply tidy_app.
  split; [|split; [|split]].
  - rewrite !lacks_app, Hnl, HJn. reflexivity.
  - now apply tidy_trim.
  - unfold skipped.
    assert (isHeaderLine (sp ++ ": " ++ join " " stmts)%string = false) as ->.
    { apply not_true_is_false. intros H.
      unfold isHeaderLine, startsWith in *.
      apply prefix_before in H; [congruence|reflexivity]. }
    rewrite entry_not_timestamp by assumption.
    unfold isSequenceLine. rewrite allDigits_app.
    replace (allDigits (": " ++ join " " stmts)%string) with false
      by reflexivity.
    rewrite !andb_false_r. cbn [orb].
    destruct Hsp as (Ht & _). destruct sp; [discriminate|reflexivity].
  - unfold utterance. change (sp ++ ": " ++ join " " stmts)%string
      with (sp ++ String ":" (String " " (join " " stmts)))%string.
    rewrite (cut_app ":" sp _ Hcolon).
    rewrite (tidy_trim sp Hsp).
    assert (trim (String " " (join " " stmts)) = join " " stmts) as ->.
    { unfold trim. cbn [trimStart]. replace (isWhitespace " ") with true
        by reflexivity.
      fold (trim (join " " stmts)). now apply tidy_trim. }
    destruct Hsp as (Ht & _). destruct HJ as (HJt & _).
    unfold truthy in Ht, HJt. apply negb_true_iff in Ht, HJt.
    rewrite Ht, HJt. reflexivity.
Qed.

Lemma utterances_of_entries (runs : list (string * list string)) :
  Forall runOk runs ->
  utterances (split newline (join blankLine (map renderRun runs)))
  = map collapsed runs.
Proof.
  induction 1 as [|run rest Hrun Hrest IH]; [reflexivity|].
  destruct (entry_line run Hrun) as (Hnl & Htrim & Hskip & Hu).
  cbn [map]. destruct rest as [|run2 rest'].
  - cbn [map]. change (join blankLine [renderRun run]) with (renderRun run).
    rewrite (split_lacking _ _ Hnl). cbn [utterances].
    now rewrite Htrim, Hskip, Hu.
  - cbn [map] in IH |- *. rewrite join_cons2.
    change (renderRun run ++ blankLine ++ ?x)%string
      with (renderRun run ++ String newline (String newline x))%string.
    rewrite (split_app_sep _ _ _ Hnl).
    cbn [split]. rewrite Ascii.eqb_refl.
    cbn [utterances]. rewrite Htrim, Hskip, Hu.
    change (skipped (trim "")) with true. cbn iota.
    now rewrite IH.
Qed.

Lemma mergeRuns_collapsed (runs : list (string * list string)) :
  speakersAlternate runs ->
  mergeRuns (map collapsed runs)
  = map (fun run => (fst run, [join " " (snd run)])) runs.
Proof.
  induction runs as [|run rest IH]; intros Halt; [reflexivity|].
  destruct rest as [|run2 rest']; [reflexivity|].
  destruct Halt as [Hne Halt]. destruct run as [sp stmts].
  change (map collapsed ((sp, stmts) :: run2 :: rest'))
    with ((sp, join " " stmts) :: map collapsed (run2 :: rest')).
  rewrite mergeRuns_cons, (IH Halt). cbn [map prependRun fst snd] in Hne |- *.
  apply String.eqb_neq in Hne. now rewrite Hne.
Qed.

(** X3.  Running the formatter on its own output changes nothing: every
    entry is read back as one speaker line, and no two neighbouring
    entries merge. *)
Theorem convertTranscriptToText_idempotent (vttContent : string) :
  convertTranscriptToText (convertTranscriptToText vttContent)
  = convertTranscriptToText vttContent.
Proof.
  rewrite (conversion_runs vttContent).
  set (runs := mergeRuns (utterances (split "010" vttContent))).
  assert (Hok : Forall runOk runs).
  { apply mergeRuns_ok, utterances_ok, (split_lacks newline). }
  rewrite conversion_runs.
  change (split "010" ?x) with (split newline x).
  rewrite (utterances_of_entries runs Hok).
  rewrite mergeRuns_collapsed by apply mergeRuns_alternate.
  rewrite map_map. reflexivity.
Qed.

End TranscriptIdempotence.

(* ================================================================== *)
(** ** Further properties of routing and prefix stripping *)
(* ================================================================== *)

Module FolderRouterExtras.
Import JsObject FolderRouter FolderRouterProofs.

Lemma insertByIndex_In (e x : N * (string * string))
  (l : list (N * (string * string))) :
  In x (insertByIndex e l) <-> x = e \/ In x l.
Proof.
  induction l as [|h t IH]; cbn [insertByIndex].
  - simpl. intuition congruence.
  - destruct (fst e <=? fst h)%N; cbn [In]; [intuition congruence|].
    rewrite IH. intuition congruence.
Qed.

Lemma indexed_In (o : object) (kv : string * string) :
  In kv (map snd (indexed o)) <-> In kv o /\ isArrayIndex (fst kv) = true.
Proof.
  induction o as [|kv' rest IH]; cbn [indexed].
  - simpl. tauto.
  - unfold isArrayIndex in *.
    destruct (arrayIndex (fst kv')) as [n|] eqn:E.
    + rewrite in_map_iff. split.
      * intros ([m x] & Hx & Hin). cbn [snd] in Hx. subst x.
        apply insertByIndex_In in Hin as [Heq|Hin].
        -- inversion Heq; subst. split; [now left|]. now rewrite E.
        -- assert (In kv (map snd (indexed rest))) as H
             by (apply in_map_iff; now exists (m, kv)).
           apply IH in H as [H1 H2]. split; [now right|exact H2].
      * intros [[Heq|Hin] Hidx].
        -- subst kv'. exists (n, kv). split; [reflexivity|].
           apply insertByIndex_In. now left.
        -- assert (In kv (map snd (indexed rest))) as H by now apply IH.
           apply in_map_iff in H as ([m x] & Hx & Hin').
           cbn [snd] in Hx. subst x. exists (m, kv). split; [reflexivity|].
           apply insertByIndex_In. now right.
    + rewrite IH. split.
      * intros [H1 H2]. split; [now right|exact H2].
      * intros [[Heq|Hin] Hidx]; [|now split].
        subst kv'. rewrite E in Hidx. discriminate.
Qed.

(** Enumeration reorders the properties; it adds and drops none. *)
Lemma ownEntries_In (o : object) (kv : string * string) :
  In kv (ownEntries o) <-> In kv o.
Proof.
  unfold ownEntries. rewrite in_app_iff, indexed_In, filter_In.
  destruct (isArrayIndex (fst kv)); cbn [negb]; intuition congruence.
Qed.

Lemma define_In (k v : string) (o : object) (kv : string * string) :
  In kv (define k v o) -> kv = (k, v) \/ In kv o.
Proof.
  induction o as [|[k' v'] rest IH]; cbn [define].
  - intros [H|[]]. now left.
  - destruct (String.eqb k k').
    + intros [H|H]; [now left|right; now right].
    + intros [H|H]; [right; now left|].
      destruct (IH H) as [H'|H']; [now left|right; now right].
Qed.

Lemma define_key (k v : string) (o : object) :
  In k (map fst (define k v o)).
Proof.
  induction o as [|[k' v'] rest IH]; cbn [define]; [now left|].
  destruct (String.eqb k k'); [now left|now right].
Qed.

Lemma define_keeps_keys (k v k0 : string) (o : object) :
  In k0 (map fst o) -> In k0 (map fst (define k v o)).
Proof.
  induction o as [|[k' v'] rest IH]; cbn [define]; [intros []|].
  destruct (String.eqb k k') eqn:E.
  - apply String.eqb_eq in E. subst k'. intros [H|H]; [now left|now right].
  - intros [H|H]; [now left|right; now apply IH].
Qed.

Lemma fold_define_In (props : list (string * string)) :
  forall (acc : object) (kv : string * string),
  In kv (fold_left
           (fun o p => if definesProperty p then define (fst p) (snd p) o
                       else o) props acc) ->
  In kv acc \/ In kv (filter definesProperty props).
Proof.
  induction props as [|[k v] rest IH]; intros acc kv H; [now left|].
  cbn [fold_left filter] in H |- *.
  destruct (definesProperty (k, v)).
  - apply IH in H as [H|H]; [|right; now right].
    apply define_In in H as [H|H]; [right; now left|now left].
  - now apply IH in H.
Qed.

Lemma fold_define_keys (props : list (string * string)) :
  forall (acc : object) (k : string),
  In k (map fst acc) \/ In k (map fst (filter definesProperty props)) ->
  In k (map fst (fold_left
                   (fun o p => if definesProperty p
                               then define (fst p) (snd p) o else o)
                   props acc)).
Proof.
  induction props as [|[k' v'] rest IH]; intros acc k H.
  - destruct H as [H|[]]. exact H.
  - cbn [fold_left filter] in H |- *.
    destruct (definesProperty (k', v')).
    + apply IH. destruct H as [H|[H|H]].
      * left. now apply define_keeps_keys.
      * cbn [fst] in H. subst k'. left. apply define_key.
      * now right.
    + now apply IH.
Qed.

Lemma firstMatch_cases (topicLower defaultId : string)
  (entries : list (string * string)) :
  (forallb (fun kv => negb (includes topicLower (toLowerCase (fst kv))))
           entries = true
   /\ firstMatch topicLower entries defaultId = defaultId)
  \/ exists kv, In kv entries
       /\ includes topicLower (toLowerCase (fst kv)) = true
       /\ firstMatch topicLower entries defaultId = snd kv.
Proof.
  induction entries as [|[k v] rest IH]; [now left|].
  cbn [firstMatch forallb fst].
  destruct (includes topicLower (toLowerCase k)) eqn:E.
  - right. exists (k, v). split; [now left|]. now split.
  - destruct IH as [[H1 H2]|(kv & Hin & Hm & Hr)].
    + left. now split.
    + right. exists kv. split; [now right|]. now split.
Qed.

(** X4.  Whatever the keywords and their order.  Of the configured
    pairs, those define a property whose keyword is not [__proto__].
    When the keyword of no such pair occurs in the topic the resolver
    returns the default folder id, and otherwise it returns the folder
    that some such pair gives to a keyword occurring in the topic.  It
    never returns an id from anywhere else. *)
Theorem getDestinationFolderId_matching (cfg : Config) (topic : string) :
  let defined := filter definesProperty (FOLDER_MAPPING cfg) in
  (forallb (fun kv => negb (keywordOccurs topic (fst kv))) defined = true
   /\ getDestinationFolderId cfg topic = DEFAULT_FOLDER_ID cfg)
  \/ exists kv, In kv defined
       /\ keywordOccurs topic (fst kv) = true
       /\ getDestinationFolderId cfg topic = snd kv.
Proof.
  intros defined. unfold getDestinationFolderId.
  destruct (firstMatch_cases (toLowerCase topic) (DEFAULT_FOLDER_ID cfg)
              (ownEntries (ofLiteral (FOLDER_MAPPING cfg))))
    as [[Hnone Hr]|(kv & Hin & Hm & Hr)].
  - left. split; [|exact Hr].
    apply forallb_forall. intros [k v] Hkv.
    assert (In k (map fst (ownEntries (ofLiteral (FOLDER_MAPPING cfg)))))
      as Hk.
    { assert (In k (map fst (ofLiteral (FOLDER_MAPPING cfg)))) as Hk'.
      { apply fold_define_keys. right. apply in_map_iff.
        now exists (k, v). }
      apply in_map_iff in Hk' as (kv' & Hf & Hin').
      apply in_map_iff. exists kv'. split; [exact Hf|].
      now apply ownEntries_In. }
    apply in_map_iff in Hk as ([k' v'] & Hf & Hin'). cbn [fst] in Hf.
    subst k'. rewrite forallb_forall in Hnone.
    exact (Hnone (k, v') Hin').
  - right. exists kv. split; [|now split].
    apply (proj1 (ownEntries_In _ _)) in Hin. unfold ofLiteral in Hin.
    apply fold_define_In in Hin as [[]|H]. exact H.
Qed.

End FolderRouterExtras.

Module TopicPrefixExtras.
Import TopicPrefix TopicPrefixProofs.

Lemma startsWith_split (topic p : string) :
  startsWith topic p = true -> exists rest, topic = (p ++ rest)%string.
Proof.
  unfold startsWith. revert topic.
  induction p as [|c p IH]; intros topic H; [now exists topic|].
  destruct topic as [|d topic]; [discriminate|]. simpl in H.
  destruct (ascii_dec c d) as [->|]; [|discriminate].
  destruct (IH topic H) as [rest ->]. now exists rest.
Qed.

(** X5.  Stripping only ever takes the prefix and its separator off the
    front.  With an empty prefix, or a topic that does not start with
    the prefix, the topic is returned as it is; otherwise the result is
    the topic itself or what follows the prefix and a separator of one
    or three characters: the rest of the topic is kept character for
    character. *)
Theorem stripTopicPrefix_front_only (cfg : Config) (topic : string) :
  literalSource (TOPIC_PREFIX_TO_REMOVE cfg) = true ->
  let prefix := TOPIC_PREFIX_TO_REMOVE cfg in
  (truthy prefix && startsWith topic prefix = false ->
   stripTopicPrefix cfg topic = topic)
  /\ (stripTopicPrefix cfg topic = topic
      \/ exists sep,
           topic = (prefix ++ sep ++ stripTopicPrefix cfg topic)%string
           /\ (String.length sep = 1 \/ String.length sep = 3)).
Proof.
  intros _ prefix. split.
  - intros H. unfold stripTopicPrefix. fold prefix. now rewrite H.
  - destruct (truthy prefix && startsWith topic prefix) eqn:E.
    2:{ left. unfold stripTopicPrefix. fold prefix. now rewrite E. }
    apply andb_true_iff in E as [Hp Hs].
    destruct (startsWith_split topic prefix Hs) as [rest ->].
    subst prefix. rewrite (stripTopicPrefix_rest cfg rest Hp).
    destruct rest as [|a rest]; [now left|].
    cbn [matchAtoms atomMatches].
    destruct (isWhitespace a) eqn:Ea; [|now left].
    assert (Hone : exists sep,
              (TOPIC_PREFIX_TO_REMOVE cfg ++ String a rest)%string
              = (TOPIC_PREFIX_TO_REMOVE cfg ++ sep ++ rest)%string
              /\ (String.length sep = 1 \/ String.length sep = 3)).
    { exists (String a EmptyString). split; [reflexivity|now left]. }
    destruct rest as [|b rest]; [now right|].
    destruct (Ascii.eqb b "|") eqn:Eb; [|now right].
    destruct rest as [|c rest]; [now right|].
    destruct (isWhitespace c); [|now right].
    right. exists (String a (String b (String c EmptyString))).
    split; [reflexivity|now right].
Qed.

Lemma stripTopicPrefix_front_only_witness :
  stripTopicPrefix orgConfig "Weekly Org Sync" = "Weekly Org Sync"
  /\ exists sep, "Org | Org Sync"
       = ("Org" ++ sep ++ stripTopicPrefix orgConfig "Org | Org Sync")%string
       /\ String.length sep = 3.
Proof.
  destruct (stripTopicPrefix_front_only orgConfig "Weekly Org Sync" eq_refl)
    as [H _].
  split; [exact (H eq_refl)|].
  exists " | ". split; reflexivity.
Defined.

End TopicPrefixExtras.

(* ================================================================== *)
(** ** Further properties of the date windows *)
(* ================================================================== *)

Module WindowingExtras.
Import Windowing WindowingProofs.
Open Scope Z_scope.

Lemma windows_In_nth (today days : Z) (i : nat) :
  (i < Z.to_nat (numChunks days))%nat ->
  In (chunk today days (Z.of_nat i)) (windows today days).
Proof.
  intros Hi. rewrite <- (windows_nth today days i Hi).
  apply nth_In. now rewrite windows_length.
Qed.

Lemma windows_In_chunk (today days : Z) (w : Z * Z) :
  In w (windows today days) ->
  exists i, 0 <= i < numChunks days /\ w = chunk today days i.
Proof.
  unfold windows, iterations. rewrite map_map. intros H.
  apply in_map_iff in H as (k & Hw & Hin). apply in_seq in Hin.
  exists (Z.of_nat k). split; [lia|now symmetry].
Qed.

(** On day numbers, for a lookback of at least one day, the windows
    tile the range: every window lies between the from-date and today
    and spans 1 to 30 days, each later window ends on the day the one
    before it starts, and every day from the from-date to today falls
    in some window. *)
Lemma dayWindows_tile (today days : Z) :
  1 <= days ->
  let ws := windows today days in
  let fromDate := today - days in
  (forall w, In w ws ->
     fromDate <= fst w /\ snd w <= today /\ 1 <= snd w - fst w <= 30)
  /\ (forall i, (S i < length ws)%nat ->
        snd (nth (S i) ws (0, 0)) = fst (nth i ws (0, 0)))
  /\ (forall day, fromDate <= day <= today ->
        exists w, In w ws /\ fst w <= day <= snd w).
Proof.
  intros Hdays ws fromDate.
  pose proof (numChunks_bounds days) as Hb. unfold chunkSize in Hb.
  split; [|split].
  - intros w Hw. apply windows_In_chunk in Hw as (i & Hi & ->).
    unfold chunk, chunkSize. fold fromDate.
    destruct (Z.ltb_spec (today - i * 30 - 30) fromDate); cbn [fst snd];
      subst fromDate; lia.
  - intros i Hi. subst ws. rewrite windows_length in Hi.
    rewrite !windows_nth by lia. unfold chunk, chunkSize. fold fromDate.
    cbn [fst snd].
    destruct (Z.ltb_spec (today - Z.of_nat i * 30 - 30) fromDate);
      subst fromDate; lia.
  - intros day Hday.
    set (k := (today - day) / 30).
    pose proof (Z.div_mod (today - day) 30 ltac:(lia)) as Hdm.
    pose proof (Z.mod_pos_bound (today - day) 30 ltac:(lia)) as Hmod.
    fold k in Hdm.
    set (i := Z.min k (numChunks days - 1)).
    assert (Hi : 0 <= i < numChunks days) by (subst i fromDate; lia).
    exists (chunk today days i). split.
    + replace i with (Z.of_nat (Z.to_nat i)) by lia.
      apply windows_In_nth. lia.
    + unfold chunk, chunkSize. fold fromDate.
      destruct (Z.ltb_spec (today - i * 30 - 30) fromDate); cbn [fst snd];
        subst i fromDate; lia.
Qed.

End WindowingExtras.

(* ================================================================== *)
(** ** Further properties of the fetchers *)
(* ================================================================== *)

Module FetchExtras.
Import JsDate Windowing Orchestrator Fetch.

(** *** Host e-mails *)





(** Filling in the host e-mail changes nothing else and keeps the
    order. *)
Lemma withHostEmails_same (srv : server) (userId tok : string)
  (meetings : list Recording) :
  map (fun r => (uuid r, topic r, start_time r, recording_files r))
      (fst (withHostEmails srv userId tok meetings))
  = map (fun r => (uuid r, topic r, start_time r, recording_files r))
        meetings.
Proof.
  induction meetings as [|m rest IH]; [reflexivity|].
  cbn [withHostEmails].
  destruct (withHostEmails srv userId tok rest) as [rest' reqs].
  cbn [fst] in IH.
  destruct (getUserEmailById srv userId tok) as [found req].
  destruct (host_email m) as [e|]; [destruct (truthy e)|];
    cbn [fst map]; now rewrite IH.
Qed.







(** *** Termination of the recordings pagination *)

(** Every page count the platform announces is at most [n]. *)
Definition pageCountsBelow (srv : server) (n : Z) : Prop :=
  forall req code meetings pc,
    srv req = Reply code (RecordingsPage meetings (Some pc)) -> (pc <= n)%Z.

Lemma recordingsLoop_ends (srv : server) (n : Z)
  (tok userId fromDate toDate : string) :
  pageCountsBelow srv n ->
  forall (fuel : nat) (page : Z) (acc : list Recording),
  (n - page < Z.of_nat fuel)%Z -> (0 < fuel)%nat ->
  fst (recordingsLoop fuel srv tok userId fromDate toDate page acc)
  <> OutOfFuel.
Proof.
  intros Hsrv. induction fuel as [|fuel IH]; intros page acc Hn Hpos; [lia|].
  cbn [recordingsLoop].
  destruct (srv _) as [code text|] eqn:Hreply; [|discriminate].
  destruct (code =? 200)%Z; [|discriminate].
  destruct text as [meetings pc| | |]; try discriminate.
  destruct (match meetings with
            | Some (m :: ms) => withHostEmails srv userId tok (m :: ms)
            | _ => ([], [])
            end) as [added emailReqs].
  destruct (morePages pc page) eqn:Hmore; [|discriminate].
  destruct pc as [pc|]; [|discriminate]. cbn [morePages] in Hmore.
  apply Z.ltb_lt in Hmore. pose proof (Hsrv _ _ _ _ Hreply) as Hpc.
  specialize (IH (page + 1)%Z (acc ++ added) ltac:(lia) ltac:(lia)).
  destruct (recordingsLoop fuel srv tok userId fromDate toDate (page + 1)%Z
              (acc ++ added)) as [res reqs].
  exact IH.
Qed.

(** Once the recordings loop ends, a larger budget changes nothing. *)
Lemma recordingsLoop_more_fuel (srv : server)
  (tok userId fromDate toDate : string) (fuel extra : nat) :
  forall (page : Z) (acc : list Recording),
  fst (recordingsLoop fuel srv tok userId fromDate toDate page acc)
  <> OutOfFuel ->
  recordingsLoop (fuel + extra) srv tok userId fromDate toDate page acc
  = recordingsLoop fuel srv tok userId fromDate toDate page acc.
Proof.
  induction fuel as [|fuel IH]; intros page acc H; [now cbn in H|].
  cbn [Nat.add recordingsLoop] in H |- *.
  destruct (srv _) as [code text|]; [|reflexivity].
  destruct (code =? 200)%Z; [|reflexivity].
  destruct text as [meetings pc| | |]; try reflexivity.
  destruct (match meetings with
            | Some (m :: ms) => withHostEmails srv userId tok (m :: ms)
            | _ => ([], [])
            end) as [added emailReqs].
  destruct (morePages pc page); [|reflexivity].
  specialize (IH (page + 1)%Z (acc ++ added)).
  destruct (recordingsLoop fuel srv tok userId fromDate toDate (page + 1)%Z
              (acc ++ added)) as [res reqs].
  cbn [fst] in H, IH. now rewrite IH.
Qed.

Lemma chunkLoop_ext {A : Type}
  (fetch1 fetch2 : string -> string -> outcome (list A) * list request)
  (startText endText : Z -> string) (userId numChunksText : string) :
  (forall a b, fetch1 a b = fetch2 a b) ->
  forall (ws : list (Z * Z)) (i : Z) (all : list A),
  chunkLoop fetch1 startText endText userId numChunksText ws i all
  = chunkLoop fetch2 startText endText userId numChunksText ws i all.
Proof.
  intros Hext. induction ws as [|[s e] rest IH]; intros i all; [reflexivity|].
  cbn [chunkLoop]. rewrite Hext.
  destruct (fetch2 (startText s) (endText e)) as [[items| |] reqs];
    try reflexivity.
  now rewrite IH.
Qed.

Lemma chunkLoop_ends {A : Type}
  (fetch : string -> string -> outcome (list A) * list request)
  (startText endText : Z -> string) (userId numChunksText : string) :
  (forall a b, fst (fetch a b) <> OutOfFuel) ->
  forall (ws : list (Z * Z)) (i : Z) (all : list A),
  fst (fst (chunkLoop fetch startText endText userId numChunksText ws i all))
  <> OutOfFuel.
Proof.
  intros Hfetch. induction ws as [|[s e] rest IH]; intros i all;
    [discriminate|].
  cbn [chunkLoop]. pose proof (Hfetch (startText s) (endText e)) as Hf.
  destruct (fetch (startText s) (endText e)) as [[items| |] reqs];
    [|discriminate|now cbn in Hf].
  specialize (IH (i + 1)%Z (all ++ items)).
  destruct (chunkLoop fetch startText endText userId numChunksText rest
              (i + 1)%Z (all ++ items)) as [[res reqs'] lines].
  exact IH.
Qed.

(** X8.  When the platform never announces more than [n] pages, the
    recordings fetch of a member ends: with room for max(1, n) pages
    per window it returns a list, and any larger budget gives the same
    run (result, requests and log lines). *)
Theorem getZoomRecordingsForUser_returns (n : Z) (fuel : nat) (cfg : Config)
  (srv : server) (today : Z) (accessToken userId : string) :
  pageCountsBelow srv n ->
  (n <= Z.of_nat fuel)%Z -> (1 <= fuel)%nat ->
  (exists found,
     result (getZoomRecordingsForUser fuel cfg srv today accessToken userId)
     = Returned found)
  /\ forall extra,
       getZoomRecordingsForUser (fuel + extra) cfg srv today accessToken userId
       = getZoomRecordingsForUser fuel cfg srv today accessToken userId.
Proof.
  intros Hsrv Hn Hpos.
  assert (Hends : forall a b,
            fst (fetchRecordingsForDateRange fuel srv accessToken userId a b)
            <> OutOfFuel).
  { intros a b. apply (recordingsLoop_ends srv n); [exact Hsrv|lia|lia]. }
  split.
  - unfold getZoomRecordingsForUser, perMember.
    pose proof (chunkLoop_ends
                  (fetchRecordingsForDateRange fuel srv accessToken userId)
                  formatIso formatIso userId
                  (showZ (numChunks (DAYS_TO_FETCH cfg))) Hends
                  (windows today (DAYS_TO_FETCH cfg)) 0%Z []) as H.
    destruct (chunkLoop _ _ _ _ _ _ _ _) as [[res reqs] lines].
    cbn [fst] in H. destruct res as [all| |]; cbn [result];
      [now exists all|now exists []|congruence].
  - intros extra. unfold getZoomRecordingsForUser, perMember.
    rewrite (chunkLoop_ext
               (fetchRecordingsForDateRange (fuel + extra) srv accessToken
                  userId)
               (fetchRecordingsForDateRange fuel srv accessToken userId));
      [reflexivity|].
    intros a b. apply recordingsLoop_more_fuel, Hends.
Qed.

Lemma getZoomRecordingsForUser_returns_witness :
  pageCountsBelow FetchProofs.secondPageError 2
  /\ result (getZoomRecordingsForUser 2 FetchProofs.twoDayConfig
               FetchProofs.secondPageError 19740 "token" "alice")
     = Returned [FetchProofs.meetingOf "m1"]
  /\ getZoomRecordingsForUser (2 + 5) FetchProofs.twoDayConfig
       FetchProofs.secondPageError 19740 "token" "alice"
     = getZoomRecordingsForUser 2 FetchProofs.twoDayConfig
         FetchProofs.secondPageError 19740 "token" "alice".
Proof.
  assert (H : pageCountsBelow FetchProofs.secondPageError 2).
  { intros req code meetings pc. unfold FetchProofs.secondPageError.
    destruct (includes (url req) "/recordings?"); [|discriminate].
    destruct (includes (url req) "page_number=1"); [|discriminate].
    intros E. inversion E. lia. }
  split; [exact H|].
  destruct (getZoomRecordingsForUser_returns 2 2 FetchProofs.twoDayConfig
              FetchProofs.secondPageError 19740 "token" "alice" H
              ltac:(lia) ltac:(lia)) as [_ Hmore].
  split; [reflexivity|apply Hmore].
Defined.

(** *** The summaries pagination has no bound of its own *)

(** The platform answers every request with a further page token. *)
Definition alwaysMore (srv : server) : Prop :=
  forall req, exists found token,
    srv req = Reply 200 (SummariesPage found (Some token))
    /\ truthy token = true.

Lemma summariesLoop_runs_on (srv : server) (tok fromDate toDate : string) :
  alwaysMore srv ->
  forall (fuel : nat) (token : string) (acc : list Summary),
  fst (summariesLoop fuel srv tok fromDate toDate token acc) = OutOfFuel.
Proof.
  intros Hsrv. induction fuel as [|fuel IH]; intros token acc; [reflexivity|].
  cbn [summariesLoop].
  match goal with |- context [srv ?r] => destruct (Hsrv r) as (f & t & -> & Ht)
  end.
  cbn [Z.eqb Pos.eqb]. rewrite Ht.
  match goal with
  | |- context [summariesLoop fuel _ _ _ _ ?a ?b] => specialize (IH a b)
  end.
  destruct (summariesLoop fuel srv tok fromDate toDate t _) as [res reqs].
  exact IH.
Qed.

(** X9.  The summaries loop stops only when a response comes without a page
    token (or fails): against a platform that keeps sending a token it
    never ends, whatever the number of pages already read, and so the
    per-member fetch never returns once it has a window to fetch. *)
Theorem fetchSummariesForDateRange_unbounded (srv : server) (cfg : Config)
  (today : Z) (accessToken userId : string) :
  alwaysMore srv -> (1 <= DAYS_TO_FETCH cfg)%Z ->
  forall fuel,
    (forall fromDate toDate,
       fst (fetchSummariesForDateRange fuel srv accessToken fromDate toDate)
       = OutOfFuel)
    /\ result (getZoomSummariesForUser fuel cfg srv today accessToken userId)
       = OutOfFuel.
Proof.
  intros Hsrv Hdays fuel.
  assert (Hloop : forall fromDate toDate,
            fst (fetchSummariesForDateRange fuel srv accessToken fromDate
                   toDate) = OutOfFuel).
  { intros a b. now apply summariesLoop_runs_on. }
  split; [exact Hloop|].
  unfold getZoomSummariesForUser, perMember.
  pose proof (WindowingProofs.windows_length today (DAYS_TO_FETCH cfg)) as Hlen.
  pose proof (WindowingProofs.numChunks_bounds (DAYS_TO_FETCH cfg)) as Hb.
  unfold chunkSize in Hb.
  destruct (windows today (DAYS_TO_FETCH cfg)) as [|[s e] rest].
  { cbn [length] in Hlen. lia. }
  cbn [chunkLoop].
  pose proof (Hloop (formatIso s ++ "T00:00:00Z")%string
                    (formatIso e ++ "T23:59:59Z")%string) as Hf.
  destruct (fetchSummariesForDateRange fuel srv accessToken _ _)
    as [res reqs].
  cbn [fst] in Hf. subst res. reflexivity.
Qed.

(** A platform that always announces another page. *)
Definition endlessServer : server :=
  fun _ => Reply 200 (SummariesPage (Some [FetchProofs.summaryOf "s1"])
                        (Some "next")).

Lemma fetchSummariesForDateRange_unbounded_witness :
  alwaysMore endlessServer
  /\ result (getZoomSummariesForUser 1000 FetchProofs.twoDayConfig
               endlessServer 19740 "token" "alice") = OutOfFuel.
Proof.
  assert (H : alwaysMore endlessServer).
  { intros req. now exists (Some [FetchProofs.summaryOf "s1"]), "next". }
  split; [exact H|].
  apply (fetchSummariesForDateRange_unbounded endlessServer
           FetchProofs.twoDayConfig 19740 "token" "alice" H).
  cbn. lia.
Defined.

(** *** Order of the items *)

(** The list a fetch returned, empty when it did not return. *)
Definition returnedItems {A : Type} (o : outcome (list A)) : list A :=
  match o with
  | Returned items => items
  | _ => []
  end.

Lemma chunkLoop_concat {A : Type}
  (fetch : string -> string -> outcome (list A) * list request)
  (startText endText : Z -> string) (userId numChunksText : string) :
  forall (ws : list (Z * Z)) (i : Z) (all found : list A),
  fst (fst (chunkLoop fetch startText endText userId numChunksText ws i all))
  = Returned found ->
  found = all ++ flat_map
            (fun w => returnedItems
                        (fst (fetch (startText (fst w)) (endText (snd w)))))
            ws.
Proof.
  induction ws as [|[s e] rest IH]; intros i all found H.
  - cbn in H. inversion H. cbn. now rewrite app_nil_r.
  - cbn [chunkLoop flat_map fst snd] in H |- *.
    destruct (fetch (startText s) (endText e)) as [[items| |] reqs];
      try discriminate.
    specialize (IH (i + 1)%Z (all ++ items) found).
    destruct (chunkLoop fetch startText endText userId numChunksText rest
                (i + 1)%Z (all ++ items)) as [[res reqs'] lines].
    cbn [fst returnedItems] in H, IH |- *.
    rewrite (IH H). now rewrite app_assoc.
Qed.

Lemma chunkLoop_no_throw {A : Type}
  (fetch : string -> string -> outcome (list A) * list request)
  (startText endText : Z -> string) (userId numChunksText : string) :
  (forall a b, fst (fetch a b) <> Thrown) ->
  forall (ws : list (Z * Z)) (i : Z) (all : list A),
  fst (fst (chunkLoop fetch startText endText userId numChunksText ws i all))
  <> Thrown.
Proof.
  intros Hfetch. induction ws as [|[s e] rest IH]; intros i all;
    [discriminate|].
  cbn [chunkLoop]. pose proof (Hfetch (startText s) (endText e)) as Hf.
  destruct (fetch (startText s) (endText e)) as [[items| |] reqs];
    [|now cbn in Hf|discriminate].
  specialize (IH (i + 1)%Z (all ++ items)).
  destruct (chunkLoop fetch startText endText userId numChunksText rest
              (i + 1)%Z (all ++ items)) as [[res reqs'] lines].
  exact IH.
Qed.

(** X10.  The summaries a member fetch returns are the lists of the windows
    one after the other, in the order the windows are requested: the
    latest window first, each window from 00:00:00 of its first day to
    23:59:59 of its last. *)
Theorem getZoomSummariesForUser_window_order (fuel : nat) (cfg : Config)
  (srv : server) (today : Z) (accessToken userId : string)
  (found : list Summary) :
  result (getZoomSummariesForUser fuel cfg srv today accessToken userId)
  = Returned found ->
  found = flat_map
            (fun w => returnedItems
                        (fst (fetchSummariesForDateRange fuel srv accessToken
                                (formatIso (fst w) ++ "T00:00:00Z")%string
                                (formatIso (snd w) ++ "T23:59:59Z")%string)))
            (windows today (DAYS_TO_FETCH cfg)).
Proof.
  unfold getZoomSummariesForUser, perMember.
  pose proof (chunkLoop_concat (fetchSummariesForDateRange fuel srv accessToken)
                (fun d => (formatIso d ++ "T00:00:00Z")%string)
                (fun d => (formatIso d ++ "T23:59:59Z")%string)
                userId (showZ (numChunks (DAYS_TO_FETCH cfg)))
                (windows today (DAYS_TO_FETCH cfg)) 0%Z []) as Hcat.
  pose proof (chunkLoop_no_throw
                (fetchSummariesForDateRange fuel srv accessToken)
                (fun d => (formatIso d ++ "T00:00:00Z")%string)
                (fun d => (formatIso d ++ "T23:59:59Z")%string)
                userId (showZ (numChunks (DAYS_TO_FETCH cfg)))
                (fun a b => proj1 (FetchProofs.summariesLoop_keeps_gathered
                                     fuel srv accessToken a b EmptyString []))
                (windows today (DAYS_TO_FETCH cfg)) 0%Z []) as Hnt.
  destruct (chunkLoop _ _ _ _ _ _ _ _) as [[res reqs] lines].
  cbn [fst] in Hcat, Hnt. destruct res as [all| |]; cbn [result]; intros H.
  - inversion H; subst. now apply Hcat.
  - congruence.
  - discriminate.
Qed.

(** A platform with one summary in the latest window of a 45-day
    lookback on 2024-01-18 and another in the window before it. *)
Definition twoWindowServer : server :=
  fun req =>
    if includes (url req) "to=2024-01-18"
    then Reply 200 (SummariesPage (Some [FetchProofs.summaryOf "late"]) None)
    else Reply 200 (SummariesPage (Some [FetchProofs.summaryOf "early"]) None).

Lemma getZoomSummariesForUser_window_order_witness :
  result (getZoomSummariesForUser 2 FetchProofs.longConfig twoWindowServer
            19740 "token" "alice")
  = Returned [FetchProofs.summaryOf "late"; FetchProofs.summaryOf "early"]
  /\ [FetchProofs.summaryOf "late"; FetchProofs.summaryOf "early"]
     = flat_map
         (fun w => returnedItems
                     (fst (fetchSummariesForDateRange 2 twoWindowServer
                             "token"
                             (formatIso (fst w) ++ "T00:00:00Z")%string
                             (formatIso (snd w) ++ "T23:59:59Z")%string)))
         (windows 19740 45).
Proof.
  split; [reflexivity|].
  apply (getZoomSummariesForUser_window_order 2 FetchProofs.longConfig
           twoWindowServer 19740 "token" "alice").
  reflexivity.
Defined.

End FetchExtras.

(* ================================================================== *)
(** ** Further properties of the per-recording orchestrator *)
(* ================================================================== *)

Module OrchestratorExtras.
Import JsDate Ledger Orchestrator OrchestratorProofs.

(** *** The file loop *)

(** X11.  The files of a recording are transferred one by one, none
    depending on another: the result over two lists of files put
    together is the two results put together, so a file that fails
    neither stops nor undoes the others. *)
Theorem transferFiles_app (env : Env)
  (accessToken meetingDate meetingTopic folderId : string)
  (files1 files2 : list RecordingFile) :
  transferFiles env accessToken meetingDate meetingTopic folderId
    (files1 ++ files2)
  = (fst (transferFiles env accessToken meetingDate meetingTopic folderId
            files1)
     ++ fst (transferFiles env accessToken meetingDate meetingTopic folderId
               files2),
     snd (transferFiles env accessToken meetingDate meetingTopic folderId
            files1)
     ++ snd (transferFiles env accessToken meetingDate meetingTopic folderId
               files2)).
Proof.
  induction files1 as [|file rest IH]; cbn [app transferFiles].
  - now destruct (transferFiles _ _ _ _ _ files2).
  - rewrite IH. cbn [fst snd].
    set (r := transferFiles env accessToken meetingDate meetingTopic folderId
                rest).
    set (r2 := transferFiles env accessToken meetingDate meetingTopic folderId
                 files2).
    destruct (optionEqb (option_map toLowerCase (file_extension file)) "json");
      [now destruct r|].
    destruct (download_url file) as [u|]; [|now destruct r].
    destruct (truthy u); [|now destruct r].
    destruct (transferFile _ _ _ _ _) as [[p c]|]; [|now destruct r].
    reflexivity.
Qed.

(** A file the loop looks at: its extension is not "json" in any
    letter case and it has a non-empty download URL. *)
Definition transferable (file : RecordingFile) : bool :=
  negb (optionEqb (option_map toLowerCase (file_extension file)) "json")
  && match download_url file with
     | Some u => truthy u
     | None => false
     end.

(** X12.  JSON timeline files and files without download URL are passed
    over: taking them out of the list changes neither the files
    transferred nor the files created, and at most one file is created
    for each remaining one. *)
Theorem transferFiles_skips (env : Env)
  (accessToken meetingDate meetingTopic folderId : string)
  (files : list RecordingFile) :
  transferFiles env accessToken meetingDate meetingTopic folderId files
  = transferFiles env accessToken meetingDate meetingTopic folderId
      (filter transferable files)
  /\ (length (snd (transferFiles env accessToken meetingDate meetingTopic
                     folderId files))
      <= length (filter transferable files))%nat.
Proof.
  induction files as [|file rest [IH1 IH2]]; [now split|].
  cbn [filter]. destruct (transferable file) eqn:E; unfold transferable in E.
  - apply andb_true_iff in E as [Ej Eu]. apply negb_true_iff in Ej.
    destruct (download_url file) as [u|] eqn:Eurl; [|discriminate].
    cbn [transferFiles length]. rewrite Ej, Eurl, Eu, <- IH1.
    destruct (transferFile _ _ _ _ _) as [[p c]|]; cbn [snd length]; split;
      try reflexivity; lia.
  - cbn [transferFiles].
    destruct (optionEqb (option_map toLowerCase (file_extension file)) "json");
      [now split|].
    cbn [negb andb] in E.
    destruct (download_url file) as [u|]; [|now split].
    rewrite E. now split.
Qed.

(** *** The three ways a call ends *)

Lemma processRecording_cases (cfg : Config) (env : Env) (tok : string)
  (recording : Recording) (sh : sheet) :
  let meetingTopic := meetingTopicOf cfg recording in
  let meetingDate := meetingDateOf recording in
  let folderName := (meetingDate ++ "_" ++ meetingTopic)%string in
  let parentId := FolderRouter.getDestinationFolderId cfg meetingTopic in
  (isRecordingProcessed meetingTopic meetingDate sh = true
   /\ processRecording cfg env tok recording sh = (sh, []))
  \/ (isRecordingProcessed meetingTopic meetingDate sh = false
      /\ createDriveFolder env folderName parentId = None
      /\ exists message,
           processRecording cfg env tok recording sh
           = (sh, [TrackError message]))
  \/ (isRecordingProcessed meetingTopic meetingDate sh = false
      /\ exists folderId values,
           createDriveFolder env folderName parentId = Some folderId
           /\ topicCell values = CStr meetingTopic
           /\ dateCell values = CStr (formattedMeetingDate meetingDate)
           /\ processRecording cfg env tok recording sh
              = (appendRow (parseOnWrite env) sh values,
                 EnsureFolder folderName parentId
                 :: snd (filesTransferredOf cfg env tok recording folderId)
                 ++ (if DELETE_AFTER_TRANSFER cfg
                        && negb (Nat.eqb
                                   (length (fst (filesTransferredOf cfg env tok
                                                   recording folderId))) 0)
                     then [DeleteRecording (uuid recording)] else [])
                 ++ [AppendRow values])).
Proof.
  intros meetingTopic meetingDate folderName parentId.
  destruct (isRecordingProcessed meetingTopic meetingDate sh) eqn:Hnew.
  - left. split; [reflexivity|]. unfold processRecording.
    fold meetingTopic meetingDate. now rewrite Hnew.
  - right.
    destruct (createDriveFolder env folderName parentId) as [folderId|] eqn:Hf.
    + right. split; [reflexivity|].
      exists folderId,
        (rowData meetingTopic meetingDate
           (join ", " (fst (filesTransferredOf cfg env tok recording folderId)))
           folderName (today env)
           (orElse (host_email recording) "Unknown Host")).
      split; [reflexivity|].
      rewrite (processRecording_processed cfg env tok recording sh folderId
                 Hnew Hf).
      split; [reflexivity|]. split; reflexivity.
    + left. split; [reflexivity|]. split; [reflexivity|].
      eexists. unfold processRecording.
      fold meetingTopic meetingDate folderName parentId.
      now rewrite Hnew, Hf.
Qed.

(** *** A second call on an item whose date is written as it is *)

(** A date text that is not of three dash-separated parts is written
    to the sheet unchanged. *)
Lemma formattedMeetingDate_other (meetingDate : string) :
  length (split "-" meetingDate) <> 3%nat ->
  formattedMeetingDate meetingDate = meetingDate.
Proof.
  intros H. unfold formattedMeetingDate.
  destruct (truthy meetingDate && negb (String.eqb meetingDate "Unknown Date"));
    [|reflexivity].
  destruct (split "-" meetingDate) as [|y [|m [|d [|e l]]]];
    try reflexivity.
  now cbn [length] in H.
Qed.

(** X13.  A recording whose meeting date is not a text of three
    dash-separated parts, as the date "Unknown Date" of a recording
    without start time, has that text written to the sheet as it is.
    When the sheet keeps it and the topic as texts, such a recording,
    processed once with its folder available, is skipped by the next
    call: no folder lookup, no upload, no deletion, no row. *)
Theorem processRecording_rerun_skipped (cfg : Config) (env : Env)
  (accessToken : string) (recording : Recording) (sh : sheet)
  (folderId : string) :
  let meetingTopic := meetingTopicOf cfg recording in
  let meetingDate := meetingDateOf recording in
  TopicPrefix.literalSource (TOPIC_PREFIX_TO_REMOVE cfg) = true ->
  sh <> [] ->
  createDriveFolder env (meetingDate ++ "_" ++ meetingTopic)%string
    (FolderRouter.getDestinationFolderId cfg meetingTopic) = Some folderId ->
  length (split "-" meetingDate) <> 3%nat ->
  parseOnWrite env meetingTopic = CStr meetingTopic ->
  parseOnWrite env meetingDate = CStr meetingDate ->
  let first := processRecording cfg env accessToken recording sh in
  processRecording cfg env accessToken recording (fst first) = (fst first, []).
Proof.
  intros meetingTopic meetingDate _ Hne Hfolder Hparts Ht Hd first.
  apply processRecording_skips_logged. fold meetingTopic meetingDate.
  subst first.
  destruct (processRecording_cases cfg env accessToken recording sh)
    as [[Hold ->]|[(Hnew & Hnone & _)|(Hnew & fid & values & Hf & Htc & Hdc
                                        & ->)]].
  - exact Hold.
  - fold meetingTopic meetingDate in Hnone. congruence.
  - cbn [fst]. fold meetingTopic meetingDate in Hnew, Htc, Hdc.
    rewrite (formattedMeetingDate_other meetingDate Hparts) in Hdc.
    unfold isRecordingProcessed in *. unfold appendRow.
    destruct sh as [|header rows]; [congruence|]. cbn [app tl] in *.
    clear Hne. induction rows as [|r rest IH].
    + cbn [app scanRecording storedRow topicCell dateCell].
      rewrite Htc, Hdc. cbn [stored]. rewrite Ht, Hd. cbn [cellIs].
      now rewrite !String.eqb_refl.
    + cbn [app scanRecording] in Hnew |- *.
      destruct (cellIs (topicCell r) meetingTopic
                && cellIs (dateCell r) meetingDate); [reflexivity|].
      now apply IH.
Qed.

(** A recording without start time. *)
Definition undatedRecording : Recording :=
  {| uuid := "uuid-2"; topic := Some "Org | Standup"; start_time := None;
     host_email := Some "host@example.org";
     recording_files :=
       Some [ {| file_type := Some "MP4"; file_extension := Some "MP4";
                 download_url := Some "https://zoom.example/d/2" |} ] |}.

Lemma processRecording_rerun_skipped_witness :
  snd (processRecording (standupConfig false) (driveEnv 200 CStr) "token"
         undatedRecording [headerRow]) <> []
  /\ processRecording (standupConfig false) (driveEnv 200 CStr) "token"
       undatedRecording
       (fst (processRecording (standupConfig false) (driveEnv 200 CStr)
               "token" undatedRecording [headerRow]))
     = (fst (processRecording (standupConfig false) (driveEnv 200 CStr)
               "token" undatedRecording [headerRow]), []).
Proof.
  split; [vm_compute; discriminate|].
  apply (processRecording_rerun_skipped (standupConfig false)
           (driveEnv 200 CStr) "token" undatedRecording [headerRow]
           "folder:Unknown Date_Standup");
    try reflexivity; discriminate.
Defined.

End OrchestratorExtras.

(* ================================================================== *)
(** ** Properties of the summary pipeline *)
(* ================================================================== *)

Module SummariesExtras.
Import JsDate Ledger Orchestrator Fetch Summaries.

(** *** The summary document *)

Definition hasLabel (section : detailSection) : bool :=
  match label section with
  | Some _ => true
  | None => false
  end.

(** The two lines of a labelled section. *)
Definition sectionText (toUpperCase : string -> string)
  (section : detailSection) : string :=
  ("-- " ++ toUpperCase (shown (label section)) ++ " --" ++ newlineText
   ++ shown (summary section) ++ newlineText ++ newlineText)%string.

(** Title, date, the overview block when there is a non-empty
    overview, and the heading of the full summary. *)
Definition documentHead (meetingTopic meetingDate : string)
  (overview : option string) : string :=
  ("#####  *AI Generated* Meeting Summary for " ++ meetingTopic ++ "  #####"
   ++ newlineText ++ meetingDate ++ newlineText ++ newlineText
   ++ (if truthy (orElse overview EmptyString)
       then "== SUMMARY OVERVIEW ==" ++ newlineText
            ++ orElse overview EmptyString ++ newlineText ++ newlineText
       else EmptyString)
   ++ "== FULL SUMMARY ==" ++ newlineText ++ newlineText)%string.

Lemma append_assoc (x y z : string) :
  ((x ++ y) ++ z = x ++ (y ++ z))%string.
Proof. induction x as [|c x IH]; simpl; congruence. Qed.

Lemma append_nil_r (x : string) : (x ++ "")%string = x.
Proof. induction x as [|c x IH]; simpl; congruence. Qed.

Lemma fold_appendSection_none (toUpperCase : string -> string)
  (sections : list detailSection) :
  fold_left (appendSection toUpperCase) sections None = None.
Proof. induction sections as [|s rest IH]; [reflexivity|exact IH]. Qed.

Lemma fold_appendSection (toUpperCase : string -> string)
  (sections : list detailSection) :
  forall text,
  fold_left (appendSection toUpperCase) sections (Some text)
  = if forallb hasLabel sections
    then Some (text ++ String.concat EmptyString
                         (map (sectionText toUpperCase) sections))%string
    else None.
Proof.
  induction sections as [|s rest IH]; intros text.
  - cbn. now rewrite append_nil_r.
  - cbn [fold_left forallb map]. unfold appendSection at 2, hasLabel at 1.
    destruct (label s) as [l|] eqn:El; cbn [andb].
    + rewrite IH. destruct (forallb hasLabel rest); [|reflexivity].
      f_equal. unfold sectionText at 2. rewrite El. cbn [shown].
      assert (Hcat : forall x l', String.concat "" (x :: l')
                                  = (x ++ String.concat "" l')%string).
      { intros x l'. destruct l' as [|y l'']; [now rewrite append_nil_r|].
        reflexivity. }
      rewrite Hcat. rewrite !append_assoc. reflexivity.
    + apply fold_appendSection_none.
Qed.

(** X14.  The text of the summary file.  It is the head (title, date,
    overview block only for a non-empty overview, full-summary
    heading), then the sections in the order received, each once, as a
    line with the upper-cased label and the body, then the disclaimer.
    Details that are no array give no section.  A section without
    label makes the building throw: no text at all. *)
Theorem summaryContent_layout (toUpperCase : string -> string)
  (meetingTopic meetingDate : string) (data : summaryData) :
  summaryContent toUpperCase meetingTopic meetingDate data
  = match detailedSummary data with
    | Sections sections =>
        if forallb hasLabel sections
        then Some (documentHead meetingTopic meetingDate (overviewSummary data)
                   ++ String.concat EmptyString
                        (map (sectionText toUpperCase) sections)
                   ++ disclaimer)%string
        else None
    | _ => Some (documentHead meetingTopic meetingDate (overviewSummary data)
                 ++ disclaimer)%string
    end.
Proof.
  unfold summaryContent.
  set (head := match overviewSummary data with
               | Some overview =>
                   if truthy overview then _ else _
               | None => _
               end).
  assert (Hhead : (head ++ "== FULL SUMMARY ==" ++ newlineText ++ newlineText)%string
                  = documentHead meetingTopic meetingDate (overviewSummary data)).
  { subst head. unfold documentHead, orElse.
    destruct (overviewSummary data) as [o|].
    - destruct (truthy o) eqn:Eo.
      + rewrite Eo. rewrite !append_assoc. reflexivity.
      + cbn [truthy isEmpty negb append]. rewrite !append_assoc. reflexivity.
    - cbn [truthy isEmpty negb append]. rewrite !append_assoc. reflexivity. }
  rewrite Hhead.
  destruct (detailedSummary data) as [| |sections]; try reflexivity.
  rewrite fold_appendSection.
  destruct (forallb hasLabel sections); [|reflexivity].
  now rewrite append_assoc.
Qed.

(** *** How a call ends *)

Definition isDriveNote (e : event) : bool :=
  match e with
  | EnsureFolder _ _ | TrackError _ => true
  | _ => false
  end.

(** X15.  For a topic prefix of literal characters.  A summary already
    logged costs nothing: no detail request, no call.
    Otherwise the call either leaves the sheet as it is, writes no file
    and at most looks up the folder and records an error; or it writes
    the summary file and then logs one row whose file-types cell is the
    summary marker.  A row is logged exactly when the file was written,
    and summaries are never deleted at the source. *)
Theorem processMeetingSummary_outcomes (toUpperCase : string -> string)
  (cfg : Config) (env : Env) (dsrv : detailServer) (accessToken : string)
  (meeting : Summary) (sh : sheet) :
  let meetingTopic := summaryTopicOf cfg meeting in
  let meetingDate := summaryDateOf meeting in
  let run :=
    processMeetingSummary toUpperCase cfg env dsrv accessToken meeting sh in
  TopicPrefix.literalSource (TOPIC_PREFIX_TO_REMOVE cfg) = true ->
  (isSummaryProcessed meetingTopic meetingDate sh = true ->
   run = untouched sh [] [])
  /\ (forall meetingId, ~ In (DeleteRecording meetingId) (calls run))
  /\ ((fileWritten run = None /\ sheetAfter run = sh
       /\ forallb isDriveNote (calls run) = true)
      \/ exists folderId content values data,
           isSummaryProcessed meetingTopic meetingDate sh = false
           /\ fst (getMeetingSummaryDetail dsrv (meeting_uuid meeting)
                     accessToken) = Some data
           /\ summaryContent toUpperCase meetingTopic meetingDate data
              = Some content
           /\ fileWritten run
              = Some ((meetingDate ++ "_" ++ meetingTopic ++ "_aiSummary.txt")
                        %string, content)
           /\ calls run
              = [EnsureFolder (meetingDate ++ "_" ++ meetingTopic)%string
                   (FolderRouter.getDestinationFolderId cfg meetingTopic);
                 CreateFile
                   (meetingDate ++ "_" ++ meetingTopic ++ "_aiSummary.txt")
                     %string folderId;
                 AppendRow values]
           /\ sheetAfter run = appendRow (parseOnWrite env) sh values
           /\ topicCell values = CStr meetingTopic
           /\ dateCell values = CStr (formattedMeetingDate meetingDate)
           /\ filesCell values = CStr summaryMarker).
Proof.
  intros meetingTopic meetingDate run _. subst run.
  unfold processMeetingSummary. fold meetingTopic meetingDate.
  destruct (isSummaryProcessed meetingTopic meetingDate sh) eqn:Hnew.
  { split; [reflexivity|]. split; [intros ? []|]. left. now split. }
  split; [discriminate|].
  destruct (getMeetingSummaryDetail dsrv (meeting_uuid meeting) accessToken)
    as [found req] eqn:Hdetail.
  cbn [fst].
  destruct found as [data|];
    [|split; [intros ? []|left; now split]].
  destruct (negb (truthyDetails (detailedSummary data)));
    [split; [intros ? []|left; now split]|].
  destruct (createDriveFolder env _ _) as [folderId|].
  2:{ split; [intros ? [H|[]]; discriminate|]. left. now split. }
  destruct (summaryContent toUpperCase meetingTopic meetingDate data)
    as [content|] eqn:Hc.
  2:{ split; [intros ? [H|[H|[]]]; discriminate|]. left. now split. }
  destruct (createFile env _ folderId) as [fileId|].
  2:{ split; [intros ? [H|[H|[]]]; discriminate|]. left. now split. }
  split; [intros ? [H|[H|[H|[]]]]; discriminate|].
  right.
  exists folderId, content,
    (rowData meetingTopic meetingDate "AI Summary"
       (meetingDate ++ "_" ++ meetingTopic)%string (today env)
       (orElse (meeting_host_email meeting) "Unknown Host")), data.
  split; [reflexivity|]. split; [reflexivity|]. split; [exact Hc|].
  repeat (split; [reflexivity|]). reflexivity.
Qed.

End SummariesExtras.

Module SummaryRerun.
Import JsDate Ledger Orchestrator Fetch Summaries.

(** The summary lookup finds a row appended with the summary marker
    when the sheet keeps the topic and the marker as texts and holds
    the date in a form that reads back as the date asked for. *)
Lemma logged_summary_lookup (parse : string -> cell) (sh : sheet)
  (t d folderName host : string) (day : Z) :
  sh <> [] ->
  parse t = CStr t ->
  parse summaryMarker = CStr summaryMarker ->
  normalizedDate (parse (formattedMeetingDate d)) = CStr d ->
  isSummaryProcessed t d
    (appendRow parse sh (rowData t d "AI Summary" folderName day host))
  = true.
Proof.
  intros Hne Ht Hm Hd. destruct sh as [|header rows]; [congruence|].
  unfold isSummaryProcessed, appendRow. cbn [app tl]. clear Hne.
  induction rows as [|r rest IH].
  - cbn [app scanSummary storedRow rowData topicCell dateCell filesCell
         stored].
    change (fileTypesList "AI Summary") with summaryMarker.
    rewrite Ht, Hm, Hd. cbn [cellIs]. now rewrite !String.eqb_refl.
  - cbn [app scanSummary]. rewrite IH.
    destruct (cellIs (topicCell r) t
              && cellIs (normalizedDate (dateCell r)) d); [|reflexivity].
    now destruct (cellIs (filesCell r) summaryMarker).
Qed.

(** X16.  Once the summary of a meeting has been written and logged, the
    next call for the same meeting is skipped before any request,
    provided the sheet keeps the topic and the marker "AI Summary" as
    texts and holds the meeting date either as the text asked for or as
    a date of that day (the form a date-reading sheet gives to
    "MM-dd-yyyy"). *)
Theorem processMeetingSummary_rerun_skipped (toUpperCase : string -> string)
  (cfg : Config) (env : Env) (dsrv : detailServer) (accessToken : string)
  (meeting : Summary) (sh : sheet) :
  let meetingTopic := summaryTopicOf cfg meeting in
  let meetingDate := summaryDateOf meeting in
  let first :=
    processMeetingSummary toUpperCase cfg env dsrv accessToken meeting sh in
  TopicPrefix.literalSource (TOPIC_PREFIX_TO_REMOVE cfg) = true ->
  sh <> [] ->
  parseOnWrite env meetingTopic = CStr meetingTopic ->
  parseOnWrite env summaryMarker = CStr summaryMarker ->
  normalizedDate (parseOnWrite env (formattedMeetingDate meetingDate))
  = CStr meetingDate ->
  fileWritten first <> None ->
  processMeetingSummary toUpperCase cfg env dsrv accessToken meeting
    (sheetAfter first)
  = untouched (sheetAfter first) [] [].
Proof.
  intros meetingTopic meetingDate first _ Hne Ht Hm Hd Hwritten.
  assert (Hfound : isSummaryProcessed meetingTopic meetingDate
                     (sheetAfter first) = true).
  { subst first. unfold processMeetingSummary in *.
    fold meetingTopic meetingDate in Hwritten |- *.
    destruct (isSummaryProcessed meetingTopic meetingDate sh);
      [now cbn in Hwritten|].
    destruct (getMeetingSummaryDetail dsrv (meeting_uuid meeting) accessToken)
      as [found req].
    destruct found as [data|]; [|now cbn in Hwritten].
    destruct (negb (truthyDetails (detailedSummary data)));
      [now cbn in Hwritten|].
    destruct (createDriveFolder env _ _) as [folderId|];
      [|now cbn in Hwritten].
    destruct (summaryContent toUpperCase meetingTopic meetingDate data);
      [|now cbn in Hwritten].
    destruct (createFile env _ folderId); [|now cbn in Hwritten].
    cbn [sheetAfter]. unfold logTransferToSheet.
    now apply logged_summary_lookup. }
  unfold processMeetingSummary at 1. fold meetingTopic meetingDate.
  now rewrite Hfound.
Qed.

Definition standupSummary : Summary :=
  {| meeting_uuid := "s1"; meeting_topic := Some "Org | Standup";
     meeting_host_email := Some "host@example.org";
     summary_created_time := Some "2024-01-15T11:00:00Z" |}.

(** A platform with a two-section summary for every meeting. *)
Definition detailsServer : detailServer :=
  fun _ =>
    DetailReply 200
      (Some {| summary_overview := Some "Short meeting.";
               summary_details :=
                 Sections [ {| label := Some "Agenda";
                               summary := Some "Plans." |};
                            {| label := Some "Actions";
                               summary := Some "None." |} ] |}).

Lemma processMeetingSummary_rerun_skipped_witness :
  let env := OrchestratorProofs.driveEnv 200 OrchestratorProofs.parseUsDates in
  let cfg := OrchestratorProofs.standupConfig true in
  let first :=
    processMeetingSummary (fun s => s) cfg env detailsServer "token"
      standupSummary [headerRow] in
  map dateCell (tl (sheetAfter first)) = [CDate 19737]
  /\ processMeetingSummary (fun s => s) cfg env detailsServer "token"
       standupSummary (sheetAfter first)
     = untouched (sheetAfter first) [] [].
Proof.
  intros env cfg first. split; [reflexivity|].
  apply (processMeetingSummary_rerun_skipped (fun s => s) cfg env
           detailsServer "token" standupSummary [headerRow]);
    try reflexivity; discriminate.
Defined.

Lemma processMeetingSummary_outcomes_witness :
  let env := OrchestratorProofs.driveEnv 200 OrchestratorProofs.parseUsDates in
  let cfg := OrchestratorProofs.standupConfig true in
  let run :=
    processMeetingSummary (fun s => s) cfg env detailsServer "token"
      standupSummary [headerRow] in
  TopicPrefix.literalSource (TOPIC_PREFIX_TO_REMOVE cfg) = true
  /\ option_map fst (fileWritten run) = Some "2024-01-15_Standup_aiSummary.txt"
  /\ length (sheetAfter run) = 2%nat
  /\ forall meetingId, ~ In (DeleteRecording meetingId) (calls run).
Proof.
  intros env cfg run. split; [reflexivity|].
  split; [reflexivity|]. split; [reflexivity|].
  exact (proj1 (proj2 (SummariesExtras.processMeetingSummary_outcomes
                         (fun s => s) cfg env detailsServer "token"
                         standupSummary [headerRow] eq_refl))).
Defined.

End SummaryRerun.


(* ================================================================== *)
(** ** Properties of a whole run *)
(* ================================================================== *)

Module ConnectorExtras.
Import JsDate Ledger Orchestrator Fetch Summaries Connector.
Import OrchestratorProofs OrchestratorExtras.

(** The rows handed to [logTransferToSheet], in order. *)
Definition loggedRows (evs : list event) : list row :=
  flat_map (fun e => match e with AppendRow values => [values] | _ => [] end)
           evs.

Lemma loggedRows_app (a b : list event) :
  loggedRows (a ++ b) = loggedRows a ++ loggedRows b.
Proof. unfold loggedRows. apply flat_map_app. Qed.

Lemma transferFiles_logs_nothing (env : Env) (tok date t folderId : string)
  (files : list RecordingFile) :
  loggedRows (snd (transferFiles env tok date t folderId files)) = [].
Proof.
  induction files as [|file rest IH]; cbn [transferFiles]; [reflexivity|].
  destruct (optionEqb (option_map toLowerCase (file_extension file)) "json");
    [exact IH|].
  destruct (download_url file) as [u|]; [|exact IH].
  destruct (truthy u); [|exact IH].
  destruct (transferFile _ _ _ _ _) as [[p c]|]; [|exact IH].
  cbn [snd]. exact IH.
Qed.

Lemma filesTransferredOf_logs_nothing (cfg : Config) (env : Env)
  (tok : string) (recording : Recording) (folderId : string) :
  loggedRows (snd (filesTransferredOf cfg env tok recording folderId)) = [].
Proof.
  unfold filesTransferredOf.
  destruct (recording_files recording); [|reflexivity].
  apply transferFiles_logs_nothing.
Qed.

(** What holds of the calls of every item holds of the calls of a
    run. *)
Section RunInvariant.

Variable cfg : Config.
Variable p : Platform.
Variable fuel : nat.

(** A property of a sheet and the calls made since some starting
    sheet. *)
Variable inv : sheet -> sheet -> list event -> Prop.

Hypothesis inv_start : forall sh, inv sh sh [].
Hypothesis inv_recording :
  forall sh0 sh evs tok recording,
    inv sh0 sh evs ->
    inv sh0 (fst (processRecording cfg (drive p) tok recording sh))
        (evs ++ snd (processRecording cfg (drive p) tok recording sh)).
Hypothesis inv_summary :
  forall sh0 sh evs tok meeting,
    inv sh0 sh evs ->
    inv sh0
        (sheetAfter (processMeetingSummary (upperCase p) cfg (drive p)
                       (summaryDetails p) tok meeting sh))
        (evs ++ calls (processMeetingSummary (upperCase p) cfg (drive p)
                         (summaryDetails p) tok meeting sh)).
Hypothesis inv_error :
  forall sh0 sh evs message,
    inv sh0 sh evs -> inv sh0 sh (evs ++ [TrackError message]).

Lemma processRecordings_inv (tok : string) (recordings : list Recording) :
  forall sh0 sh evs,
  inv sh0 sh evs ->
  inv sh0 (fst (processRecordings cfg (drive p) tok recordings sh))
      (evs ++ snd (processRecordings cfg (drive p) tok recordings sh)).
Proof.
  induction recordings as [|r rest IH]; intros sh0 sh evs H.
  - cbn. now rewrite app_nil_r.
  - cbn [processRecordings].
    pose proof (inv_recording sh0 sh evs tok r H) as H1.
    destruct (processRecording cfg (drive p) tok r sh) as [sh1 evs1].
    cbn [fst snd] in H1. specialize (IH sh0 sh1 (evs ++ evs1) H1).
    destruct (processRecordings cfg (drive p) tok rest sh1) as [sh2 evs2].
    cbn [fst snd] in IH |- *. now rewrite app_assoc.
Qed.

Lemma processSummaries_inv (tok : string) (summaries : list Summary) :
  forall sh0 sh evs,
  inv sh0 sh evs ->
  inv sh0
      (fst (processSummaries (upperCase p) cfg (drive p) (summaryDetails p)
              tok summaries sh))
      (evs ++ snd (processSummaries (upperCase p) cfg (drive p)
                     (summaryDetails p) tok summaries sh)).
Proof.
  induction summaries as [|m rest IH]; intros sh0 sh evs H.
  - cbn. now rewrite app_nil_r.
  - cbn [processSummaries].
    pose proof (inv_summary sh0 sh evs tok m H) as H1.
    set (run := processMeetingSummary (upperCase p) cfg (drive p)
                  (summaryDetails p) tok m sh) in *.
    specialize (IH sh0 (sheetAfter run) (evs ++ calls run) H1).
    destruct (processSummaries (upperCase p) cfg (drive p) (summaryDetails p)
                tok rest (sheetAfter run)) as [sh2 evs2].
    cbn [fst snd] in IH |- *. now rewrite app_assoc.
Qed.

Lemma recordingsPhase_inv (tok : string) (us : list User) :
  forall sh0 sh evs sh' evs',
  inv sh0 sh evs ->
  recordingsPhase fuel cfg p tok us sh = Returned (sh', evs') ->
  inv sh0 sh' (evs ++ evs').
Proof.
  induction us as [|u rest IH]; intros sh0 sh evs sh' evs' H Hrun.
  - cbn in Hrun. inversion Hrun; subst. now rewrite app_nil_r.
  - cbn [recordingsPhase] in Hrun.
    destruct (result (getZoomRecordingsForUser fuel cfg (listings p)
                        (todayGmt p) tok (id u))) as [recs| |];
      try discriminate.
    pose proof (processRecordings_inv tok recs sh0 sh evs H) as H1.
    destruct (processRecordings cfg (drive p) tok recs sh) as [sh1 evs1].
    cbn [fst snd] in H1.
    destruct (recordingsPhase fuel cfg p tok rest sh1) as [[sh2 evs2]| |]
      eqn:Hrest; try discriminate.
    inversion Hrun; subst. rewrite app_assoc.
    now apply (IH sh0 sh1 (evs ++ evs1) sh' evs2).
Qed.

Lemma summariesPhase_inv (tok : string) (us : list User) :
  forall sh0 sh evs sh' evs',
  inv sh0 sh evs ->
  summariesPhase fuel cfg p tok us sh = Returned (sh', evs') ->
  inv sh0 sh' (evs ++ evs').
Proof.
  induction us as [|u rest IH]; intros sh0 sh evs sh' evs' H Hrun.
  - cbn in Hrun. inversion Hrun; subst. now rewrite app_nil_r.
  - cbn [summariesPhase] in Hrun.
    destruct (result (getZoomSummariesForUser fuel cfg (listings p)
                        (todayGmt p) tok (id u))) as [sums| |];
      try discriminate.
    pose proof (processSummaries_inv tok sums sh0 sh evs H) as H1.
    destruct (processSummaries (upperCase p) cfg (drive p) (summaryDetails p)
                tok sums sh) as [sh1 evs1].
    cbn [fst snd] in H1.
    destruct (summariesPhase fuel cfg p tok rest sh1) as [[sh2 evs2]| |]
      eqn:Hrest; try discriminate.
    inversion Hrun; subst. rewrite app_assoc.
    now apply (IH sh0 sh1 (evs ++ evs1) sh' evs2).
Qed.

Lemma runZoomToDriveConnector_inv (sh sh' : sheet) (evs : list event) :
  runZoomToDriveConnector fuel cfg p sh = Returned (sh', evs) ->
  inv sh sh' evs.
Proof.
  unfold runZoomToDriveConnector. intros Hrun.
  destruct (getZoomAccessToken (tokenAnswer p)) as [tok|].
  2:{ inversion Hrun; subst. apply (inv_error _ _ [] _ (inv_start _)). }
  destruct (fst (getAllZoomUsers fuel (members p) tok)) as [us| |];
    try discriminate.
  2:{ inversion Hrun; subst. apply (inv_error _ _ [] _ (inv_start _)). }
  destruct (recordingsPhase fuel cfg p tok us sh) as [[sh1 evs1]| |] eqn:Hrec;
    try discriminate.
  2:{ inversion Hrun; subst. apply (inv_error _ _ [] _ (inv_start _)). }
  pose proof (recordingsPhase_inv tok us sh sh [] sh1 evs1 (inv_start sh) Hrec)
    as H1. cbn [app] in H1.
  destruct (summariesPhase fuel cfg p tok us sh1) as [[sh2 evs2]| |] eqn:Hsum;
    try discriminate.
  - inversion Hrun; subst.
    now apply (summariesPhase_inv tok us sh sh1 evs1 sh' evs2).
  - inversion Hrun; subst. now apply inv_error.
Qed.

End RunInvariant.

(** *** The ledger only grows *)

Lemma processRecording_ledger (cfg : Config) (env : Env) (tok : string)
  (recording : Recording) (sh : sheet) :
  fst (processRecording cfg env tok recording sh)
  = sh ++ map (storedRow (parseOnWrite env))
              (loggedRows (snd (processRecording cfg env tok recording sh))).
Proof.
  destruct (processRecording_cases cfg env tok recording sh)
    as [[_ ->]|[(_ & _ & msg & ->)|(_ & fid & values & _ & _ & _ & ->)]];
    cbn [fst snd]; try (cbn; now rewrite app_nil_r).
  change (EnsureFolder ?a ?b :: ?l) with ([EnsureFolder a b] ++ l).
  rewrite !loggedRows_app, filesTransferredOf_logs_nothing.
  destruct (DELETE_AFTER_TRANSFER cfg && _); reflexivity.
Qed.

Lemma processMeetingSummary_ledger (toUpperCase : string -> string)
  (cfg : Config) (env : Env) (dsrv : detailServer) (tok : string)
  (meeting : Summary) (sh : sheet) :
  let run := processMeetingSummary toUpperCase cfg env dsrv tok meeting sh in
  sheetAfter run
  = sh ++ map (storedRow (parseOnWrite env)) (loggedRows (calls run))
  /\ forall meetingId, ~ In (DeleteRecording meetingId) (calls run).
Proof.
  cbn zeta. unfold processMeetingSummary.
  destruct (isSummaryProcessed _ _ sh);
    [split; [cbn; now rewrite app_nil_r|intros ? []]|].
  destruct (getMeetingSummaryDetail dsrv (meeting_uuid meeting) tok)
    as [found req].
  destruct found as [data|];
    [|split; [cbn; now rewrite app_nil_r|intros ? []]].
  destruct (negb (truthyDetails (detailedSummary data)));
    [split; [cbn; now rewrite app_nil_r|intros ? []]|].
  destruct (createDriveFolder env _ _) as [folderId|].
  2:{ split; [cbn; now rewrite app_nil_r|intros ? [H|[]]; discriminate]. }
  destruct (summaryContent _ _ _ data) as [content|].
  2:{ split; [cbn; now rewrite app_nil_r
             |intros ? [H|[H|[]]]; discriminate]. }
  destruct (createFile env _ folderId) as [fileId|].
  2:{ split; [cbn; now rewrite app_nil_r
             |intros ? [H|[H|[]]]; discriminate]. }
  split; [reflexivity|intros ? [H|[H|[H|[]]]]; discriminate].
Qed.

(** X17.  A run never rewrites or removes a row of the tracking sheet: the
    sheet it leaves is the sheet it found followed by the rows it
    logged, in the order it logged them, each as the sheet stores
    it. *)
Theorem runZoomToDriveConnector_appends (fuel : nat) (cfg : Config)
  (p : Platform) (sh sh' : sheet) (evs : list event) :
  runZoomToDriveConnector fuel cfg p sh = Returned (sh', evs) ->
  sh' = sh ++ map (storedRow (parseOnWrite (drive p))) (loggedRows evs).
Proof.
  apply (runZoomToDriveConnector_inv cfg p fuel
           (fun sh0 sh1 evs1 =>
              sh1 = sh0 ++ map (storedRow (parseOnWrite (drive p)))
                               (loggedRows evs1))).
  - intros s. cbn. now rewrite app_nil_r.
  - intros sh0 s evs0 tok recording ->.
    rewrite processRecording_ledger, loggedRows_app, map_app.
    now rewrite app_assoc.
  - intros sh0 s evs0 tok meeting ->.
    destruct (processMeetingSummary_ledger (upperCase p) cfg (drive p)
                (summaryDetails p) tok meeting
                (sh0 ++ map (storedRow (parseOnWrite (drive p)))
                            (loggedRows evs0))) as [-> _].
    rewrite loggedRows_app, map_app. now rewrite app_assoc.
  - intros sh0 s evs0 message ->.
    rewrite loggedRows_app. cbn. now rewrite app_nil_r.
Qed.

(** *** Deletion at the source *)

Lemma processRecording_keeps_source (cfg : Config) (env : Env) (tok : string)
  (recording : Recording) (sh : sheet) (meetingId : string) :
  DELETE_AFTER_TRANSFER cfg = false ->
  ~ In (DeleteRecording meetingId)
       (snd (processRecording cfg env tok recording sh)).
Proof.
  intros Hflag.
  destruct (processRecording_cases cfg env tok recording sh)
    as [[_ ->]|[(_ & _ & msg & ->)|(_ & fid & values & _ & _ & _ & ->)]];
    cbn [snd].
  - intros [].
  - intros [H|[]]. discriminate.
  - rewrite Hflag. cbn [andb app]. intros [H|H]; [discriminate|].
    apply in_app_or in H as [H|[H|[]]]; [|discriminate].
    now apply filesTransferredOf_no_deletion in H.
Qed.

(** X18.  With delete-after-transfer switched off, a run sends no deletion
    request to the source at all, whatever is fetched and whatever is
    transferred. *)
Theorem runZoomToDriveConnector_keeps_source (fuel : nat) (cfg : Config)
  (p : Platform) (sh sh' : sheet) (evs : list event) :
  DELETE_AFTER_TRANSFER cfg = false ->
  runZoomToDriveConnector fuel cfg p sh = Returned (sh', evs) ->
  forall meetingId, ~ In (DeleteRecording meetingId) evs.
Proof.
  intros Hflag Hrun meetingId.
  apply (runZoomToDriveConnector_inv cfg p fuel
           (fun _ _ evs1 => ~ In (DeleteRecording meetingId) evs1))
    with (sh := sh) (sh' := sh'); [| | | |exact Hrun].
  - intros _ [].
  - intros _ s evs0 tok recording H Hin.
    apply in_app_or in Hin as [Hin|Hin]; [now apply H|].
    now apply (processRecording_keeps_source cfg (drive p) tok recording s
                 meetingId Hflag).
  - intros _ s evs0 tok meeting H Hin.
    apply in_app_or in Hin as [Hin|Hin]; [now apply H|].
    now apply (proj2 (processMeetingSummary_ledger (upperCase p) cfg (drive p)
                        (summaryDetails p) tok meeting s) meetingId).
  - intros _ s evs0 message H Hin.
    apply in_app_or in Hin as [Hin|[Hin|[]]]; [now apply H|discriminate].
Qed.

(** A platform with one member, one recording and one summary. *)
Definition smallPlatform (parse : string -> cell) : Platform :=
  {| tokenAnswer := TokenReply 200 (Some "token");
     members :=
       (fun _ =>
          UsersReply 200
            (Some {| users := Some [FetchProofs.alice];
                     users_page_count := Some 1 |}));
     listings :=
       (fun req =>
          if includes (url req) "/recordings?"
          then Reply 200 (RecordingsPage (Some [standupRecording]) (Some 1))
          else Reply 200 (SummariesPage (Some [SummaryRerun.standupSummary])
                            None));
     summaryDetails := SummaryRerun.detailsServer;
     drive := driveEnv 200 parse;
     todayGmt := 19740;
     upperCase := (fun s => s) |}.

Lemma runZoomToDriveConnector_appends_witness :
  exists sh' evs,
    runZoomToDriveConnector 3 (standupConfig true) (smallPlatform CStr)
      [headerRow] = Returned (sh', evs)
    /\ length (loggedRows evs) = 2%nat
    /\ sh' = [headerRow] ++ map (storedRow CStr) (loggedRows evs).
Proof.
  eexists _, _. split; [vm_compute; reflexivity|].
  split; [reflexivity|].
  apply (runZoomToDriveConnector_appends 3 (standupConfig true)
           (smallPlatform CStr) [headerRow]).
  vm_compute. reflexivity.
Defined.

Lemma runZoomToDriveConnector_keeps_source_witness :
  exists sh' evs,
    runZoomToDriveConnector 3 (standupConfig false) (smallPlatform CStr)
      [headerRow] = Returned (sh', evs)
    /\ evs <> []
    /\ forall meetingId, ~ In (DeleteRecording meetingId) evs.
Proof.
  eexists _, _. split; [vm_compute; reflexivity|].
  split; [discriminate|].
  eapply (runZoomToDriveConnector_keeps_source 3 (standupConfig false)
            (smallPlatform CStr) [headerRow]); [reflexivity|].
  vm_compute. reflexivity.
Defined.

(** *** Listing the members *)

(** Every page count the member endpoint announces is at most [n]. *)
Definition userPagesBelow (usrv : usersServer) (n : Z) : Prop :=
  forall req code us pc,
    usrv req = UsersReply code
                 (Some {| users := us; users_page_count := Some pc |}) ->
    (pc <= n)%Z.

Lemma usersLoop_ends (usrv : usersServer) (n : Z) (tok : string) :
  userPagesBelow usrv n ->
  forall (fuel : nat) (page : Z) (acc : list User),
  (n - page < Z.of_nat fuel)%Z -> (0 < fuel)%nat ->
  fst (usersLoop fuel usrv tok page acc) <> OutOfFuel
  /\ (Z.of_nat (length (snd (usersLoop fuel usrv tok page acc)))
      <= Z.max 1 (n - page + 1))%Z.
Proof.
  intros Hsrv. induction fuel as [|fuel IH]; intros page acc Hn Hpos; [lia|].
  cbn [usersLoop].
  destruct (usrv _) as [code parsed|] eqn:Hreply;
    [|split; [discriminate|cbn; lia]].
  destruct (code =? 200)%Z; [|split; [discriminate|cbn; lia]].
  destruct parsed as [[us pc]|]; [|split; [discriminate|cbn; lia]].
  cbn [users users_page_count].
  destruct us as [[|u us']|]; try (split; [discriminate|cbn; lia]).
  destruct (morePages pc page) eqn:Hmore; [|split; [discriminate|cbn; lia]].
  destruct pc as [pc|]; [|discriminate]. cbn [morePages] in Hmore.
  apply Z.ltb_lt in Hmore. pose proof (Hsrv _ _ _ _ Hreply) as Hpc.
  specialize (IH (page + 1)%Z (acc ++ u :: us') ltac:(lia) ltac:(lia)).
  destruct (usersLoop fuel usrv tok (page + 1)%Z (acc ++ u :: us'))
    as [res reqs].
  cbn [fst snd length] in IH |- *. destruct IH as [IH1 IH2].
  split; [exact IH1|lia].
Qed.

Lemma usersLoop_more_fuel (usrv : usersServer) (tok : string)
  (fuel extra : nat) :
  forall (page : Z) (acc : list User),
  fst (usersLoop fuel usrv tok page acc) <> OutOfFuel ->
  usersLoop (fuel + extra) usrv tok page acc = usersLoop fuel usrv tok page acc.
Proof.
  induction fuel as [|fuel IH]; intros page acc H; [now cbn in H|].
  cbn [Nat.add usersLoop] in H |- *.
  destruct (usrv _) as [code parsed|]; [|reflexivity].
  destruct (code =? 200)%Z; [|reflexivity].
  destruct parsed as [data|]; [|reflexivity].
  destruct (users data) as [[|u us']|]; try reflexivity.
  destruct (morePages (users_page_count data) page); [|reflexivity].
  specialize (IH (page + 1)%Z (acc ++ u :: us')).
  destruct (usersLoop fuel usrv tok (page + 1)%Z (acc ++ u :: us'))
    as [res reqs].
  cbn [fst] in H, IH. now rewrite IH.
Qed.

(** X20.  When the member endpoint never announces more than [n] pages,
    [getAllZoomUsers] returns a list after at most max(1, n) requests,
    given room for that many pages; it never lets an exception out, and
    a larger budget gives the same list and the same requests. *)
Theorem getAllZoomUsers_returns (n : Z) (fuel : nat) (usrv : usersServer)
  (accessToken : string) :
  userPagesBelow usrv n -> (n <= Z.of_nat fuel)%Z -> (1 <= fuel)%nat ->
  (exists us, fst (getAllZoomUsers fuel usrv accessToken) = Returned us)
  /\ (Z.of_nat (length (snd (getAllZoomUsers fuel usrv accessToken)))
      <= Z.max 1 n)%Z
  /\ forall extra,
       getAllZoomUsers (fuel + extra) usrv accessToken
       = getAllZoomUsers fuel usrv accessToken.
Proof.
  intros Hsrv Hn Hpos.
  destruct (usersLoop_ends usrv n accessToken Hsrv fuel 1%Z []
              ltac:(lia) ltac:(lia)) as [Hend Hlen].
  unfold getAllZoomUsers. split; [|split].
  - destruct (usersLoop fuel usrv accessToken 1 []) as [[us| |] reqs];
      cbn [fst] in Hend |- *; [now exists us|now exists []|congruence].
  - destruct (usersLoop fuel usrv accessToken 1 []) as [[us| |] reqs];
      cbn [snd] in Hlen |- *; lia.
  - intros extra. now rewrite usersLoop_more_fuel.
Qed.

(** A member endpoint with two pages of one member each. *)
Definition twoPageMembers : usersServer :=
  fun req =>
    if includes (url req) "page_number=1&"
    then UsersReply 200 (Some {| users := Some [FetchProofs.alice];
                                 users_page_count := Some 2 |})
    else UsersReply 200 (Some {| users := Some [FetchProofs.bob];
                                 users_page_count := Some 2 |}).

Lemma getAllZoomUsers_returns_witness :
  userPagesBelow twoPageMembers 2
  /\ getAllZoomUsers 2 twoPageMembers "token"
     = (Returned [FetchProofs.alice; FetchProofs.bob],
        snd (getAllZoomUsers 2 twoPageMembers "token"))
  /\ getAllZoomUsers (2 + 7) twoPageMembers "token"
     = getAllZoomUsers 2 twoPageMembers "token".
Proof.
  assert (H : userPagesBelow twoPageMembers 2).
  { intros req code us pc. unfold twoPageMembers.
    destruct (includes (url req) "page_number=1&"); intros E; inversion E;
      lia. }
  split; [exact H|]. split; [reflexivity|].
  destruct (getAllZoomUsers_returns 2 2 twoPageMembers "token" H
              ltac:(lia) ltac:(lia)) as (_ & _ & Hmore).
  apply Hmore.
Defined.

End ConnectorExtras.


(* ================================================================== *)
(** ** Dates written to and read from the sheet *)
(* ================================================================== *)

Module DateExtras.
Import JsDate Ledger Orchestrator OrchestratorProofs.
Open Scope Z_scope.

(** *** The calendar *)

Lemma civilFromDays_valid (z : Z) :
  let '(y, m, d) := civilFromDays z in
  1 <= m <= 12 /\ 1 <= d <= 31 /\ daysFromCivil y m d = z.
Proof.
  unfold civilFromDays, daysFromCivil.
  set (z' := z + 719468).
  set (era := z' / 146097).
  set (doe := z' - era * 146097).
  set (yoe := (doe - doe / 1460 + doe / 36524 - doe / 146096) / 365).
  set (doy := doe - (365 * yoe + yoe / 4 - yoe / 100)).
  set (mp := (5 * doy + 2) / 153).
  assert (Hdoe : 0 <= doe < 146097).
  { subst doe era. pose proof (Z.div_mod z' 146097 ltac:(lia)).
    pose proof (Z.mod_pos_bound z' 146097 ltac:(lia)). lia. }
  assert (Hyoe : 0 <= yoe <= 399).
  { subst yoe. Z.to_euclidean_division_equations; lia. }
  assert (Hdoy : 0 <= doy <= 365).
  { subst doy yoe. Z.to_euclidean_division_equations; lia. }
  assert (Hmp : 0 <= mp <= 11).
  { subst mp. Z.to_euclidean_division_equations; lia. }
  assert (Hd : 1 <= doy - (153 * mp + 2) / 5 + 1 <= 31).
  { subst mp. Z.to_euclidean_division_equations; lia. }
  assert (Hback : (153 * mp + 2) / 5 + (doy - (153 * mp + 2) / 5 + 1) - 1 = doy)
    by lia.
  destruct (Z.ltb_spec mp 10) as [Hlt|Hge].
  - (* March to December *)
    assert (Hm : (mp + 3 <=? 2) = false) by (apply Z.leb_gt; lia).
    rewrite Hm. split; [lia|]. split; [exact Hd|].
    assert (H2 : (2 <? mp + 3) = true) by (apply Z.ltb_lt; lia).
    rewrite H2.
    replace (mp + 3 - 3) with mp by lia.
    assert (Hera : (yoe + era * 400) / 400 = era).
    { symmetry. apply (Z.div_unique _ _ _ yoe); lia. }
    rewrite Hera. replace (yoe + era * 400 - era * 400) with yoe by lia.
    rewrite Hback. subst doy doe z'. lia.
  - (* January and February *)
    assert (Hm : (mp - 9 <=? 2) = true) by (apply Z.leb_le; lia).
    rewrite Hm. split; [lia|]. split; [exact Hd|].
    assert (H2 : (2 <? mp - 9) = false) by (apply Z.ltb_ge; lia).
    rewrite H2.
    replace (yoe + era * 400 + 1 - 1) with (yoe + era * 400) by lia.
    replace (mp - 9 + 9) with mp by lia.
    assert (Hera : (yoe + era * 400) / 400 = era).
    { symmetry. apply (Z.div_unique _ _ _ yoe); lia. }
    rewrite Hera. replace (yoe + era * 400 - era * 400) with yoe by lia.
    rewrite Hback. subst doy doe z'. lia.
Qed.

(** *** Digits *)

Lemma digit_code (n : Z) : code (digit n) = (48 + Z.to_N (n mod 10))%N.
Proof.
  unfold code, digit. apply N_ascii_embedding.
  pose proof (Z.mod_pos_bound n 10 ltac:(lia)). lia.
Qed.

Lemma digit_isDigit (n : Z) : isDigit (digit n) = true.
Proof.
  unfold isDigit. rewrite digit_code.
  pose proof (Z.mod_pos_bound n 10 ltac:(lia)).
  apply andb_true_iff. split; apply N.leb_le; lia.
Qed.

Lemma isDigit_not (c d : ascii) :
  isDigit c = true -> isDigit d = false -> Ascii.eqb c d = false.
Proof.
  intros Hc Hd. apply Ascii.eqb_neq. intros ->. congruence.
Qed.

Lemma numeral_pad2 (n : Z) : 0 <= n <= 99 -> numeral (pad2 n) = Some n.
Proof.
  intros Hn. unfold numeral, pad2. cbn [truthy isEmpty negb].
  cbn [JsObject.digitsValue]. rewrite !digit_isDigit, !digit_code.
  f_equal.
  pose proof (Z.mod_pos_bound (n / 10) 10 ltac:(lia)).
  pose proof (Z.mod_pos_bound n 10 ltac:(lia)).
  assert (n / 10 mod 10 = n / 10) by (apply Z.mod_small;
    Z.to_euclidean_division_equations; lia).
  pose proof (Z.div_mod n 10 ltac:(lia)). lia.
Qed.

Lemma numeral_pad4 (n : Z) : 0 <= n <= 9999 -> numeral (pad4 n) = Some n.
Proof.
  intros Hn. unfold numeral, pad4, pad2. cbn [truthy isEmpty negb].
  cbn [JsObject.digitsValue]. rewrite !digit_isDigit, !digit_code.
  f_equal.
  pose proof (Z.mod_pos_bound (n / 1000) 10 ltac:(lia)).
  pose proof (Z.mod_pos_bound (n / 100) 10 ltac:(lia)).
  pose proof (Z.mod_pos_bound (n / 10) 10 ltac:(lia)).
  pose proof (Z.mod_pos_bound n 10 ltac:(lia)).
  assert (n = 1000 * (n / 1000 mod 10) + 100 * (n / 100 mod 10)
              + 10 * (n / 10 mod 10) + n mod 10)
    by (Z.to_euclidean_division_equations; lia).
  lia.
Qed.

(** *** Digit texts read as numbers *)

Lemma isDigit_radixDigit (c : ascii) :
  isDigit c = true -> radixDigit 10 c = Some (Z.of_N (code c - 48)).
Proof.
  intros H. unfold radixDigit, digitValue. rewrite H.
  unfold isDigit in H. apply andb_true_iff in H as [H1 H2].
  apply N.leb_le in H1, H2.
  assert (Hlt : (Z.of_N (code c - 48) <? 10) = true) by (apply Z.ltb_lt; lia).
  now rewrite Hlt.
Qed.

Lemma isDigit_isWhitespace (c : ascii) :
  isDigit c = true -> isWhitespace c = false.
Proof.
  unfold isDigit, isWhitespace. intros H.
  apply andb_true_iff in H as [H1 H2]. apply N.leb_le in H1, H2.
  repeat (apply orb_false_iff; split).
  - apply andb_false_iff. right. apply N.leb_gt. lia.
  - apply N.eqb_neq. lia.
  - apply N.eqb_neq. lia.
Qed.

Lemma digitsPrefix_allDigits (s : string) :
  Transcript.allDigits s = true ->
  forall a, exists v,
    JsObject.digitsValue s a = Some v
    /\ digitsPrefix 10 s (Z.of_N a) = (Z.of_N v, EmptyString).
Proof.
  induction s as [|c r IH]; intros H a.
  - exists a. now split.
  - cbn [Transcript.allDigits] in H. apply andb_true_iff in H as [Hc Hr].
    cbn [JsObject.digitsValue digitsPrefix].
    rewrite Hc, (isDigit_radixDigit c Hc).
    destruct (IH Hr (a * 10 + (code c - 48))%N) as (v & Hv & Hp).
    exists v. split; [exact Hv|]. rewrite <- Hp. f_equal.
    unfold isDigit in Hc. apply andb_true_iff in Hc as [H1 H2].
    apply N.leb_le in H1, H2. lia.
Qed.

Lemma wholeDigits_numeral (s : string) :
  truthy s = true -> Transcript.allDigits s = true ->
  wholeDigits 10 s = numeral s.
Proof.
  intros Ht Hd. unfold wholeDigits, numeral. rewrite Ht.
  destruct (digitsPrefix_allDigits s Hd 0%N) as (v & Hv & Hp).
  change (Z.of_N 0) with 0 in Hp. rewrite Hv, Hp.
  destruct s as [|c r]; [discriminate|].
  cbn [Transcript.allDigits] in Hd. apply andb_true_iff in Hd as [Hc _].
  cbn [startsWithDigit]. now rewrite (isDigit_radixDigit c Hc).
Qed.

Lemma trimEnd_allDigits (s : string) :
  Transcript.allDigits s = true -> trimEnd s = s.
Proof.
  induction s as [|c r IH]; intros H; [reflexivity|].
  cbn [Transcript.allDigits] in H. apply andb_true_iff in H as [Hc Hr].
  cbn [trimEnd]. now rewrite (isDigit_isWhitespace c Hc), (IH Hr).
Qed.

Lemma trim_allDigits (s : string) :
  Transcript.allDigits s = true -> trim s = s.
Proof.
  intros H. unfold trim.
  assert (Hs : trimStart s = s).
  { destruct s as [|c r]; [reflexivity|].
    cbn [Transcript.allDigits] in H. apply andb_true_iff in H as [Hc _].
    cbn [trimStart]. now rewrite (isDigit_isWhitespace c Hc). }
  rewrite Hs. now apply trimEnd_allDigits.
Qed.

Lemma radixPrefix_allDigits (hexOnly : bool) (s : string) :
  Transcript.allDigits s = true -> radixPrefix hexOnly s = None.
Proof.
  intros H. destruct s as [|z [|c r]]; try reflexivity.
  cbn [Transcript.allDigits] in H.
  apply andb_true_iff in H as [_ H]. apply andb_true_iff in H as [Hc _].
  unfold radixPrefix, radixOf.
  rewrite !(isDigit_not c _ Hc) by reflexivity.
  cbn [orb]. now destruct (Ascii.eqb z "0"), hexOnly.
Qed.

Lemma signed_allDigits (s : string) :
  Transcript.allDigits s = true -> signed s = (1, s).
Proof.
  intros H. destruct s as [|c r]; [reflexivity|].
  cbn [Transcript.allDigits] in H. apply andb_true_iff in H as [Hc _].
  unfold signed. now rewrite !(isDigit_not c _ Hc) by reflexivity.
Qed.

(** A text of digits is coerced to the number it writes in decimal. *)
Lemma toNumber_allDigits (s : string) :
  truthy s = true -> Transcript.allDigits s = true -> toNumber s = numeral s.
Proof.
  intros Ht Hd. unfold toNumber.
  rewrite (trim_allDigits s Hd), (radixPrefix_allDigits false s Hd),
    (signed_allDigits s Hd), (wholeDigits_numeral s Ht Hd).
  unfold truthy in Ht. apply negb_true_iff in Ht. rewrite Ht.
  destruct (numeral s) as [n|]; [|reflexivity].
  now rewrite Z.mul_1_l.
Qed.

(** [parseInt] reads a text of digits as the same number. *)
Lemma parseInt_allDigits (s : string) :
  truthy s = true -> Transcript.allDigits s = true -> parseInt s = numeral s.
Proof.
  intros Ht Hd. unfold parseInt.
  assert (Hs : trimStart s = s).
  { destruct s as [|c r]; [reflexivity|].
    cbn [Transcript.allDigits] in Hd. apply andb_true_iff in Hd as [Hc _].
    cbn [trimStart]. now rewrite (isDigit_isWhitespace c Hc). }
  rewrite Hs, (signed_allDigits s Hd), (radixPrefix_allDigits true s Hd).
  pose proof (wholeDigits_numeral s Ht Hd) as Hw. unfold wholeDigits in Hw.
  destruct (startsWithDigit 10 s); [|exact Hw].
  destruct (digitsPrefix_allDigits s Hd 0%N) as (v & Hv & Hp).
  change (Z.of_N 0) with 0 in Hp. rewrite Hp in Hw |- *. cbn [fst].
  now rewrite Z.mul_1_l.
Qed.

Lemma allDigits_pad2 (n : Z) : Transcript.allDigits (pad2 n) = true.
Proof.
  unfold pad2. cbn [Transcript.allDigits]. now rewrite !digit_isDigit.
Qed.

Lemma allDigits_pad4 (n : Z) : Transcript.allDigits (pad4 n) = true.
Proof.
  unfold pad4, pad2. cbn [Transcript.allDigits]. now rewrite !digit_isDigit.
Qed.

(** The three parts of a rendered date: digits only between the
    dashes. *)
Lemma split_date (a1 a2 a3 a4 b1 b2 c1 c2 : Z) (tail : string) :
  split "-"
    (String (digit a1) (String (digit a2) (String (digit a3)
       (String (digit a4) (String "-" (String (digit b1)
          (String (digit b2) (String "-" (String (digit c1)
             (String (digit c2) EmptyString))))))))))
  = [String (digit a1) (String (digit a2) (String (digit a3)
       (String (digit a4) EmptyString)));
     String (digit b1) (String (digit b2) EmptyString);
     String (digit c1) (String (digit c2) EmptyString)].
Proof.
  assert (H : forall n, Ascii.eqb (digit n) "-" = false).
  { intros n. apply isDigit_not; [apply digit_isDigit|reflexivity]. }
  cbn [split]. rewrite !H. now rewrite Ascii.eqb_refl.
Qed.

Lemma split_us_date (a1 a2 a3 a4 b1 b2 c1 c2 : Z) :
  split "-"
    (String (digit b1) (String (digit b2) (String "-" (String (digit c1)
       (String (digit c2) (String "-" (String (digit a1)
          (String (digit a2) (String (digit a3)
             (String (digit a4) EmptyString))))))))))
  = [String (digit b1) (String (digit b2) EmptyString);
     String (digit c1) (String (digit c2) EmptyString);
     String (digit a1) (String (digit a2) (String (digit a3)
       (String (digit a4) EmptyString)))].
Proof.
  assert (H : forall n, Ascii.eqb (digit n) "-" = false).
  { intros n. apply isDigit_not; [apply digit_isDigit|reflexivity]. }
  cbn [split]. rewrite !H. now rewrite Ascii.eqb_refl.
Qed.

(** The year of a day. *)
Definition yearOf (day : Z) : Z := fst (fst (civilFromDays day)).

Lemma formattedMeetingDate_formatIso (day : Z) :
  100 <= yearOf day <= 9999 ->
  formattedMeetingDate (formatIso day) = formatUs day.
Proof.
  unfold yearOf, formattedMeetingDate, formatIso, formatUs.
  pose proof (civilFromDays_valid day) as Hv.
  destruct (civilFromDays day) as [[y m] d] eqn:E. cbn [fst].
  destruct Hv as (Hm & Hd & Hday). intros Hy.
  cbn [truthy isEmpty negb].
  set (iso := (pad4 y ++ "-" ++ pad2 m ++ "-" ++ pad2 d)%string).
  assert (Htruthy : truthy iso = true) by reflexivity.
  assert (Hunknown : String.eqb iso "Unknown Date" = false).
  { subst iso. unfold pad4. cbn [append String.eqb].
    rewrite (isDigit_not (digit (y / 1000)) "U"); [reflexivity| |reflexivity].
    apply digit_isDigit. }
  assert (Hsplit : split "-" iso = [pad4 y; pad2 m; pad2 d]).
  { subst iso. unfold pad4, pad2. cbn [append]. apply (split_date _ _ _ _ _ _ _ _ EmptyString). }
  rewrite Htruthy, Hunknown, Hsplit. cbn [negb andb].
  rewrite (toNumber_allDigits (pad4 y) eq_refl (allDigits_pad4 y)),
    (parseInt_allDigits (pad2 m) eq_refl (allDigits_pad2 m)),
    (toNumber_allDigits (pad2 d) eq_refl (allDigits_pad2 d)).
  rewrite (numeral_pad4 y), (numeral_pad2 m), (numeral_pad2 d) by lia.
  unfold makeDate.
  assert (Hquirk : (0 <=? y) && (y <=? 99) = false).
  { apply andb_false_iff. right. apply Z.leb_gt. lia. }
  rewrite Hquirk.
  assert (Hdiv : (m - 1) / 12 = 0) by (apply Z.div_small; lia).
  assert (Hmod : (m - 1) mod 12 = m - 1) by (apply Z.mod_small; lia).
  rewrite Hdiv, Hmod.
  replace (y + 0) with y by lia. replace (m - 1 + 1) with m by lia.
  assert (Hsame : daysFromCivil y m 1 + (d - 1) = day).
  { rewrite <- Hday. unfold daysFromCivil. lia. }
  rewrite Hsame, E. reflexivity.
Qed.

Lemma parseUsDates_formatUs (day : Z) :
  0 <= yearOf day <= 9999 -> parseUsDates (formatUs day) = CDate day.
Proof.
  unfold yearOf, parseUsDates, formatUs.
  pose proof (civilFromDays_valid day) as Hv.
  destruct (civilFromDays day) as [[y m] d] eqn:E. cbn [fst].
  destruct Hv as (Hm & Hd & Hday). intros Hy.
  assert (Hsplit : split "-" (pad2 m ++ "-" ++ pad2 d ++ "-" ++ pad4 y)%string
                   = [pad2 m; pad2 d; pad4 y]).
  { unfold pad4, pad2. cbn [append]. apply split_us_date. }
  rewrite Hsplit.
  rewrite (numeral_pad4 y), (numeral_pad2 m), (numeral_pad2 d) by lia.
  assert (Hrange : (1 <=? m) && (m <=? 12) && (1 <=? d) && (d <=? 31) = true).
  { repeat (apply andb_true_iff; split); apply Z.leb_le; lia. }
  now rewrite Hrange, Hday.
Qed.

(** X21.  For every day of the years 100 to 9999: [logTransferToSheet]
    writes the ISO date of a meeting ("yyyy-MM-dd") as "MM-dd-yyyy" of
    the same day; a sheet that reads such a text as a date then holds
    that very day; and the normalization of [isSummaryProcessed]
    renders the cell back to the ISO text the lookup is asked for. *)
Theorem meeting_date_round_trip (day : Z) :
  100 <= yearOf day <= 9999 ->
  formattedMeetingDate (formatIso day) = formatUs day
  /\ parseUsDates (formattedMeetingDate (formatIso day)) = CDate day
  /\ normalizedDate (parseUsDates (formattedMeetingDate (formatIso day)))
     = CStr (formatIso day).
Proof.
  intros Hy. rewrite (formattedMeetingDate_formatIso day Hy).
  rewrite (parseUsDates_formatUs day) by lia. now repeat split.
Qed.

Lemma meeting_date_round_trip_witness :
  100 <= yearOf 19737 <= 9999
  /\ formatIso 19737 = "2024-01-15"
  /\ formattedMeetingDate "2024-01-15" = "01-15-2024"
  /\ normalizedDate (parseUsDates (formattedMeetingDate "2024-01-15"))
     = CStr "2024-01-15".
Proof.
  assert (H : 100 <= yearOf 19737 <= 9999) by (vm_compute; split; discriminate).
  split; [exact H|]. split; [reflexivity|].
  destruct (meeting_date_round_trip 19737 H) as (H1 & _ & H3).
  split; [exact H1|exact H3].
Defined.

End DateExtras.

(* ================================================================== *)
(** ** The date windows on the script's clock *)
(* ================================================================== *)

Module ZonedWindowingProofs.
Import JsDate Windowing ZonedWindowing.
Open Scope Z_scope.

(** A zone whose local time is ahead of GMT by the same [offset]
    milliseconds at all times. *)
Definition fixedOffset (zone : Zone) (offset : Z) : Prop :=
  (forall t, localTime zone t = t + offset)
  /\ (forall l, utc zone l = l - offset).

Lemma daysFromCivil_day (y m d : Z) :
  daysFromCivil y m d = daysFromCivil y m 1 + d - 1.
Proof. unfold daysFromCivil. lia. Qed.

(** In such a zone, going back [k] days of the month is going back
    [k] times 24 hours. *)
Lemma setDate_back (zone : Zone) (offset t k : Z) :
  fixedOffset zone offset ->
  setDate zone t (getDate zone t - k) = t - k * msPerDay.
Proof.
  intros [Hl Hu]. unfold setDate, getDate. rewrite Hl.
  pose proof (DateExtras.civilFromDays_valid ((t + offset) / msPerDay)) as Hv.
  destruct (civilFromDays ((t + offset) / msPerDay)) as [[y m] d].
  destruct Hv as (_ & _ & Hday). cbn [snd]. rewrite Hu.
  rewrite (daysFromCivil_day y m d) in Hday.
  pose proof (Z.div_mod (t + offset) msPerDay ltac:(discriminate)) as Hdm.
  nia.
Qed.

Lemma gmtDay_back (t k : Z) : gmtDay (t - k * msPerDay) = gmtDay t - k.
Proof.
  unfold gmtDay.
  replace (t - k * msPerDay) with (t + (- k) * msPerDay) by lia.
  rewrite Z.div_add by discriminate. lia.
Qed.

Lemma chunk_fixedOffset (zone : Zone) (offset today days i : Z) :
  fixedOffset zone offset ->
  (gmtDay (fst (ZonedWindowing.chunk zone today days i)),
   gmtDay (snd (ZonedWindowing.chunk zone today days i)))
  = Windowing.chunk (gmtDay today) days i.
Proof.
  intros Hz. unfold ZonedWindowing.chunk, Windowing.chunk.
  rewrite !(setDate_back zone offset) by exact Hz.
  assert (Hcmp :
    (today - i * chunkSize * msPerDay - chunkSize * msPerDay
       <? today - days * msPerDay)
    = (gmtDay today - i * chunkSize - chunkSize <? gmtDay today - days)).
  { unfold msPerDay.
    destruct (Z.ltb_spec (gmtDay today - i * chunkSize - chunkSize)
                (gmtDay today - days)); [apply Z.ltb_lt|apply Z.ltb_ge]; lia. }
  rewrite Hcmp.
  destruct (gmtDay today - i * chunkSize - chunkSize <? gmtDay today - days);
    cbn [fst snd]; rewrite !gmtDay_back; reflexivity.
Qed.

(** X6.  In a script time zone with a fixed offset from GMT, the dates
    the chunk loop requests, computed by going back local days of the
    month and printed in GMT, are the windows counted in days from the
    GMT day of the run.  For a lookback of at least one day they tile
    the requested range: every window lies between the from-date and
    today and spans 1 to 30 days, each later window ends on the day
    the one before it starts, and every day from the from-date to
    today falls in some window. *)
Theorem windows_tile_range_fixed_offset (zone : Zone)
  (offset now days : Z) :
  fixedOffset zone offset -> 1 <= days ->
  let ws := ZonedWindowing.windows zone now days in
  let today := gmtDay now in
  let fromDate := today - days in
  ws = Windowing.windows today days
  /\ (forall w, In w ws ->
        fromDate <= fst w /\ snd w <= today /\ 1 <= snd w - fst w <= 30)
  /\ (forall i, (S i < length ws)%nat ->
        snd (nth (S i) ws (0, 0)) = fst (nth i ws (0, 0)))
  /\ (forall day, fromDate <= day <= today ->
        exists w, In w ws /\ fst w <= day <= snd w).
Proof.
  intros Hz Hdays ws today fromDate.
  assert (Hws : ws = Windowing.windows today days).
  { unfold ws, ZonedWindowing.windows, Windowing.windows.
    apply map_ext. intros i. now apply (chunk_fixedOffset zone offset). }
  split; [exact Hws|]. rewrite Hws.
  exact (WindowingExtras.dayWindows_tile today days Hdays).
Qed.

(** India Standard Time: five and a half hours ahead of GMT all year. *)
Definition indiaTime : Zone :=
  {| localTime := fun t => t + 19800000; utc := fun l => l - 19800000 |}.

Lemma windows_tile_range_fixed_offset_witness :
  fixedOffset indiaTime 19800000 /\ 1 <= 45
  /\ ZonedWindowing.windows indiaTime 1732149000000 45
     = [(20018, 20048); (20003, 20018)]
  /\ exists w, In w (ZonedWindowing.windows indiaTime 1732149000000 45)
       /\ fst w <= 20010 <= snd w.
Proof.
  assert (Hz : fixedOffset indiaTime 19800000) by (split; reflexivity).
  split; [exact Hz|]. split; [lia|]. split; [reflexivity|].
  destruct (windows_tile_range_fixed_offset indiaTime 19800000 1732149000000
              45 Hz ltac:(lia)) as (_ & _ & _ & Hcover).
  apply Hcover. vm_compute. split; discriminate.
Defined.

(** New York in the autumn of 2024: four hours behind GMT until
    2024-11-03 06:00 GMT, five hours behind from then on. *)
Definition newYorkAutumn2024 : Zone :=
  {| localTime := fun t => if t <? 1730613600000 then t - 14400000
                           else t - 18000000;
     utc := fun l => if l <? 1730599200000 then l + 14400000
                     else l + 18000000 |}.

(** Across the change of offset the thirty local days are thirty-one
    GMT days: run at 2024-11-21 00:30 GMT with a lookback of 30 days,
    the loop requests 2024-10-21 to 2024-11-21. *)
Example windows_across_offset_change :
  map (fun w => (formatIso (fst w), formatIso (snd w)))
      (ZonedWindowing.windows newYorkAutumn2024 1732149000000 30)
  = [("2024-10-21", "2024-11-21")]
  /\ map (fun w => (formatIso (fst w), formatIso (snd w)))
         (Windowing.windows (gmtDay 1732149000000) 30)
     = [("2024-10-22", "2024-11-21")].
Proof. split; reflexivity. Qed.

End ZonedWindowingProofs.

(* ================================================================== *)
(** ** The transcript file of a recording *)
(* ================================================================== *)

Module TranscriptTransfer.
Import Ledger Orchestrator TranscriptIdempotence.

(** A pattern that starts with a dot is not found in a text without
    dots: the replacement looks on behind it. *)
Lemma replaceFirst_past (x tail pat rep : string) :
  lacks "." x = true ->
  replaceFirst (x ++ tail) (String "." pat) rep
  = (x ++ replaceFirst tail (String "." pat) rep)%string.
Proof.
  induction x as [|c x IH]; intros H; [reflexivity|].
  simpl in H. apply andb_true_iff in H as [Hc Hx].
  apply negb_true_iff, Ascii.eqb_neq in Hc.
  cbn [append replaceFirst String.prefix].
  destruct (ascii_dec "." c) as [E|_]; [now symmetry in E|].
  now rewrite (IH Hx).
Qed.

Lemma includes_behind (x y sub : string) :
  includes y sub = true -> includes (x ++ y) sub = true.
Proof.
  intros H. induction x as [|c x IH]; [exact H|].
  cbn [append includes]. now destruct (String.prefix sub _).
Qed.

Lemma includes_front (sub rest : string) :
  includes (sub ++ rest) sub = true.
Proof.
  assert (H : String.prefix sub (sub ++ rest) = true).
  { induction sub as [|c sub IH]; [now destruct rest|].
    simpl. now destruct (ascii_dec c c). }
  destruct (sub ++ rest)%string; simpl in *; now rewrite H.
Qed.

Lemma includes_ahead (x y sub : string) :
  includes x sub = true -> includes (x ++ y) sub = true.
Proof.
  induction x as [|c x IH]; intros H.
  - destruct sub; [now destruct y|discriminate].
  - cbn [includes] in H. cbn [append includes].
    destruct (String.prefix sub (String c x)) eqn:E.
    + change (String c (x ++ y)) with (String c x ++ y)%string.
      now rewrite (prefix_app _ _ y E).
    + destruct (String.prefix sub (String c (x ++ y))); [reflexivity|now apply IH].
Qed.

Lemma includes_join (sep e sub : string) (before after : list string) :
  includes e sub = true ->
  includes (join sep (before ++ e :: after)) sub = true.
Proof.
  intros H. induction before as [|b before IH].
  - destruct after as [|a after]; [exact H|].
    cbn [app]. rewrite join_cons2. now apply includes_ahead.
  - assert (Hjoin : join sep ((b :: before) ++ e :: after)
                    = (b ++ sep ++ join sep (before ++ e :: after))%string).
    { now destruct before. }
    rewrite Hjoin. now apply includes_behind, includes_behind.
Qed.

Lemma fileTypesList_transcript (filesTransferred : string) :
  includes filesTransferred "transcript.txt" = true ->
  includes (fileTypesList filesTransferred) "Transcript" = true.
Proof.
  intros H. unfold fileTypesList. rewrite H.
  destruct (includes filesTransferred ".mp4"),
           (includes filesTransferred ".m4a"),
           (includes filesTransferred "chat.txt"
            || includes filesTransferred "Chat.txt"),
           (includes filesTransferred "AI Summary"); reflexivity.
Qed.

(** X22.  A caption file of type transcript, downloaded with status 200 for
    a meeting whose date and topic hold no dot, is saved under
    "<date>_<topic>_transcript.txt": the extension ".vtt" of the name
    is the first ".vtt" of it, and the renaming changes nothing else.
    The entry it adds to the list of transferred files is what makes
    the row of the recording list "Transcript" among its file
    types. *)
Theorem transferFiles_transcript_name (env : Env)
  (accessToken meetingDate meetingTopic folderId : string)
  (file : RecordingFile) (downloadUrl vttContent fileId : string) :
  let name := (meetingDate ++ "_" ++ meetingTopic ++ "_transcript.txt")%string in
  let entry := (name ++ " (" ++ fileId ++ ")")%string in
  lacks "." meetingDate = true -> lacks "." meetingTopic = true ->
  option_map toLowerCase (file_type file) = Some "transcript" ->
  option_map toLowerCase (file_extension file) = Some "vtt" ->
  download_url file = Some downloadUrl -> truthy downloadUrl = true ->
  httpGet env (downloadUrl ++ (if includes downloadUrl "?" then "&" else "?")
               ++ "access_token=" ++ accessToken)
  = Response 200 vttContent ->
  createFile env name folderId = Some fileId ->
  transferFiles env accessToken meetingDate meetingTopic folderId [file]
  = ([entry], [CreateFile name folderId])
  /\ forall before after,
       includes (fileTypesList (join ", " (before ++ entry :: after)))
         "Transcript" = true.
Proof.
  intros name entry Hdate Htopic Htype Hext Hurl Htruthy Hget Hcreate.
  set (stem := (meetingDate ++ "_" ++ meetingTopic ++ "_transcript")%string).
  assert (Hstem : lacks "." stem = true).
  { unfold stem. rewrite !lacks_app, Hdate, Htopic. reflexivity. }
  assert (Hfile : fileNameOf meetingDate meetingTopic (Some "transcript")
                    (Some "vtt") = (stem ++ ".vtt")%string).
  { unfold fileNameOf, stem. cbn [optionEqb String.eqb Ascii.eqb Bool.eqb shown].
    rewrite !append_assoc3. reflexivity. }
  assert (Hname : name = (stem ++ ".txt")%string).
  { unfold name, stem. rewrite !append_assoc3. reflexivity. }
  assert (Hrenamed :
    replaceFirst (replaceFirst (stem ++ ".vtt") ".vtt" ".txt") ".VTT" ".txt"
    = name).
  { rewrite (replaceFirst_past _ ".vtt" "vtt" ".txt" Hstem).
    change (replaceFirst ".vtt" ".vtt" ".txt") with ".txt".
    rewrite (replaceFirst_past _ ".txt" "VTT" ".txt" Hstem).
    now rewrite Hname. }
  split.
  - cbn [transferFiles]. rewrite Hext, Htype, Hurl, Htruthy.
    cbn [optionEqb String.eqb Ascii.eqb Bool.eqb].
    rewrite Hfile. unfold transferFile.
    cbn [optionEqb String.eqb Ascii.eqb Bool.eqb orb].
    rewrite Hget. cbn [Z.eqb Pos.eqb].
    rewrite Hrenamed, Hcreate. reflexivity.
  - intros before after. apply fileTypesList_transcript.
    apply includes_join. unfold entry.
    replace name
      with ((meetingDate ++ "_" ++ meetingTopic ++ "_") ++ "transcript.txt")%string
      by (unfold name; rewrite !append_assoc3; reflexivity).
    rewrite append_assoc3. apply includes_behind, includes_front.
Qed.

Definition transcriptFile : RecordingFile :=
  {| file_type := Some "TRANSCRIPT"; file_extension := Some "VTT";
     download_url := Some "https://zoom.example/d/2" |}.

Lemma transferFiles_transcript_name_witness :
  transferFiles (OrchestratorProofs.driveEnv 200 CStr) "token" "2024-01-15"
    "Standup" "F0" [transcriptFile]
  = (["2024-01-15_Standup_transcript.txt (file:2024-01-15_Standup_transcript.txt)"],
     [CreateFile "2024-01-15_Standup_transcript.txt" "F0"])
  /\ fileTypesList
       "2024-01-15_Standup_transcript.txt (file:2024-01-15_Standup_transcript.txt)"
     = "Transcript".
Proof.
  split; [|reflexivity].
  exact (proj1 (transferFiles_transcript_name
                  (OrchestratorProofs.driveEnv 200 CStr) "token" "2024-01-15"
                  "Standup" "F0" transcriptFile "https://zoom.example/d/2"
                  "media" "file:2024-01-15_Standup_transcript.txt"
                  eq_refl eq_refl eq_refl eq_refl eq_refl eq_refl eq_refl
                  eq_refl)).
Defined.

End TranscriptTransfer.
